(** * nameko-devex: the gateway's order aggregation and the order service

    A shallow embedding of [gateway/gateway/service.py] (class
    [GatewayService]) together with the two services it talks to over RPC.

    - The gateway is translated from its source, method by method.  Python
      integers are [Z], strings are [string] (a [str] is given by the bytes
      of its UTF-8 form), exceptions are a value of [Exn] returned in place
      of a result, and the state that the remote services keep between calls
      is threaded explicitly ([World]).
    - The order service and the product service are not part of the
      gateway's source file.  Their operations are modelled from the written
      specification (sections 4.1 to 4.3) and the order service's interface
      tests ([orders/test/interface/test_service.py]); every such definition
      says so in its comment. *)

From Stdlib Require Import ZArith QArith Qround Lia Ascii String.
From stdpp Require Import base tactics option list numbers strings pretty gmap sorting.

Open Scope Z_scope.

(** ** Exceptions and results *)

(** The exceptions that the modelled code raises.  [NotFound] is what the
    order service and the product service raise themselves, [StorageError] a
    failed write of the order store.  A caller on the other side of an RPC
    sees a [RemoteError] (exception type and message), unless it has
    registered the remote exception: the gateway's [gateway.exceptions] does
    so for the two not-found errors, which arrive as [OrderNotFound] and
    [ProductNotFound].  The remaining ones are Python's own. *)
Inductive Exn : Type :=
  | NotFound (msg : string)
  | StorageError (msg : string)
  | RemoteError (exc_type : string) (value : string)
  | OrderNotFound (msg : string)
  | ProductNotFound (msg : string)
  | ZeroDivisionError
  | ValueError (literal : string)
  | KeyError (key : string).

Inductive Result (A : Type) : Type :=
  | Ok (a : A)
  | Raise (e : Exn).
Arguments Ok {A} a.
Arguments Raise {A} e.

Definition is_ok {A} (r : Result A) : bool :=
  match r with Ok _ => true | Raise _ => false end.

(** ** Python arithmetic *)

(** [a // b] on Python integers: floor division, [ZeroDivisionError] when the
    divisor is zero.  [Z.div] rounds towards minus infinity as [//] does. *)
Definition py_floordiv (a b : Z) : Result Z :=
  if b =? 0 then Raise ZeroDivisionError else Ok (a / b).

(** ** Decimal prices

    A price is a decimal number with a fixed number of fractional digits:
    [coefficient * 10 ^ (- places)].  On the wire it is a string. *)
Record Decimal : Type := mkDecimal { coefficient : Z; places : nat }.

(** Left padding with zeros, and splitting a string at a position. *)
Fixpoint zeros (n : nat) : string :=
  match n with
  | O => ""
  | S n' => String "0" (zeros n')
  end.

Definition zero_pad (width : nat) (digits : string) : string :=
  zeros (width - String.length digits) +:+ digits.

Fixpoint split_at (n : nat) (s : string) : string * string :=
  match n, s with
  | S n', String c s' => let '(a, b) := split_at n' s' in (String c a, b)
  | _, _ => ("", s)
  end.

(** Modelled from the spec: the decimal-as-string convention of the wire
    schemas ([fields.Decimal(as_string=True)] in [gateway.schemas] and
    [orders.schemas], neither of which is among the source files): "price
    serialized as a fixed-point string (e.g. "99.99")". *)
Definition serialize_price (d : Decimal) : string :=
  let digits := zero_pad (S (places d)) (pretty (Z.abs (coefficient d))) in
  let '(whole, frac) := split_at (String.length digits - places d) digits in
  (if coefficient d <? 0 then "-" else "")
    +:+ whole +:+ (if places d is O then "" else "." +:+ frac).

(** The value of a decimal digit, and of a string of them. *)
Definition digit_value (c : ascii) : option Z :=
  let n := Z.of_N (N_of_ascii c) in
  if (48 <=? n) && (n <=? 57) then Some (n - 48) else None.

Fixpoint digits_value (acc : Z) (s : string) : option Z :=
  match s with
  | "" => Some acc
  | String c s' =>
      match digit_value c with
      | Some d => digits_value (10 * acc + d) s'
      | None => None
      end
  end.

Fixpoint split_on_point (s : string) : string * option string :=
  match s with
  | "" => ("", None)
  | String c s' =>
      if Ascii.eqb c "." then ("", Some s')
      else let '(a, b) := split_on_point s' in (String c a, b)
  end.

(** Modelled from the spec: the unsigned part of a fixed-point literal,
    digits with at most one point between them. *)
Definition parse_unsigned (negative : bool) (body : string) : option Decimal :=
  let '(whole, frac) := split_on_point body in
  let frac_digits := default "" frac in
  if (String.length whole =? 0)%nat || bool_decide (frac = Some "") then None
  else
    n ← digits_value 0 (whole +:+ frac_digits);
    Some {| coefficient := if negative then - n else n;
            places := String.length frac_digits |}.

(** Modelled from the spec: the inverse direction of the same convention,
    reading a fixed-point literal ([-]digits[.digits]) back into a decimal. *)
Definition parse_price (s : string) : option Decimal :=
  match s with
  | String c s' =>
      if Ascii.eqb c "-" then parse_unsigned true s' else parse_unsigned false s
  | "" => None
  end.

(** ** Data model *)

(** A product of the catalogue, as the product service returns it. *)
Record Product : Type := mkProduct {
  p_id : string;
  p_title : string;
  p_passenger_capacity : Z;
  p_maximum_speed : Z;
  p_in_stock : Z
}.

(** What the product service stores under a product's id. *)
Record ProductRow : Type := mkProductRow {
  title : string;
  passenger_capacity : Z;
  maximum_speed : Z;
  in_stock : Z
}.

Definition product_of (id : string) (r : ProductRow) : Product :=
  mkProduct id (title r) (passenger_capacity r) (maximum_speed r) (in_stock r).

(** The rows of the order store: an order and its detail lines. *)
Record OrderDetail : Type := mkOrderDetail {
  detail_id : Z;
  product_id : string;
  price : Decimal;
  quantity : Z
}.

Record Order : Type := mkOrder {
  order_id : Z;
  order_details : list OrderDetail
}.

(** A detail line of an order submission, after the gateway has loaded it
    through [CreateOrderSchema] (the price is a decimal), and its serialized
    form (the price is a string), which is what travels to the order
    service. *)
Record OrderLine : Type := mkOrderLine {
  line_product_id : string;
  line_price : Decimal;
  line_quantity : Z
}.

Record OrderLineDict : Type := mkOrderLineDict {
  ld_product_id : string;
  ld_price : string;
  ld_quantity : Z
}.

(** The dictionaries in which an order travels from the order service to the
    gateway.  The gateway adds the keys ['product'] and ['image'] to each
    detail line; they are absent ([None]) until it does. *)
Record OrderDetailDict : Type := mkOrderDetailDict {
  od_id : Z;
  od_product_id : string;
  od_price : string;
  od_quantity : Z;
  od_product : option Product;
  od_image : option string
}.

Record OrderDict : Type := mkOrderDict {
  o_id : Z;
  o_order_details : list OrderDetailDict
}.

(** The arguments with which the order service calls its event dispatcher:
    the event type and the payload [{'order': order}]. *)
Record Event : Type := mkEvent {
  event_type : string;
  payload_order : OrderDict
}.

(** ** The state behind the gateway *)

(** The order store: its rows in creation order, the ids that the next
    order and the next detail line get, and whether a write succeeds. *)
Record OrderStore : Type := mkOrderStore {
  rows : list Order;
  next_order_id : Z;
  next_detail_id : Z;
  accepts_writes : bool
}.

(** A call made through one of the gateway's two [RpcProxy] attributes. *)
Inductive RpcCall : Type :=
  | orders_get_order (order_id : Z)
  | orders_create_order (details : list OrderLineDict)
  | orders_list_orders (skip limit : Z)
  | orders_count_orders
  | products_get (product_id : string)
  | products_list (product_ids : list string).

(** The product service's catalogue, the order store, the events that the
    order service has dispatched, and the calls that the gateway has made. *)
Record World : Type := mkWorld {
  catalogue : gmap string ProductRow;
  store : OrderStore;
  dispatched : list Event;
  rpc_calls : list RpcCall
}.

Definition with_store (s : OrderStore) (w : World) : World :=
  {| catalogue := catalogue w; store := s;
     dispatched := dispatched w; rpc_calls := rpc_calls w |}.

Definition with_event (e : Event) (w : World) : World :=
  {| catalogue := catalogue w; store := store w;
     dispatched := dispatched w ++ [e]; rpc_calls := rpc_calls w |}.

Definition with_calls (cs : list RpcCall) (w : World) : World :=
  {| catalogue := catalogue w; store := store w;
     dispatched := dispatched w; rpc_calls := rpc_calls w ++ cs |}.

(** ** Computations that read and change the world, or raise *)

Definition M (A : Type) : Type := World -> Result A * World.

Definition ret {A} (a : A) : M A := fun w => (Ok a, w).

Definition raise {A} (e : Exn) : M A := fun w => (Raise e, w).

Definition bind {A B} (m : M A) (k : A -> M B) : M B :=
  fun w =>
    match m w with
    | (Ok a, w') => k a w'
    | (Raise e, w') => (Raise e, w')
    end.

Definition lift {A} (r : Result A) : M A := fun w => (r, w).

Declare Scope gateway_scope.
Delimit Scope gateway_scope with gateway.
Notation "x <~ m ;; k" := (bind m (fun x => k))
  (at level 100, m at next level, right associativity) : gateway_scope.
Notation "m ;;; k" := (bind m (fun _ => k))
  (at level 100, right associativity) : gateway_scope.
Open Scope gateway_scope.

(** [for x in xs: ...] where the body computes the new value of [x]. *)
Fixpoint for_each {A B} (body : A -> M B) (xs : list A) : M (list B) :=
  match xs with
  | [] => ret []
  | x :: xs' =>
      y <~ body x ;;
      ys <~ for_each body xs' ;;
      ret (y :: ys)
  end.

Fixpoint traverse_option {A B} (f : A -> option B) (xs : list A)
  : option (list B) :=
  match xs with
  | [] => Some []
  | x :: xs' =>
      match f x, traverse_option f xs' with
      | Some y, Some ys => Some (y :: ys)
      | _, _ => None
      end
  end.

(** ** The order store (specification, section 4.1) *)

Module OrderStore.

(** Modelled from the spec: the store of [orders.models] is not among the
    source files.  "Order: identity (integer id, generated)"; the detail
    lines get generated ids too, "starting from 1 and incrementing". *)
Fixpoint number_details (next : Z) (details : list OrderLine) : list OrderDetail :=
  match details with
  | [] => []
  | d :: ds =>
      mkOrderDetail next (line_product_id d) (line_price d) (line_quantity d)
        :: number_details (next + 1) ds
  end.

(** Modelled from the spec: the store before any order was created. *)
Definition empty : OrderStore :=
  {| rows := []; next_order_id := 1; next_detail_id := 1; accepts_writes := true |}.

(** Modelled from the spec: "create(details) -> Order: persists a new order
    with its detail lines in one atomic write; returns the order with
    generated ids populated.  Fails with StorageError on write failure." *)
Definition create (details : list OrderLine) (s : OrderStore)
  : Result Order * OrderStore :=
  if accepts_writes s then
    let order := mkOrder (next_order_id s)
                         (number_details (next_detail_id s) details) in
    (Ok order,
     {| rows := rows s ++ [order];
        next_order_id := next_order_id s + 1;
        next_detail_id := next_detail_id s + Z.of_nat (length details);
        accepts_writes := accepts_writes s |})
  else (Raise (StorageError "write failed"), s).

(** Modelled from the spec: the "matching order" of [get], [update] and
    [delete], the row with the given id. *)
Definition lookup (id : Z) (s : OrderStore) : option Order :=
  List.find (fun o => order_id o =? id) (rows s).

(** Modelled from the spec: "get(id) -> Order: fails with NotFound(id) if no
    matching order exists." *)
Definition get (id : Z) (s : OrderStore) : Result Order :=
  match lookup id s with
  | Some o => Ok o
  | None => Raise (NotFound (pretty id))
  end.

(** Modelled from the spec: "count() -> integer: total number of orders." *)
Definition count (s : OrderStore) : Z := Z.of_nat (length (rows s)).

(** Modelled from the spec: the line-item fields of a stored detail line,
    overwritten by those of the given line with the same id, if there is
    one. *)
Definition overwrite (given : list OrderDetail) (d : OrderDetail) : OrderDetail :=
  match List.find (fun g => detail_id g =? detail_id d) given with
  | Some g => mkOrderDetail (detail_id d) (product_id g) (price g) (quantity g)
  | None => d
  end.

Definition replace_order (o : Order) (r : Order) : Order :=
  if order_id r =? order_id o
  then mkOrder (order_id r) (map (overwrite (order_details o)) (order_details r))
  else r.

(** Modelled from the spec: "update(order) -> Order: overwrites line-item
    fields of existing detail lines (by id) for the given order id; does not
    add/remove lines; fails with NotFound if order id absent." *)
Definition update (o : Order) (s : OrderStore) : Result Order * OrderStore :=
  match lookup (order_id o) s with
  | Some r =>
      (Ok (replace_order o r),
       {| rows := map (replace_order o) (rows s);
          next_order_id := next_order_id s;
          next_detail_id := next_detail_id s;
          accepts_writes := accepts_writes s |})
  | None => (Raise (NotFound (pretty (order_id o))), s)
  end.

(** Modelled from the spec: "delete(id) -> void: removal of order and its
    details; no-op error if absent". *)
Definition delete (id : Z) (s : OrderStore) : Result unit * OrderStore :=
  match lookup id s with
  | Some _ =>
      (Ok tt,
       {| rows := List.filter (fun o => negb (order_id o =? id)) (rows s);
          next_order_id := next_order_id s;
          next_detail_id := next_detail_id s;
          accepts_writes := accepts_writes s |})
  | None => (Raise (NotFound (pretty id)), s)
  end.

(** Modelled from the spec: "list(skip, limit) -> [Order]: returns orders
    ordered by creation order, skipping skip and capping at limit [...].
    skip/limit default to 0/50 when unspecified by caller."  The rows are
    kept in creation order; an argument that the caller omits is [None].  The
    specification is silent on a negative skip or limit; here they count as
    zero. *)
Definition list (skip limit : option Z) (s : OrderStore) : Datatypes.list Order :=
  take (Z.to_nat (default 50 limit)) (drop (Z.to_nat (default 0 skip)) (rows s)).

End OrderStore.

(** ** The order service (specification, section 4.2) *)

Module OrdersService.

(** Modelled from the spec: [orders.schemas.OrderSchema] is not among the
    source files; the serialized order is "id + all detail lines with
    serialized decimal prices", with the keys that the event of
    [test_can_create_order] shows. *)
Definition serialize_detail (d : OrderDetail) : OrderDetailDict :=
  {| od_id := detail_id d;
     od_product_id := product_id d;
     od_price := serialize_price (price d);
     od_quantity := quantity d;
     od_product := None;
     od_image := None |}.

(** Modelled from the spec: the "full serialized order (id + all detail
    lines)". *)
Definition serialize_order (o : Order) : OrderDict :=
  {| o_id := order_id o;
     o_order_details := map serialize_detail (order_details o) |}.

(** Modelled from the spec: the way back from the wire, for a submitted
    line and for a line of an order to update: the price becomes a decimal
    again. *)
Definition load_line (d : OrderLineDict) : option OrderLine :=
  p ← parse_price (ld_price d);
  Some (mkOrderLine (ld_product_id d) p (ld_quantity d)).

Definition load_detail (d : OrderDetailDict) : option OrderDetail :=
  p ← parse_price (od_price d);
  Some (mkOrderDetail (od_id d) (od_product_id d) p (od_quantity d)).

(** Modelled from the spec: the caller-facing message "Order with id {id}
    not found"; [pretty] writes the id in decimal. *)
Definition not_found_message (id : Z) : string :=
  "Order with id " +:+ pretty id +:+ " not found".

(** Modelled from the spec: "create_order(details): delegates to store; on
    success, publishes an order_created event carrying the full serialized
    order".  A price that is no decimal cannot be written. *)
Definition create_order (details : list OrderLineDict) : M OrderDict :=
  fun w =>
    match traverse_option load_line details with
    | None => (Raise (StorageError "price is not a decimal"), w)
    | Some lines =>
        match OrderStore.create lines (store w) with
        | (Ok order, s') =>
            let o := serialize_order order in
            (Ok o, with_event (mkEvent "order_created" o) (with_store s' w))
        | (Raise e, s') => (Raise e, with_store s' w)
        end
    end.

(** Modelled from the spec: "get_order(id): fails with
    OrderNotFound("Order with id {id} not found") when absent". *)
Definition get_order (id : Z) : M OrderDict :=
  fun w =>
    match OrderStore.get id (store w) with
    | Ok order => (Ok (serialize_order order), w)
    | Raise _ => (Raise (NotFound (not_found_message id)), w)
    end.

(** Modelled from the spec: "update_order(order): fails OrderNotFound if
    missing." *)
Definition update_order (order : OrderDict) : M OrderDict :=
  fun w =>
    match traverse_option load_detail (o_order_details order) with
    | None => (Raise (StorageError "price is not a decimal"), w)
    | Some details =>
        match OrderStore.update (mkOrder (o_id order) details) (store w) with
        | (Ok updated, s') => (Ok (serialize_order updated), with_store s' w)
        | (Raise _, s') =>
            (Raise (NotFound (not_found_message (o_id order))), with_store s' w)
        end
    end.

(** Modelled from the spec: "delete_order(id): removes if present; no error
    if absent". *)
Definition delete_order (id : Z) : M unit :=
  fun w => (Ok tt, with_store (snd (OrderStore.delete id (store w))) w).

(** Modelled from the spec: "list_orders(skip=0, limit=50), count_orders():
    thin pass-through to store". *)
Definition list_orders (skip limit : option Z) : M (list OrderDict) :=
  fun w =>
    (Ok (map serialize_order (OrderStore.list skip limit (store w))), w).

(** Modelled from the spec: "count_orders(): thin pass-through to store". *)
Definition count_orders : M Z :=
  fun w => (Ok (OrderStore.count (store w)), w).

End OrdersService.

(** ** The product service (specification, section 4.3) *)

Module ProductsService.

(** Modelled from the spec: "get(product_id) -> Product, fails with
    ProductNotFound if absent."  The product service keeps its catalogue
    under the products' ids. *)
Definition get (product_id : string) : M Product :=
  fun w =>
    match catalogue w !! product_id with
    | Some r => (Ok (product_of product_id r), w)
    | None => (Raise (NotFound product_id), w)
    end.

(** Modelled from the spec: "list(ids) -> [Product]: returns only products
    that exist among the requested ids (silently drops unknown ids)". *)
Definition list (ids : Datatypes.list string) : M (Datatypes.list Product) :=
  fun w => (Ok (omap (fun i => product_of i <$> catalogue w !! i) ids), w).

End ProductsService.

(** ** Remote calls *)

(** What a method of a remote service looks like from the gateway. *)
Record OrdersRpc : Type := mkOrdersRpc {
  remote_get_order : Z -> M OrderDict;
  remote_create_order : list OrderLineDict -> M OrderDict;
  remote_list_orders : Z -> Z -> M (list OrderDict);
  remote_count_orders : M Z
}.

Record ProductsRpc : Type := mkProductsRpc {
  remote_get : string -> M Product;
  remote_list : list string -> M (list Product)
}.

Inductive Service : Type := orders_service | products_service.

(** The name and the message under which an exception crosses an RPC. *)
Definition exc_type (e : Exn) : string :=
  match e with
  | NotFound _ => "NotFound"
  | StorageError _ => "StorageError"
  | RemoteError _ _ => "RemoteError"
  | OrderNotFound _ => "OrderNotFound"
  | ProductNotFound _ => "ProductNotFound"
  | ZeroDivisionError => "ZeroDivisionError"
  | ValueError _ => "ValueError"
  | KeyError _ => "KeyError"
  end.

Definition exc_value (e : Exn) : string :=
  match e with
  | NotFound msg | StorageError msg | OrderNotFound msg
  | ProductNotFound msg | ValueError msg | KeyError msg => msg
  | RemoteError _ value => value
  | ZeroDivisionError => "integer division or modulo by zero"
  end.

(** Modelled from the spec: [gateway.exceptions] is not among the source
    files.  "Domain not-found errors cross the service boundary as recognized
    remote errors [...]; all other failures are unrecognized and should
    surface as a generic internal error."  The gateway imports
    [OrderNotFound] and [ProductNotFound] from it (service.py, line 10) and
    expects the order service's error under the first name (lines 100-101). *)
Definition gateway_error (s : Service) (e : Exn) : Exn :=
  match e, s with
  | NotFound msg, orders_service => OrderNotFound msg
  | NotFound msg, products_service => ProductNotFound msg
  | _, _ => RemoteError (exc_type e) (exc_value e)
  end.

(** An error that the gateway recognizes as a domain error. *)
Definition recognized (e : Exn) : bool :=
  match e with
  | OrderNotFound _ | ProductNotFound _ => true
  | _ => false
  end.

(** A call through [RpcProxy]: the call is made (and recorded), the remote
    method runs, and an exception it raises arrives translated. *)
Definition remote_call {A} (translate : Exn -> Exn) (c : RpcCall) (method : M A)
  : M A :=
  fun w =>
    match method (with_calls [c] w) with
    | (Ok a, w') => (Ok a, w')
    | (Raise e, w') => (Raise (translate e), w')
    end.

(** [orders_rpc = RpcProxy('orders')] and [products_rpc =
    RpcProxy('products')] of [GatewayService]. *)
Definition gateway_orders_rpc : OrdersRpc :=
  {| remote_get_order := fun order_id =>
       remote_call (gateway_error orders_service) (orders_get_order order_id)
         (OrdersService.get_order order_id);
     remote_create_order := fun details =>
       remote_call (gateway_error orders_service) (orders_create_order details)
         (OrdersService.create_order details);
     remote_list_orders := fun skip limit =>
       remote_call (gateway_error orders_service) (orders_list_orders skip limit)
         (OrdersService.list_orders (Some skip) (Some limit));
     remote_count_orders :=
       remote_call (gateway_error orders_service) orders_count_orders
         OrdersService.count_orders |}.

Definition gateway_products_rpc : ProductsRpc :=
  {| remote_get := fun product_id =>
       remote_call (gateway_error products_service) (products_get product_id)
         (ProductsService.get product_id);
     remote_list := fun product_ids =>
       remote_call (gateway_error products_service) (products_list product_ids)
         (ProductsService.list product_ids) |}.

(** The plain client of the interface tests (the [orders_rpc] fixture): no
    exception is registered, so every remote failure is a [RemoteError]. *)
Definition plain_error (e : Exn) : Exn := RemoteError (exc_type e) (exc_value e).

Definition test_client {A} (method : M A) : M A :=
  fun w =>
    match method w with
    | (Ok a, w') => (Ok a, w')
    | (Raise e, w') => (Raise (plain_error e), w')
    end.

(** ** Python helpers of the gateway *)

(** The white space that [int] skips before and after a literal: tab, line
    feed, vertical tab, form feed, carriage return and the blank.  (The
    separators 28 to 31, which [str.strip] removes, are not among them.) *)
Definition is_space (c : ascii) : bool :=
  let n := Z.of_N (N_of_ascii c) in
  ((9 <=? n) && (n <=? 13)) || (n =? 32).

Fixpoint lstrip (s : list ascii) : list ascii :=
  match s with
  | c :: s' => if is_space c then lstrip s' else s
  | [] => []
  end.

Definition strip (s : list ascii) : list ascii :=
  rev (lstrip (rev (lstrip s))).

(** The digits of an integer literal: at least one digit, and single
    underscores only between digits. *)
Fixpoint int_digits (acc : Z) (after_digit : bool) (s : list ascii) : option Z :=
  match s with
  | [] => if after_digit then Some acc else None
  | c :: s' =>
      if Ascii.eqb c "_"
      then (if after_digit then int_digits acc false s' else None)
      else match digit_value c with
           | Some d => int_digits (10 * acc + d) true s'
           | None => None
           end
  end.

(** A [str] all of whose characters are ASCII: no byte of its UTF-8 form is
    above 127. *)
Definition is_ascii (s : string) : bool :=
  forallb (fun c => (N_of_ascii c <? 128)%N) (list_ascii_of_string s).

(** [int] reads a [str] that has a character outside ASCII after rewriting
    it with the Unicode database of the interpreter: white space of any
    script becomes a blank, a decimal digit of any script becomes its ASCII
    digit, and the text is cut, with a question mark, at the first character
    that is neither.  Which characters the database knows changes from one
    version of Python to the next, so the database is a parameter of the
    model: [to_ascii] is that rewriting. *)
Record UnicodeData : Type := mkUnicodeData { to_ascii : string -> string }.

(** The text that [int] parses: an ASCII [str] as it stands, any other one
    rewritten. *)
Definition ascii_form (unicode_data : UnicodeData) (s : string) : string :=
  if is_ascii s then s else to_ascii unicode_data s.

(** [int(s)] for a string [s]: surrounding white space, an optional sign and
    decimal digits; [ValueError] otherwise. *)
Definition py_int (unicode_data : UnicodeData) (s : string) : Result Z :=
  let parsed :=
    match strip (list_ascii_of_string (ascii_form unicode_data s)) with
    | "-"%char :: s' => Z.opp <$> int_digits 0 false s'
    | "+"%char :: s' => int_digits 0 false s'
    | s' => int_digits 0 false s'
    end in
  match parsed with
  | Some n => Ok n
  | None => Raise (ValueError s)
  end.

(** [d[key]] on a dictionary of settings. *)
Definition getitem (d : gmap string string) (key : string) : Result string :=
  match d !! key with
  | Some v => Ok v
  | None => Raise (KeyError key)
  end.

(** The part of a werkzeug request that the gateway reads: the query
    arguments, a multi-dictionary whose [get] returns the first value of a
    key. *)
Record Request : Type := mkRequest { args : list (string * string) }.

Fixpoint args_get (a : list (string * string)) (key : string) : option string :=
  match a with
  | [] => None
  | (k, v) :: a' => if String.eqb k key then Some v else args_get a' key
  end.

(** [int(request.args.get(key, default))] with an integer [default]. *)
Definition int_arg (unicode_data : UnicodeData) (request : Request) (key : string)
    (default : Z) : Result Z :=
  match args_get (args request) key with
  | Some v => py_int unicode_data v
  | None => Ok default
  end.

Record Response (A : Type) : Type := mkResponse {
  status : Z;
  mimetype : string;
  body : A
}.
Arguments mkResponse {A} status mimetype body.
Arguments status {A} r.
Arguments mimetype {A} r.
Arguments body {A} r.

(** The dictionary that [_list_orders] builds. *)
Record OrdersPage : Type := mkOrdersPage {
  total_orders : Z;
  total_pages : Z;
  page : Z;
  orders : list OrderDict
}.

(** Modelled from the spec: [gateway.schemas.CreateOrderSchema] is not among
    the source files; its [dump] "re-serializes the input through the
    canonical schema (ensuring numeric/decimal normalization)". *)
Definition dump_line (d : OrderLine) : OrderLineDict :=
  {| ld_product_id := line_product_id d;
     ld_price := serialize_price (line_price d);
     ld_quantity := line_quantity d |}.

(** ** The gateway *)

Module GatewayService.

(** The image that [fetch_orders] gives every line. *)
Definition placeholder_image : string := "https://picsum.photos/300".

(** [item['product'] = product; item['image'] = image] *)
Definition enrich (item : OrderDetailDict) (product : Product) (image : string)
  : OrderDetailDict :=
  {| od_id := od_id item;
     od_product_id := od_product_id item;
     od_price := od_price item;
     od_quantity := od_quantity item;
     od_product := Some product;
     od_image := Some image |}.

Definition with_details (order : OrderDict) (items : list OrderDetailDict)
  : OrderDict :=
  {| o_id := o_id order; o_order_details := items |}.

Section Methods.

Variable orders_rpc : OrdersRpc.
Variable products_rpc : ProductsRpc.
(** [nameko.config] *)
Variable config : gmap string string.
(** The Unicode database of the interpreter that runs the gateway. *)
Variable unicode_data : UnicodeData.

(** [_get_order(self, order_id)], lines 98-114. *)
Definition _get_order (order_id : Z) : M OrderDict :=
  order <~ remote_get_order orders_rpc order_id ;;
  image_root <~ lift (getitem config "PRODUCT_IMAGE_ROOT") ;;
  items <~ for_each
    (fun item =>
       let product_id := od_product_id item in
       product <~ remote_get products_rpc product_id ;;
       ret (enrich item product (image_root +:+ "/" +:+ product_id +:+ ".jpg")))
    (o_order_details order) ;;
  ret (with_details order items).

(** The set of product ids that [fetch_orders] collects, lines 142-145. *)
Definition collect_product_ids (orders : list OrderDict) : gset string :=
  foldl
    (fun ids order =>
       foldl (fun ids item => ids ∪ {[ od_product_id item ]})
             ids (o_order_details order))
    ∅ orders.

(** [fetch_orders(self, skip, limit)], lines 140-155. *)
Definition fetch_orders (skip limit : Z) : M (list OrderDict) :=
  orders <~ remote_list_orders orders_rpc skip limit ;;
  let product_ids := collect_product_ids orders in
  products <~ remote_list products_rpc (elements product_ids) ;;
  for_each
    (fun order =>
       items <~ for_each
         (fun item =>
            let product_id := od_product_id item in
            product <~ remote_get products_rpc product_id ;;
            ret (enrich item product placeholder_image))
         (o_order_details order) ;;
       ret (with_details order items))
    orders.

(** [calculate_total_orders(self)], lines 157-158. *)
Definition calculate_total_orders : M Z :=
  remote_count_orders orders_rpc.

(** [calculate_total_pages(self, total_orders, limit)], lines 160-161. *)
Definition calculate_total_pages (total_orders limit : Z) : Result Z :=
  py_floordiv (total_orders + limit - 1) limit.

(** [_list_orders(self, page, limit)], lines 125-138. *)
Definition _list_orders (page limit : Z) : M OrdersPage :=
  let skip := (page - 1) * limit in
  orders <~ fetch_orders skip limit ;;
  total_orders <~ calculate_total_orders ;;
  total_pages <~ lift (calculate_total_pages total_orders limit) ;;
  ret {| total_orders := total_orders;
         total_pages := total_pages;
         page := page;
         orders := orders |}.

(** [list_orders(self, request)], lines 117-122.  The body of the response is
    kept as the dictionary, before [json.dumps]. *)
Definition list_orders (request : Request) : M (Response OrdersPage) :=
  page <~ lift (int_arg unicode_data request "page" 1) ;;
  limit <~ lift (int_arg unicode_data request "limit" 50) ;;
  orders <~ _list_orders page limit ;;
  ret (mkResponse 200 "application/json" orders).

(** The loop of [_create_order], lines 214-218. *)
Fixpoint check_product_ids (items : list OrderLine) (valid_product_ids : list string)
  : M unit :=
  match items with
  | [] => ret tt
  | item :: items' =>
      if bool_decide (line_product_id item ∈ valid_product_ids)
      then check_product_ids items' valid_product_ids
      else raise (ProductNotFound ("Product Id " +:+ line_product_id item))
  end.

(** [_create_order(self, order_data)], lines 210-227; [order_data] is given by
    its ['order_details']. *)
Definition _create_order (order_details : list OrderLine) : M Z :=
  let product_ids := map line_product_id order_details in
  listed <~ remote_list products_rpc product_ids ;;
  let valid_product_ids := map p_id listed in
  check_product_ids order_details valid_product_ids ;;;
  let serialized_data := map dump_line order_details in
  result <~ remote_create_order orders_rpc serialized_data ;;
  ret (o_id result).

End Methods.

End GatewayService.

(** The gateway as deployed: its two proxies reach the two services. *)
Definition gateway_get_order := GatewayService._get_order gateway_orders_rpc gateway_products_rpc.
Definition gateway_fetch_orders := GatewayService.fetch_orders gateway_orders_rpc gateway_products_rpc.
Definition gateway_list_orders_page := GatewayService._list_orders gateway_orders_rpc gateway_products_rpc.
Definition gateway_list_orders := GatewayService.list_orders gateway_orders_rpc gateway_products_rpc.
Definition gateway_create_order := GatewayService._create_order gateway_orders_rpc gateway_products_rpc.

(** ** Notions used in the statements *)

(** [n] is the ceiling of the exact quotient [a / b], for a positive [b]:
    the least integer that is not below it. *)
Definition is_ceiling_of_quotient (a b n : Z) : Prop :=
  a <= n * b /\ (n - 1) * b < a.

(** The invariant of the order store: the rows are in ascending order of
    their ids, and every id has been handed out already. *)
Definition store_wf (s : OrderStore) : Prop :=
  StronglySorted Z.lt (map order_id (rows s))
  /\ Forall (fun o => order_id o < next_order_id s) (rows s).

(** The stores that the operations of section 4.1 can produce, starting from
    the empty one; a write may fail at any time. *)
Inductive reachable : OrderStore -> Prop :=
  | reachable_empty : reachable OrderStore.empty
  | reachable_create s details :
      reachable s -> reachable (snd (OrderStore.create details s))
  | reachable_update s o :
      reachable s -> reachable (snd (OrderStore.update o s))
  | reachable_delete s id :
      reachable s -> reachable (snd (OrderStore.delete id s))
  | reachable_writes s b :
      reachable s ->
      reachable {| rows := rows s; next_order_id := next_order_id s;
                   next_detail_id := next_detail_id s; accepts_writes := b |}.

(** The requests that the order service answers, and the error (if any) and
    the world that answering one leaves. *)
Inductive OrdersRequest : Type :=
  | request_create_order (details : list OrderLineDict)
  | request_get_order (id : Z)
  | request_update_order (order : OrderDict)
  | request_delete_order (id : Z)
  | request_list_orders (skip limit : option Z)
  | request_count_orders.

Definition outcome {A} (r : Result A * World) : option Exn * World :=
  match r with
  | (Ok _, w) => (None, w)
  | (Raise e, w) => (Some e, w)
  end.

Definition answer (r : OrdersRequest) (w : World) : option Exn * World :=
  match r with
  | request_create_order details => outcome (OrdersService.create_order details w)
  | request_get_order id => outcome (OrdersService.get_order id w)
  | request_update_order order => outcome (OrdersService.update_order order w)
  | request_delete_order id => outcome (OrdersService.delete_order id w)
  | request_list_orders skip limit => outcome (OrdersService.list_orders skip limit w)
  | request_count_orders => outcome (OrdersService.count_orders w)
  end.

(** The ids [first], [first + 1], ... of [n] consecutive rows. *)
Fixpoint consecutive (first : Z) (n : nat) : list Z :=
  match n with
  | O => []
  | S n' => first :: consecutive (first + 1) n'
  end.

(** A product id for which the catalogue has no product. *)
Definition missing (cat : gmap string ProductRow) (product_id : string) : bool :=
  bool_decide (cat !! product_id = None).

(** What the single-order view and the list view make of a detail line. *)
Definition image_url (image_root product_id : string) : string :=
  image_root +:+ "/" +:+ product_id +:+ ".jpg".

Definition enriched (cat : gmap string ProductRow) (image : string -> string)
    (item item' : OrderDetailDict) : Prop :=
  exists r, cat !! od_product_id item = Some r
    /\ item' = GatewayService.enrich item (product_of (od_product_id item) r)
                 (image (od_product_id item)).

Definition enriched_order (cat : gmap string ProductRow) (image : string -> string)
    (order order' : OrderDict) : Prop :=
  o_id order' = o_id order
  /\ Forall2 (enriched cat image) (o_order_details order) (o_order_details order').

(** The product ids of the lines of a list of orders, line by line. *)
Definition line_product_ids (orders : list OrderDict) : list string :=
  concat (map (fun o => map od_product_id (o_order_details o)) orders).

(** Following the spec's words: the list view of an implementation that
    "skips the validation fetch", but "still enriches per-item": it fetches
    the page of orders and, for every line item, fetches the product by id
    and attaches the placeholder image. *)
Definition fetch_orders_without_batch (orders_rpc : OrdersRpc)
    (products_rpc : ProductsRpc) (skip limit : Z) : M (list OrderDict) :=
  orders <~ remote_list_orders orders_rpc skip limit ;;
  for_each
    (fun order =>
       items <~ for_each
         (fun item =>
            product <~ remote_get products_rpc (od_product_id item) ;;
            ret (GatewayService.enrich item product
                   GatewayService.placeholder_image))
         (o_order_details order) ;;
       ret (GatewayService.with_details order items))
    orders.

(** A string of decimal digits. *)
Fixpoint all_digits (s : string) : bool :=
  match s with
  | "" => true
  | String c s' => bool_decide (is_Some (digit_value c)) && all_digits s'
  end.

(** The store of [test_count_orders_with_extra_data]: six orders without
    detail lines. *)
Definition six_orders : OrderStore :=
  {| rows := map (fun id => mkOrder id []) [1; 2; 3; 4; 5; 6];
     next_order_id := 7; next_detail_id := 1; accepts_writes := true |}.

(** The submission of [test_can_create_order] and the order that its event
    carries. *)
Definition odyssey_and_enigma : list OrderLineDict :=
  [ mkOrderLineDict "the_odyssey" "99.99" 1;
    mkOrderLineDict "the_enigma" "5.99" 8 ].

Definition first_order : OrderDict :=
  {| o_id := 1;
     o_order_details :=
       [ mkOrderDetailDict 1 "the_odyssey" "99.99" 1 None None;
         mkOrderDetailDict 2 "the_enigma" "5.99" 8 None None ] |}.

(** What enriching the lines of an order comes to, given the catalogue: the
    result, and the calls made to the product service on the way. *)
Fixpoint eval_lines (cat : gmap string ProductRow) (image : string -> string)
    (items : list OrderDetailDict) : Result (list OrderDetailDict) * list RpcCall :=
  match items with
  | [] => (Ok [], [])
  | item :: rest =>
      let pid := od_product_id item in
      match cat !! pid with
      | None => (Raise (ProductNotFound pid), [products_get pid])
      | Some r =>
          let '(res, cs) := eval_lines cat image rest in
          (match res with
           | Ok rest' =>
               Ok (GatewayService.enrich item (product_of pid r) (image pid) :: rest')
           | Raise e => Raise e
           end, products_get pid :: cs)
      end
  end.

Fixpoint eval_orders (cat : gmap string ProductRow) (image : string -> string)
    (orders : list OrderDict) : Result (list OrderDict) * list RpcCall :=
  match orders with
  | [] => (Ok [], [])
  | order :: rest =>
      match eval_lines cat image (o_order_details order) with
      | (Raise e, cs) => (Raise e, cs)
      | (Ok items, cs) =>
          let '(res, cs') := eval_orders cat image rest in
          (match res with
           | Ok rest' => Ok (GatewayService.with_details order items :: rest')
           | Raise e => Raise e
           end, cs ++ cs')
      end
  end.

(** The body of the loops over the lines, in [_get_order] and in
    [fetch_orders]. *)
Definition enrich_line (products_rpc : ProductsRpc) (image : string -> string)
    (item : OrderDetailDict) : M OrderDetailDict :=
  product <~ remote_get products_rpc (od_product_id item) ;;
  ret (GatewayService.enrich item product (image (od_product_id item))).

(** The page of serialized orders that the order service returns. *)
Definition page_of (skip limit : Z) (w : World) : list OrderDict :=
  map OrdersService.serialize_order
      (OrderStore.list (Some skip) (Some limit) (store w)).

(** A catalogue with two products, and a store with one order for them. *)
Definition sample_catalogue : gmap string ProductRow :=
  <["the_odyssey" := mkProductRow "The Odyssey" 101 5 10]>
    (<["the_enigma" := mkProductRow "The Enigma" 4 200 3]> ∅).

Definition sample_order : Order :=
  mkOrder 1 [ mkOrderDetail 1 "the_odyssey" (mkDecimal 9999 2) 1;
              mkOrderDetail 2 "the_enigma" (mkDecimal 599 2) 8 ].

Definition sample_store : OrderStore :=
  {| rows := [sample_order]; next_order_id := 2; next_detail_id := 3;
     accepts_writes := true |}.

Definition sample_world : World := mkWorld sample_catalogue sample_store [] [].

Definition sample_config : gmap string string :=
  <["PRODUCT_IMAGE_ROOT" := "http://www.example.com/airship/images"]> ∅.

(** A submission whose second and third lines name unknown products. *)
Definition sample_submission : list OrderLine :=
  [ mkOrderLine "the_odyssey" (mkDecimal 9999 2) 1;
    mkOrderLine "the_unknown" (mkDecimal 100 2) 1;
    mkOrderLine "another_unknown" (mkDecimal 100 2) 1 ].

(** A call to the order service's [list_orders]. *)
Definition is_list_orders_call (c : RpcCall) : bool :=
  match c with
  | orders_list_orders _ _ => true
  | _ => false
  end.

(** What the HTTP entry point [list_orders] makes of a page. *)
Definition json_response {A} (r : Result A * World) : Result (Response A) * World :=
  match r with
  | (Ok a, w) => (Ok (mkResponse 200 "application/json" a), w)
  | (Raise e, w) => (Raise e, w)
  end.

(** The orders that submissions create when they reach the order service one
    after the other; a submission that fails creates none. *)
Fixpoint create_orders (submissions : list (list OrderLineDict)) (w : World)
  : list OrderDict * World :=
  match submissions with
  | [] => ([], w)
  | details :: rest =>
      match OrdersService.create_order details w with
      | (Ok order, w') =>
          let '(created, w'') := create_orders rest w' in (order :: created, w'')
      | (Raise _, w') => create_orders rest w'
      end
  end.

(** The ids of the detail lines of a list of orders, in order. *)
Definition detail_ids (created : list OrderDict) : list Z :=
  concat (map (fun o => map od_id (o_order_details o)) created).

(** A decidable statement about given data, settled by evaluating it. *)
Ltac by_computation := apply (bool_decide_unpack _); by vm_compute.

(** The second world differs from the first by calls made, and in nothing
    else: the catalogue, the orders and the events are the same. *)
Definition only_calls (w w' : World) : Prop :=
  catalogue w' = catalogue w
  /\ store w' = store w
  /\ dispatched w' = dispatched w
  /\ exists cs : list RpcCall, rpc_calls w' = rpc_calls w ++ cs.
(** The catalogue without the second product of the sample order. *)
Definition odyssey_only : World :=
  mkWorld (delete "the_enigma" sample_catalogue) sample_store [] [].

(** A fetch of one product. *)
Definition is_products_get (c : RpcCall) : bool :=
  match c with
  | products_get _ => true
  | _ => false
  end.

(** Some line of some order names a product that the catalogue lacks. *)
Definition some_product_missing (cat : gmap string ProductRow)
    (orders : list OrderDict) : Prop :=
  Exists (fun order =>
            Exists (fun item => cat !! od_product_id item = None)
                   (o_order_details order)) orders.

(** The ids of the orders that [_list_orders] shows on a page; none if it
    fails. *)
Definition listed_ids (page limit : Z) (w : World) : list Z :=
  match fst (gateway_list_orders_page page limit w) with
  | Ok envelope => map o_id (orders envelope)
  | Raise _ => []
  end.

(** Every line of every stored order names a product of the catalogue. *)
Definition all_lines_have_products (w : World) : Prop :=
  Forall (fun o => Forall (fun d => is_Some (catalogue w !! product_id d))
                          (order_details o))
         (rows (store w)).

(** A stored detail line that holds what a submitted line says. *)
Definition holds_line (d : OrderLine) (row : OrderDetail) : Prop :=
  product_id row = line_product_id d
  /\ price row = line_price d
  /\ quantity row = line_quantity d.

(** A line of the single-order view that shows a submitted line: its
    product id, quantity and price (serialized), the product of the
    catalogue and the image under the image root. *)
Definition shows_line (cat : gmap string ProductRow) (image_root : string)
    (d : OrderLine) (item : OrderDetailDict) : Prop :=
  od_product_id item = line_product_id d
  /\ od_quantity item = line_quantity d
  /\ od_price item = serialize_price (line_price d)
  /\ (exists r, cat !! line_product_id d = Some r
        /\ od_product item = Some (product_of (line_product_id d) r))
  /\ od_image item = Some (image_url image_root (line_product_id d)).

(** Two lines of a view that agree in everything but, possibly, the image. *)
Definition same_but_image (a b : OrderDetailDict) : Prop :=
  od_id a = od_id b
  /\ od_product_id a = od_product_id b
  /\ od_price a = od_price b
  /\ od_quantity a = od_quantity b
  /\ od_product a = od_product b.

(** A character that can occur in a string that [int] accepts. *)
Definition is_int_char (c : ascii) : bool :=
  bool_decide (is_Some (digit_value c))
  || Ascii.eqb c "_" || Ascii.eqb c "+" || Ascii.eqb c "-" || is_space c.

(** A text that [int] cannot read: it is empty, or has a character that is
    no digit, sign, underscore or white space (as in "abc" or "1.5"). *)
Definition not_an_integer (text : string) : Prop :=
  text = ""
  \/ Exists (fun c => is_int_char c = false) (list_ascii_of_string text).

(** The query argument [key] of a request reads as [n]: its text is the
    decimal form of [n] (Python's [str(n)]), or the request has no such
    argument and [n] is the default. *)
Definition reads_as (request : Request) (key : string) (default n : Z) : Prop :=
  args_get (args request) key = Some (pretty n)
  \/ (args_get (args request) key = None /\ n = default).

(** A line of the single-order view that shows a stored detail line: the
    four fields of the line itself (the price serialized), under ['product']
    the product that the catalogue has under the line's product id, and
    under ['image'] the text ['{image_root}/{product_id}.jpg']. *)
Definition shows_detail (cat : gmap string ProductRow) (image_root : string)
    (d : OrderDetail) (item : OrderDetailDict) : Prop :=
  od_id item = detail_id d
  /\ od_product_id item = product_id d
  /\ od_price item = serialize_price (price d)
  /\ od_quantity item = quantity d
  /\ (exists r, cat !! product_id d = Some r
        /\ od_product item = Some (product_of (product_id d) r))
  /\ od_image item = Some (image_root +:+ "/" +:+ product_id d +:+ ".jpg").

(** A small Unicode database, for examples: outside ASCII it knows the
    no-break space (U+00A0, in UTF-8 the bytes 194 160) and the
    Arabic-Indic digits (U+0660 to U+0669, the bytes 217 160 to 217 169). *)
Fixpoint sample_to_ascii (s : list ascii) : list ascii :=
  match s with
  | [] => []
  | c :: s' =>
      let n := N_of_ascii c in
      if (n <? 128)%N then c :: sample_to_ascii s'
      else match s' with
           | d :: s'' =>
               let m := N_of_ascii d in
               if (n =? 194)%N && (m =? 160)%N
               then " "%char :: sample_to_ascii s''
               else if (n =? 217)%N && (160 <=? m)%N && (m <=? 169)%N
                    then ascii_of_N (m - 112) :: sample_to_ascii s''
                    else ["?"%char]
           | [] => ["?"%char]
           end
  end.

Definition sample_unicode_data : UnicodeData :=
  {| to_ascii := fun s =>
       string_of_list_ascii (sample_to_ascii (list_ascii_of_string s)) |}.

(** The texts [chr(28) + '0'], [chr(160) + '0'] (a no-break space before the
    zero) and [chr(1635)] (the Arabic-Indic digit three). *)
Definition separator_zero : string := String (ascii_of_N 28) "0".
Definition no_break_space_zero : string :=
  String (ascii_of_N 194) (String (ascii_of_N 160) "0").
Definition arabic_indic_three : string :=
  String (ascii_of_N 217) (String (ascii_of_N 163) "").

(** ** The entry points for products and for posting and getting an order *)

(** What [schema.loads(text).data] comes to, for a strict schema: the loaded
    data, a [ValidationError] (the data is invalid), or a [ValueError] (the
    text is no JSON). *)
Inductive Loaded (A : Type) : Type :=
  | Data (data : A)
  | Invalid (messages : string)
  | Malformed (exc : string).
Arguments Data {A} data.
Arguments Invalid {A} messages.
Arguments Malformed {A} exc.

(** The exceptions that leave an entry point: the two that the entry points
    for posting raise or let through themselves, and every other one. *)
Inductive HttpExn : Type :=
  | BadRequest (msg : string)
  | ValidationError (messages : string)
  | Other (e : Exn).

Inductive HttpResult (A : Type) : Type :=
  | Responds (a : A)
  | Fails (e : HttpExn).
Arguments Responds {A} a.
Arguments Fails {A} e.

(** The body [{'id': id}] of the responses to a post, before [json.dumps]. *)
Record Created (A : Type) : Type := mkCreated { created_id : A }.
Arguments mkCreated {A} created_id.
Arguments created_id {A} c.

(** The two methods of the product service that change its catalogue, seen
    from the gateway. *)
Record ProductsWriteRpc : Type := mkProductsWriteRpc {
  remote_create : Product -> M Product;
  remote_delete : string -> M bool
}.

Definition row_of (p : Product) : ProductRow :=
  mkProductRow (p_title p) (p_passenger_capacity p) (p_maximum_speed p)
               (p_in_stock p).

Definition with_catalogue (cat : gmap string ProductRow) (w : World) : World :=
  {| catalogue := cat; store := store w;
     dispatched := dispatched w; rpc_calls := rpc_calls w |}.

Module ProductsWrites.

(** Modelled from the spec: "create(data) -> Product" of the product
    service, which keeps the product under its id. *)
Definition create (data : Product) : M Product :=
  fun w => (Ok data, with_catalogue (<[p_id data := row_of data]> (catalogue w)) w).

(** Modelled from the spec: "delete(id) -> bool (true if deleted, false if
    absent)". *)
Definition delete (product_id : string) : M bool :=
  fun w =>
    match catalogue w !! product_id with
    | Some _ => (Ok true, with_catalogue (base.delete product_id (catalogue w)) w)
    | None => (Ok false, w)
    end.

End ProductsWrites.

(** An exception of a remote method, as the gateway receives it. *)
Definition translated {A} (translate : Exn -> Exn) (method : M A) : M A :=
  fun w =>
    match method w with
    | (Ok a, w') => (Ok a, w')
    | (Raise e, w') => (Raise (translate e), w')
    end.

(** [products_rpc.create] and [products_rpc.delete] of the deployed gateway.
    (The log of calls in [World] has entries for the other methods only.) *)
Definition gateway_products_writes : ProductsWriteRpc :=
  {| remote_create := fun data =>
       translated (gateway_error products_service) (ProductsWrites.create data);
     remote_delete := fun product_id =>
       translated (gateway_error products_service)
         (ProductsWrites.delete product_id) |}.

Module GatewayEntrypoints.

Section Methods.

Variable orders_rpc : OrdersRpc.
Variable products_rpc : ProductsRpc.
Variable products_rpc_writes : ProductsWriteRpc.
(** [nameko.config] *)
Variable config : gmap string string.
(** [ProductSchema().dumps(product).data], [ProductSchema(strict=True)
    .loads(text).data], [GetOrderSchema().dumps(order).data] and
    [CreateOrderSchema(strict=True).loads(text).data] of [gateway.schemas]. *)
Variable ProductSchema_dumps : Product -> string.
Variable ProductSchema_loads : string -> Loaded Product.
Variable GetOrderSchema_dumps : OrderDict -> string.
Variable CreateOrderSchema_loads : string -> Loaded (list OrderLine).

(** [get_product(self, request, product_id)], lines 23-34. *)
Definition get_product (product_id : string) : M (Response string) :=
  product <~ remote_get products_rpc product_id ;;
  ret (mkResponse 200 "application/json" (ProductSchema_dumps product)).

(** [create_product(self, request)], lines 36-74; [request] is given by its
    body, [request.get_data(as_text=True)]. *)
Definition create_product (data : string)
  : World -> HttpResult (Response (Created string)) * World :=
  fun w =>
    match ProductSchema_loads data with
    | Malformed exc => (Fails (BadRequest ("Invalid json: " +:+ exc)), w)
    | Invalid messages => (Fails (ValidationError messages), w)
    | Data product_data =>
        match remote_create products_rpc_writes product_data w with
        | (Ok _, w') =>
            (Responds (mkResponse 200 "application/json"
                         (mkCreated (p_id product_data))), w')
        | (Raise e, w') => (Fails (Other e), w')
        end
    end.

(** [delete_product(self, request, product_id)], lines 76-83. *)
Definition delete_product (product_id : string) : M (Response string) :=
  deleted <~ remote_delete products_rpc_writes product_id ;;
  if negb deleted
  then ret (mkResponse 404 "text/plain" "")
  else ret (mkResponse 204 "text/plain" "").

(** [get_order(self, request, order_id)], lines 85-96. *)
Definition get_order (order_id : Z) : M (Response string) :=
  order <~ GatewayService._get_order orders_rpc products_rpc config order_id ;;
  ret (mkResponse 200 "application/json" (GetOrderSchema_dumps order)).

(** [create_order(self, request)], lines 164-208; [request] is given by its
    body. *)
Definition create_order (data : string)
  : World -> HttpResult (Response (Created Z)) * World :=
  fun w =>
    match CreateOrderSchema_loads data with
    | Malformed exc => (Fails (BadRequest ("Invalid json: " +:+ exc)), w)
    | Invalid messages => (Fails (ValidationError messages), w)
    | Data order_data =>
        match GatewayService._create_order orders_rpc products_rpc order_data w with
        | (Ok id_, w') =>
            (Responds (mkResponse 200 "application/json" (mkCreated id_)), w')
        | (Raise e, w') => (Fails (Other e), w')
        end
    end.

End Methods.

End GatewayEntrypoints.

(** The detail lines of every stored order have ids of their own. *)
Definition details_wf (s : OrderStore) : Prop :=
  Forall (fun o => NoDup (map detail_id (order_details o))) (rows s).

(** A line of a payload with another quantity, and the stored line that it
    asks for. *)
Definition with_quantity (f : Z -> Z) (item : OrderDetailDict) : OrderDetailDict :=
  {| od_id := od_id item; od_product_id := od_product_id item;
     od_price := od_price item; od_quantity := f (od_quantity item);
     od_product := od_product item; od_image := od_image item |}.

Definition set_quantity (f : Z -> Z) (d : OrderDetail) : OrderDetail :=
  mkOrderDetail (detail_id d) (product_id d) (price d) (f (quantity d)).

(** The payload of [test_can_update_order]: the serialized order, with every
    quantity changed by [f]. *)
Definition update_payload (f : Z -> Z) (o : Order) : OrderDict :=
  {| o_id := order_id o;
     o_order_details :=
       map (with_quantity f) (map OrdersService.serialize_detail (order_details o)) |}.

(** * Theorems *)

(** ** Pagination arithmetic *)

Lemma floordiv_ok (a b : Z) : b <> 0 -> py_floordiv a b = Ok (a / b).
Proof.
  intros Hb. unfold py_floordiv.
  destruct (Z.eqb_spec b 0) as [->|_]; [contradiction | reflexivity].
Qed.

Lemma ceiling_by_floor (a b : Z) :
  0 < b -> (a + b - 1) / b = - ((- a) / b).
Proof.
  intros Hb.
  pose proof (Z.div_mod (a + b - 1) b ltac:(lia)) as H1.
  pose proof (Z.mod_pos_bound (a + b - 1) b Hb) as H2.
  pose proof (Z.div_mod (- a) b ltac:(lia)) as H3.
  pose proof (Z.mod_pos_bound (- a) b Hb) as H4.
  nia.
Qed.

Lemma ceiling_of_quotient_div (a b : Z) :
  0 < b -> is_ceiling_of_quotient a b ((a + b - 1) / b).
Proof.
  intros Hb. unfold is_ceiling_of_quotient.
  pose proof (Z.div_mod (a + b - 1) b ltac:(lia)) as H1.
  pose proof (Z.mod_pos_bound (a + b - 1) b Hb) as H2.
  nia.
Qed.

Lemma Qceiling_quotient (a b : Z) :
  0 < b -> Qceiling (inject_Z a / inject_Z b) = - ((- a) / b).
Proof.
  intros Hb. unfold Qceiling. f_equal.
  rewrite Zdiv_Qdiv. apply Qfloor_comp.
  rewrite inject_Z_opp. unfold Qdiv. ring.
Qed.

(** C1.  For [total_orders >= 0] and [limit > 0],
    [calculate_total_pages(total_orders, limit)] returns the ceiling of
    [total_orders / limit]: the least integer [n] with
    [total_orders <= n * limit], which is also the ceiling of the quotient
    taken in the rationals.  For 6 orders and a limit of 5 this is 2. *)
Theorem calculate_total_pages_is_ceiling :
  (forall total_orders limit : Z,
      0 <= total_orders -> 0 < limit ->
      exists n,
        GatewayService.calculate_total_pages total_orders limit = Ok n
        /\ is_ceiling_of_quotient total_orders limit n
        /\ n = Qceiling (inject_Z total_orders / inject_Z limit))
  /\ GatewayService.calculate_total_pages 6 5 = Ok 2.
Proof.
  split; [|reflexivity].
  intros total_orders limit _ Hlimit.
  exists ((total_orders + limit - 1) / limit). split; [|split].
  - unfold GatewayService.calculate_total_pages. apply floordiv_ok. lia.
  - by apply ceiling_of_quotient_div.
  - rewrite Qceiling_quotient by done. by apply ceiling_by_floor.
Qed.

Lemma calculate_total_pages_is_ceiling_witness :
  0 <= 6 /\ 0 < 5
  /\ exists n,
       GatewayService.calculate_total_pages 6 5 = Ok n
       /\ is_ceiling_of_quotient 6 5 n
       /\ n = Qceiling (inject_Z 6 / inject_Z 5).
Proof.
  split; [lia|]. split; [lia|].
  apply (proj1 calculate_total_pages_is_ceiling 6 5); lia.
Defined.

(** ** Decimal literals: parsing undoes serializing *)

Lemma app_cons (c : ascii) (s t : string) :
  String c s +:+ t = String c (s +:+ t).
Proof. reflexivity. Qed.

Lemma app_empty_r (s : string) : s +:+ "" = s.
Proof. induction s as [|c s IH]; [done|]. by rewrite app_cons, IH. Qed.

Lemma app_assoc_string (a b c : string) : (a +:+ b) +:+ c = a +:+ (b +:+ c).
Proof. induction a as [|x a IH]; [done|]. by rewrite !app_cons, IH. Qed.

Lemma length_app_string (a b : string) :
  String.length (a +:+ b) = (String.length a + String.length b)%nat.
Proof. induction a as [|x a IH]; [done|]. rewrite app_cons. simpl. by rewrite IH. Qed.

Lemma digits_value_app (acc : Z) (a b : string) :
  digits_value acc (a +:+ b) = digits_value acc a ≫= fun v => digits_value v b.
Proof.
  revert acc. induction a as [|c a IH]; intros acc; [done|].
  rewrite app_cons. simpl. destruct (digit_value c); [apply IH|done].
Qed.

Lemma all_digits_app (a b : string) :
  all_digits (a +:+ b) = all_digits a && all_digits b.
Proof.
  induction a as [|c a IH]; [done|].
  rewrite app_cons. simpl. by rewrite IH, andb_assoc.
Qed.

Lemma digits_value_all_digits (acc : Z) (s : string) :
  is_Some (digits_value acc s) -> all_digits s = true.
Proof.
  revert acc. induction s as [|c s IH]; intros acc; [done|]. simpl.
  destruct (digit_value c) as [d|] eqn:Hd; [|by intros [? ?]].
  intros H. rewrite (IH _ H), andb_true_r. apply bool_decide_eq_true. by eexists.
Qed.

Lemma pretty_N_char_value (x : N) :
  (x < 10)%N -> digit_value (pretty_N_char x) = Some (Z.of_N x).
Proof.
  intros Hx.
  assert (x = 0 ∨ x = 1 ∨ x = 2 ∨ x = 3 ∨ x = 4 ∨ x = 5 ∨ x = 6
          ∨ x = 7 ∨ x = 8 ∨ x = 9)%N as Hcases by lia.
  repeat (destruct Hcases as [->|Hcases]; [reflexivity|]). by subst.
Qed.

(** The digits that [pretty] prints in front of its accumulator. *)
Lemma pretty_N_go_digits (x : N) :
  exists pre : string,
    (forall s, pretty_N_go x s = pre +:+ s)
    /\ (forall acc,
          digits_value acc pre
          = Some (acc * 10 ^ Z.of_nat (String.length pre) + Z.of_N x))
    /\ ((0 < x)%N -> pre <> "").
Proof.
  induction (N.lt_wf_0 x) as [x _ IH].
  destruct (decide (x = 0%N)) as [->|Hx].
  - exists "". split; [done|]. split; [|lia]. intros acc. simpl. f_equal. lia.
  - destruct (IH (x `div` 10)%N) as (pre & Hgo & Hval & _).
    { apply N.div_lt; lia. }
    exists (pre +:+ String (pretty_N_char (x `mod` 10)) ""). split; [|split].
    + intros s. rewrite pretty_N_go_step by lia. by rewrite Hgo, app_assoc_string.
    + intros acc. rewrite digits_value_app, Hval. simpl.
      rewrite pretty_N_char_value by (apply N.mod_lt; lia). f_equal.
      rewrite length_app_string. simpl.
      rewrite Nat2Z.inj_add, Z.pow_add_r by lia.
      pose proof (N.div_mod x 10 ltac:(lia)) as Hdm.
      change (10 ^ Z.of_nat 1) with 10. lia.
    + intros _. by destruct pre.
Qed.

Lemma pretty_nonneg_digits (n : Z) :
  0 <= n -> digits_value 0 (pretty n) = Some n /\ pretty n <> "".
Proof.
  intros Hn. destruct n as [|p|p]; [done| |lia].
  unfold pretty, pretty_Z, pretty, pretty_positive, pretty, pretty_N.
  rewrite decide_False by done.
  destruct (pretty_N_go_digits (N.pos p)) as (pre & Hgo & Hval & Hne).
  rewrite Hgo, app_empty_r. split; [|apply Hne; lia].
  rewrite Hval. f_equal; lia.
Qed.

Lemma digits_value_zeros (k : nat) (s : string) :
  digits_value 0 (zeros k +:+ s) = digits_value 0 s.
Proof. induction k as [|k IH]; [done|]. exact IH. Qed.

Lemma length_zeros (k : nat) : String.length (zeros k) = k.
Proof. induction k as [|k IH]; [done|]. simpl. by rewrite IH. Qed.

Lemma length_zero_pad (width : nat) (s : string) :
  String.length (zero_pad width s) = Nat.max width (String.length s).
Proof. unfold zero_pad. rewrite length_app_string, length_zeros. lia. Qed.

Lemma split_at_app (n : nat) (s : string) :
  (n <= String.length s)%nat ->
  s = fst (split_at n s) +:+ snd (split_at n s)
  /\ String.length (fst (split_at n s)) = n.
Proof.
  revert s. induction n as [|n IH]; intros [|c s] Hn; simpl in *; try done; try lia.
  destruct (IH s ltac:(lia)) as [Hs Hlen].
  destruct (split_at n s) as [a b]. simpl in *.
  rewrite app_cons. by rewrite <- Hs, Hlen.
Qed.

Lemma split_on_point_digits (a : string) :
  all_digits a = true -> split_on_point a = (a, None).
Proof.
  induction a as [|c a IH]; [done|]. simpl.
  intros [Hc Ha]%andb_true_iff. apply bool_decide_eq_true in Hc as [d Hd].
  destruct (Ascii.eqb_spec c ".") as [->|_]; [done|]. by rewrite IH.
Qed.

Lemma split_on_point_app (a b : string) :
  all_digits a = true -> split_on_point (a +:+ "." +:+ b) = (a, Some b).
Proof.
  induction a as [|c a IH]; [done|]. rewrite app_cons. simpl.
  intros [Hc Ha]%andb_true_iff. apply bool_decide_eq_true in Hc as [d Hd].
  destruct (Ascii.eqb_spec c ".") as [->|_]; [done|]. by rewrite IH.
Qed.

Lemma digit_is_no_dash (c : ascii) :
  is_Some (digit_value c) -> Ascii.eqb c "-" = false.
Proof. intros [d Hd]. by destruct (Ascii.eqb_spec c "-") as [->|_]. Qed.

(** Reading a serialized price gives the price back: the string is a
    fixed-point literal of the decimal. *)
Lemma parse_serialize_price (d : Decimal) :
  parse_price (serialize_price d) = Some d.
Proof.
  destruct d as [c p]. unfold serialize_price. simpl.
  set (digits := zero_pad (S p) (pretty (Z.abs c))).
  assert (digits_value 0 digits = Some (Z.abs c)) as Hval.
  { unfold digits, zero_pad. rewrite digits_value_zeros.
    apply pretty_nonneg_digits. lia. }
  assert (S p <= String.length digits)%nat as Hlen.
  { unfold digits. rewrite length_zero_pad. lia. }
  destruct (split_at_app (String.length digits - p) digits ltac:(lia))
    as [Hsplit Hwhole].
  destruct (split_at _ digits) as [whole frac]. simpl in *.
  assert (String.length frac = p) as Hfrac.
  { apply (f_equal String.length) in Hsplit.
    rewrite length_app_string in Hsplit. lia. }
  assert (all_digits whole = true /\ all_digits frac = true) as [Hdw Hdf].
  { apply andb_true_iff. rewrite <- all_digits_app, <- Hsplit.
    apply (digits_value_all_digits 0). by rewrite Hval. }
  assert (exists x rest, whole = String x rest /\ Ascii.eqb x "-" = false)
    as (x & rest & -> & Hx).
  { destruct whole as [|x rest]; [simpl in Hwhole; lia|].
    exists x, rest. split; [done|]. apply digit_is_no_dash.
    simpl in Hdw. apply andb_true_iff in Hdw as [Hd _].
    by apply bool_decide_eq_true in Hd. }
  assert (forall negative,
            parse_unsigned negative
              (String x rest +:+ (if p is O then "" else "." +:+ frac))
            = Some {| coefficient := if negative then - Z.abs c else Z.abs c;
                      places := p |}) as Hbody.
  { intros negative. unfold parse_unsigned.
    assert (split_on_point
              (String x rest +:+ (if p is O then "" else "." +:+ frac))
            = (String x rest, if p is O then None else Some frac)) as ->.
    { destruct p; [rewrite app_empty_r; by apply split_on_point_digits|].
      by apply split_on_point_app. }
    cbv zeta. simpl String.length. simpl orb.
    destruct p as [|p].
    - rewrite bool_decide_eq_false_2 by done. simpl default.
      destruct frac; [|done]. rewrite app_empty_r in *.
      by rewrite <- Hsplit, Hval.
    - rewrite bool_decide_eq_false_2 by (intros [= ->]; done).
      simpl default. by rewrite <- Hsplit, Hval, Hfrac. }
  destruct (Z.ltb_spec c 0) as [Hneg|Hpos].
  - change ("-" +:+ ?s) with (String "-" s). unfold parse_price.
    simpl Ascii.eqb. cbv iota. rewrite Hbody. do 2 f_equal. lia.
  - change ("" +:+ ?s) with s. rewrite app_cons. unfold parse_price.
    rewrite Hx, <- app_cons, Hbody. do 2 f_equal. lia.
Qed.

(** ** The order store keeps its rows in ascending order of id *)

Lemma lookup_Some_id (id : Z) (s : OrderStore) (o : Order) :
  OrderStore.lookup id s = Some o -> order_id o = id /\ o ∈ rows s.
Proof.
  unfold OrderStore.lookup. intros H.
  pose proof (find_some _ _ H) as [Hin Heq].
  split; [lia|]. by apply list_elem_of_In.
Qed.

Lemma lookup_None_iff (id : Z) (s : OrderStore) :
  OrderStore.lookup id s = None <-> id ∉ map order_id (rows s).
Proof.
  unfold OrderStore.lookup. induction (rows s) as [|o l IH]; simpl.
  - split; [|done]. intros _ H. inversion H.
  - destruct (Z.eqb_spec (order_id o) id) as [Heq|Hne].
    + split; [done|]. intros H. destruct H. rewrite Heq. left.
    + rewrite IH, not_elem_of_cons. split; [by intros; split|by intros [_ ?]].
Qed.

Lemma replace_order_id (o r : Order) :
  order_id (OrderStore.replace_order o r) = order_id r.
Proof. unfold OrderStore.replace_order. by destruct (_ =? _). Qed.

Lemma store_wf_empty : store_wf OrderStore.empty.
Proof. split; simpl; constructor. Qed.

Lemma store_wf_create (details : list OrderLine) (s : OrderStore) :
  store_wf s -> store_wf (snd (OrderStore.create details s)).
Proof.
  intros [Hsorted Hbound]. unfold OrderStore.create.
  destruct (accepts_writes s); [|done]. split; simpl.
  - rewrite map_app. apply StronglySorted_app_2.
    + intros x1 x2 H1 H2. apply list_elem_of_fmap in H1 as [o [-> Ho]].
      apply list_elem_of_singleton in H2 as ->.
      rewrite Forall_forall in Hbound. by apply Hbound.
    + done.
    + repeat constructor.
  - apply Forall_app. split.
    + eapply Forall_impl; [done|]. simpl. intros; lia.
    + repeat constructor. simpl. lia.
Qed.

Lemma store_wf_update (o : Order) (s : OrderStore) :
  store_wf s -> store_wf (snd (OrderStore.update o s)).
Proof.
  intros [Hsorted Hbound]. unfold OrderStore.update.
  destruct (OrderStore.lookup _ s); [|done]. split; simpl.
  - rewrite map_map.
    erewrite map_ext; [done|]. intros r. apply replace_order_id.
  - rewrite Forall_map. eapply Forall_impl; [done|].
    intros r. simpl. by rewrite replace_order_id.
Qed.

Lemma store_wf_delete (id : Z) (s : OrderStore) :
  store_wf s -> store_wf (snd (OrderStore.delete id s)).
Proof.
  intros [Hsorted Hbound]. unfold OrderStore.delete.
  destruct (OrderStore.lookup _ s); [|done]. split; simpl.
  - clear Hbound. induction (rows s) as [|r l IH]; [done|].
    simpl in *. apply StronglySorted_inv in Hsorted as [Hl Hr].
    destruct (negb _); simpl; [|by apply IH].
    constructor; [by apply IH|].
    rewrite Forall_forall in Hr |- *. intros x Hx. apply Hr.
    apply list_elem_of_fmap in Hx as [y [-> Hy]].
    apply list_elem_of_fmap. exists y. split; [done|].
    apply list_elem_of_In in Hy. apply filter_In in Hy as [Hy _].
    by apply list_elem_of_In.
  - rewrite Forall_forall in Hbound |- *. intros x Hx. apply Hbound.
    apply list_elem_of_In in Hx. apply filter_In in Hx as [Hx _].
    by apply list_elem_of_In.
Qed.

Lemma reachable_wf (s : OrderStore) : reachable s -> store_wf s.
Proof.
  induction 1 as [|s details _ IH|s o _ IH|s id _ IH|s b _ IH].
  - apply store_wf_empty.
  - by apply store_wf_create.
  - by apply store_wf_update.
  - by apply store_wf_delete.
  - exact IH.
Qed.


Lemma six_orders_reachable : reachable six_orders.
Proof.
  pose (step := fun s => snd (OrderStore.create [] s)).
  change six_orders
    with (step (step (step (step (step (step OrderStore.empty)))))).
  repeat apply reachable_create. apply reachable_empty.
Qed.



(** ** The order service *)

Lemma with_store_same (w : World) : with_store (store w) w = w.
Proof. by destruct w. Qed.

Lemma number_details_ids (next : Z) (lines : list OrderLine) :
  map detail_id (OrderStore.number_details next lines)
  = consecutive next (length lines).
Proof.
  revert next. induction lines as [|d ds IH]; intros next; [done|].
  simpl. by rewrite IH.
Qed.

Lemma number_details_lines (next : Z) (lines : list OrderLine) :
  Forall2 (fun line d =>
             product_id d = line_product_id line
             /\ price d = line_price line
             /\ quantity d = line_quantity line)
          lines (OrderStore.number_details next lines).
Proof.
  revert next. induction lines as [|d ds IH]; intros next; simpl.
  - constructor.
  - constructor; [done|apply IH].
Qed.

Lemma traverse_option_Forall2 {A B} (f : A -> option B) (xs : list A) (ys : list B) :
  traverse_option f xs = Some ys -> Forall2 (fun x y => f x = Some y) xs ys.
Proof.
  revert ys. induction xs as [|x xs IH]; intros ys; simpl.
  - intros [= <-]. constructor.
  - destruct (f x) as [y|] eqn:Hx; [|done].
    destruct (traverse_option f xs) as [ys'|]; [|done].
    intros [= <-]. constructor; [done|by apply IH].
Qed.

Lemma traverse_option_is_Some {A B} (f : A -> option B) (xs : list A) :
  Forall (fun x => is_Some (f x)) xs -> is_Some (traverse_option f xs).
Proof.
  induction 1 as [|x xs [y Hy] _ [ys Hys]]; simpl; [by eexists|].
  rewrite Hy, Hys. by eexists.
Qed.

Lemma load_line_Some (given : OrderLineDict) (line : OrderLine) :
  OrdersService.load_line given = Some line ->
  parse_price (ld_price given) = Some (line_price line)
  /\ line_product_id line = ld_product_id given
  /\ line_quantity line = ld_quantity given.
Proof.
  unfold OrdersService.load_line.
  destruct (parse_price (ld_price given)) as [p|]; [|done].
  by intros [= <-].
Qed.

Lemma lookup_new_row (s : OrderStore) (o : Order) :
  store_wf s -> order_id o = next_order_id s ->
  List.find (fun r => order_id r =? next_order_id s) (rows s ++ [o]) = Some o.
Proof.
  intros [_ Hbound] Hid. induction Hbound as [|r l Hr _ IH]; simpl.
  - by rewrite Hid, Z.eqb_refl.
  - destruct (Z.eqb_spec (order_id r) (next_order_id s)); [lia|done].
Qed.

Lemma consecutive_app (first : Z) (n m : nat) :
  consecutive first (n + m)
  = consecutive first n ++ consecutive (first + Z.of_nat n) m.
Proof.
  revert first. induction n as [|n IH]; intros first; simpl.
  - f_equal. lia.
  - rewrite IH. do 3 f_equal. lia.
Qed.

Lemma length_number_details (next : Z) (lines : list OrderLine) :
  length (OrderStore.number_details next lines) = length lines.
Proof.
  revert next. induction lines as [|d ds IH]; intros next; simpl; [done|].
  f_equal. apply IH.
Qed.

Lemma create_order_ids (details : list OrderLineDict) (w w' : World)
    (order : OrderDict) :
  OrdersService.create_order details w = (Ok order, w') ->
  o_id order = next_order_id (store w)
  /\ map od_id (o_order_details order)
     = consecutive (next_detail_id (store w)) (length (o_order_details order))
  /\ length (o_order_details order) = length details
  /\ next_order_id (store w') = next_order_id (store w) + 1
  /\ next_detail_id (store w')
     = next_detail_id (store w) + Z.of_nat (length (o_order_details order)).
Proof.
  unfold OrdersService.create_order.
  destruct (traverse_option _ details) as [lines|] eqn:Hload; [|done].
  apply traverse_option_Forall2, Forall2_length in Hload.
  unfold OrderStore.create. destruct (accepts_writes (store w)); [|done].
  intros [= <- <-]. simpl.
  rewrite length_map, length_number_details, map_map.
  change (fun x => od_id (OrdersService.serialize_detail x)) with detail_id.
  by rewrite number_details_ids.
Qed.

Lemma create_order_fails (details : list OrderLineDict) (w w' : World) (e : Exn) :
  OrdersService.create_order details w = (Raise e, w') -> w' = w.
Proof.
  unfold OrdersService.create_order.
  destruct (traverse_option _ details); [|by intros [= _ <-]].
  unfold OrderStore.create. destruct (accepts_writes (store w)); [done|].
  intros [= _ <-]. apply with_store_same.
Qed.

Lemma create_orders_ids (submissions : list (list OrderLineDict)) (w : World) :
  let created := fst (create_orders submissions w) in
  map o_id created = consecutive (next_order_id (store w)) (length created)
  /\ detail_ids created
     = consecutive (next_detail_id (store w)) (length (detail_ids created)).
Proof.
  revert w. induction submissions as [|details rest IH]; intros w; simpl; [done|].
  destruct (OrdersService.create_order details w) as [[order|e] w'] eqn:Hcreate.
  - apply create_order_ids in Hcreate as (Hid & Hids & _ & Hnext & Hnext').
    specialize (IH w'). destruct (create_orders rest w') as [created w''].
    simpl in *. destruct IH as [IHo IHd]. unfold detail_ids in *. simpl.
    rewrite Hid, IHo, Hnext. split; [done|].
    rewrite length_app, consecutive_app, length_map, <- Hids.
    f_equal. rewrite <- Hnext'. exact IHd.
  - apply create_order_fails in Hcreate as ->. apply IH.
Qed.

(** C3.  Whenever the order service's [create_order] succeeds, it has
    published exactly one event, ['order_created'], whose payload is the
    order that is now persisted (the store's new, last row, found under the
    order's id), serialized: the detail lines in the order of the
    submission, every price the fixed-point string of the stored decimal,
    and the detail ids consecutive from the store's next detail id, which is
    1 in a new store.  It succeeds when the write does and the prices are
    decimals; when it fails nothing is stored or published.  Over any
    sequence of submissions to a new store, the ids of the orders created
    are 1, 2, ... and so are the ids of their detail lines, taken in order.
    The call of [test_can_create_order] yields the event that the test
    expects. *)
Theorem create_order_publishes_persisted_order :
  (forall (details : list OrderLineDict) (w w' : World) (order : OrderDict),
      reachable (store w) ->
      OrdersService.create_order details w = (Ok order, w') ->
      dispatched w' = dispatched w ++ [mkEvent "order_created" order]
      /\ (exists row : Order,
            rows (store w') = rows (store w) ++ [row]
            /\ OrderStore.get (o_id order) (store w') = Ok row
            /\ order = OrdersService.serialize_order row)
      /\ Forall2 (fun given item =>
                    od_product_id item = ld_product_id given
                    /\ od_quantity item = ld_quantity given
                    /\ exists p : Decimal,
                         parse_price (ld_price given) = Some p
                         /\ od_price item = serialize_price p
                         /\ parse_price (od_price item) = Some p)
                 details (o_order_details order)
      /\ map od_id (o_order_details order)
         = consecutive (next_detail_id (store w)) (length details)
      /\ (store w = OrderStore.empty ->
          o_id order = 1
          /\ map od_id (o_order_details order) = consecutive 1 (length details)))
  /\ (forall (details : list OrderLineDict) (w : World),
        accepts_writes (store w) = true ->
        Forall (fun d => is_Some (parse_price (ld_price d))) details ->
        is_ok (fst (OrdersService.create_order details w)) = true)
  /\ (forall (details : list OrderLineDict) (w w' : World) (e : Exn),
        OrdersService.create_order details w = (Raise e, w') -> w' = w)
  /\ (forall (submissions : list (list OrderLineDict))
            (cat : gmap string ProductRow),
        let created :=
          fst (create_orders submissions (mkWorld cat OrderStore.empty [] [])) in
        map o_id created = consecutive 1 (length created)
        /\ detail_ids created = consecutive 1 (length (detail_ids created)))
  /\ (forall cat : gmap string ProductRow,
        let w := mkWorld cat OrderStore.empty [] [] in
        fst (OrdersService.create_order odyssey_and_enigma w) = Ok first_order
        /\ dispatched (snd (OrdersService.create_order odyssey_and_enigma w))
           = [mkEvent "order_created" first_order]).
Proof.
  split; [|split; [|split; [|split]]].
  - intros details w w' order Hreach. apply reachable_wf in Hreach as Hwf.
    unfold OrdersService.create_order.
    destruct (traverse_option _ details) as [lines|] eqn:Hload; [|done].
    apply traverse_option_Forall2 in Hload.
    unfold OrderStore.create. destruct (accepts_writes (store w)); [|done].
    intros [= <- <-]. simpl.
    assert (length lines = length details) as Hlen
      by (symmetry; by eapply Forall2_length).
    split; [done|]. split; [|split; [|split]].
    + eexists. split; [done|]. split; [|done].
      unfold OrderStore.get, OrderStore.lookup. simpl.
      by rewrite lookup_new_row.
    + apply Forall2_fmap_r.
      eapply Forall2_trans;
        [|exact Hload|apply (number_details_lines (next_detail_id (store w)))].
      intros given line d Hline (Hp & Hprice & Hq). simpl.
      apply load_line_Some in Hline as (Hparse & Hpid & Hqty).
      split; [congruence|]. split; [congruence|].
      exists (line_price line). rewrite Hprice.
      split; [done|]. split; [done|]. apply parse_serialize_price.
    + rewrite map_map. change (fun x => od_id (OrdersService.serialize_detail x))
        with detail_id. by rewrite number_details_ids, Hlen.
    + intros Hs. rewrite Hs. simpl. split; [done|].
      rewrite map_map. change (fun x => od_id (OrdersService.serialize_detail x))
        with detail_id. by rewrite number_details_ids, Hlen.
  - intros details w Hwrites Hprices. unfold OrdersService.create_order.
    destruct (traverse_option_is_Some OrdersService.load_line details) as [lines ->].
    { eapply Forall_impl; [done|]. intros d [p Hp].
      unfold OrdersService.load_line. rewrite Hp. by eexists. }
    unfold OrderStore.create. by rewrite Hwrites.
  - intros details w w' e. apply create_order_fails.
  - intros submissions cat.
    apply (create_orders_ids submissions (mkWorld cat OrderStore.empty [] [])).
  - intros cat w. split; reflexivity.
Qed.

Lemma create_order_publishes_persisted_order_witness :
  let w := mkWorld ∅ six_orders [] [] in
  reachable (store w)
  /\ exists order w',
       OrdersService.create_order odyssey_and_enigma w = (Ok order, w')
       /\ dispatched w' = dispatched w ++ [mkEvent "order_created" order]
       /\ map od_id (o_order_details order) = consecutive 1 2.
Proof.
  split; [exact six_orders_reachable|].
  eexists _, _. split; [reflexivity|].
  pose proof (proj1 create_order_publishes_persisted_order
                odyssey_and_enigma (mkWorld ∅ six_orders [] []) _ _
                six_orders_reachable eq_refl) as (Hevent & _ & _ & Hids & _).
  split; [exact Hevent | exact Hids].
Defined.

Lemma get_absent (id : Z) (s : OrderStore) :
  id ∉ map order_id (rows s) ->
  OrderStore.get id s = Raise (NotFound (pretty id)).
Proof.
  intros H. apply lookup_None_iff in H. unfold OrderStore.get. by rewrite H.
Qed.

(** C6.  For an id that no stored order has, the order service's
    [get_order] fails with the message "Order with id {id} not found" (the
    id in decimal): it raises [NotFound] with it, which reaches the gateway
    as [OrderNotFound] with the same message, and a plain RPC client, as in
    [test_will_raise_when_order_not_found], as a remote error with the value
    "Order with id 1 not found" for id 1 on an empty store.  Whatever
    request the order service answers with an error, the error is this
    not-found error or a storage error, and only the first is recognized
    across the RPC boundary: the second arrives as a generic [RemoteError]. *)
Theorem get_order_not_found :
  (forall (id : Z) (w : World),
      id ∉ map order_id (rows (store w)) ->
      OrdersService.get_order id w
      = (Raise (NotFound ("Order with id " +:+ pretty id +:+ " not found")), w)
      /\ remote_get_order gateway_orders_rpc id w
         = (Raise (OrderNotFound ("Order with id " +:+ pretty id +:+ " not found")),
            with_calls [orders_get_order id] w))
  /\ (forall cat : gmap string ProductRow,
        let w := mkWorld cat OrderStore.empty [] [] in
        test_client (OrdersService.get_order 1) w
        = (Raise (RemoteError "NotFound" "Order with id 1 not found"), w))
  /\ (forall (r : OrdersRequest) (w : World) (e : Exn),
        fst (answer r w) = Some e ->
        (exists id : Z,
            e = NotFound ("Order with id " +:+ pretty id +:+ " not found")
            /\ gateway_error orders_service e
               = OrderNotFound ("Order with id " +:+ pretty id +:+ " not found"))
        \/ (exists msg : string,
              e = StorageError msg
              /\ gateway_error orders_service e = RemoteError "StorageError" msg
              /\ recognized (gateway_error orders_service e) = false)).
Proof.
  split; [|split].
  - intros id w Habsent.
    assert (OrdersService.get_order id w
            = (Raise (NotFound (OrdersService.not_found_message id)), w)) as Hget.
    { unfold OrdersService.get_order. by rewrite get_absent. }
    split; [exact Hget|].
    unfold gateway_orders_rpc, remote_call. simpl.
    unfold OrdersService.get_order. simpl. by rewrite get_absent.
  - intros cat w. reflexivity.
  - intros r w e. destruct r as [details|id|order|id|skip limit|]; simpl.
    + unfold OrdersService.create_order.
      destruct (traverse_option _ details).
      * unfold OrderStore.create. destruct (accepts_writes (store w)); [done|].
        simpl. intros [= <-]. right. by eexists.
      * simpl. intros [= <-]. right. by eexists.
    + unfold OrdersService.get_order. destruct (OrderStore.get id (store w)); [done|].
      simpl. intros [= <-]. left. by exists id.
    + unfold OrdersService.update_order.
      destruct (traverse_option _ _).
      * destruct (OrderStore.update _ _) as [[updated|e'] s']; [done|].
        simpl. intros [= <-]. left. by exists (o_id order).
      * simpl. intros [= <-]. right. by eexists.
    + done.
    + done.
    + done.
Qed.

Lemma get_order_not_found_witness :
  let w := mkWorld ∅ six_orders [] [] in
  (7 ∉ map order_id (rows (store w)))
  /\ OrdersService.get_order 7 w
     = (Raise (NotFound "Order with id 7 not found"), w).
Proof.
  assert (7 ∉ map order_id (rows six_orders)) as Habsent.
  { by_computation. }
  split; [exact Habsent|].
  exact (proj1 (proj1 get_order_not_found 7 (mkWorld ∅ six_orders [] []) Habsent)).
Defined.

(** ** The gateway's calls, evaluated *)

Lemma with_calls_nil (w : World) : with_calls [] w = w.
Proof. destruct w. unfold with_calls. simpl. by rewrite app_nil_r. Qed.

Lemma with_calls_app (a b : list RpcCall) (w : World) :
  with_calls b (with_calls a w) = with_calls (a ++ b) w.
Proof. unfold with_calls. simpl. by rewrite app_assoc. Qed.

Lemma remote_get_eval (pid : string) (w : World) :
  remote_get gateway_products_rpc pid w
  = (match catalogue w !! pid with
     | Some r => Ok (product_of pid r)
     | None => Raise (ProductNotFound pid)
     end, with_calls [products_get pid] w).
Proof.
  unfold gateway_products_rpc, remote_call, ProductsService.get. simpl.
  by destruct (catalogue w !! pid).
Qed.

Lemma for_each_lines_eval (image : string -> string) (items : list OrderDetailDict)
    (w : World) :
  for_each (enrich_line gateway_products_rpc image) items w
  = (fst (eval_lines (catalogue w) image items),
     with_calls (snd (eval_lines (catalogue w) image items)) w).
Proof.
  revert w. induction items as [|item rest IH]; intros w.
  - simpl. by rewrite with_calls_nil.
  - simpl. unfold bind at 1. unfold enrich_line at 1. unfold bind at 1.
    rewrite remote_get_eval.
    destruct (catalogue w !! od_product_id item) as [r|] eqn:Hr; [|done].
    unfold ret at 1. unfold bind at 1. rewrite IH. simpl.
    destruct (eval_lines (catalogue w) image rest) as [[rest'|e] cs]; simpl;
      by rewrite with_calls_app.
Qed.

Lemma for_each_orders_eval (image : string -> string) (orders : list OrderDict)
    (w : World) :
  for_each
    (fun order =>
       items <~ for_each (enrich_line gateway_products_rpc image)
                  (o_order_details order) ;;
       ret (GatewayService.with_details order items))
    orders w
  = (fst (eval_orders (catalogue w) image orders),
     with_calls (snd (eval_orders (catalogue w) image orders)) w).
Proof.
  revert w. induction orders as [|order rest IH]; intros w.
  - simpl. by rewrite with_calls_nil.
  - simpl. unfold bind at 1. unfold bind at 1. rewrite for_each_lines_eval.
    destruct (eval_lines (catalogue w) image (o_order_details order))
      as [[items|e] cs]; simpl; [|done].
    unfold bind at 1. rewrite IH. simpl.
    destruct (eval_orders (catalogue w) image rest) as [[rest'|e] cs']; simpl;
      by rewrite with_calls_app.
Qed.

(** *** What the evaluation yields *)

Lemma eval_lines_calls_ok cat image items items' cs :
  eval_lines cat image items = (Ok items', cs) ->
  Forall2 (enriched cat image) items items'
  /\ cs = map products_get (map od_product_id items).
Proof.
  revert items' cs. induction items as [|item rest IH]; intros items' cs; simpl.
  - intros [= <- <-]. split; [constructor|done].
  - destruct (cat !! od_product_id item) as [r|] eqn:Hr; [|done].
    destruct (eval_lines cat image rest) as [[rest'|e] cs']; [|done].
    intros [= <- <-]. destruct (IH _ _ eq_refl) as [Hrest ->].
    split; [|done]. constructor; [|done]. by exists r.
Qed.

Lemma eval_lines_present cat image items :
  Forall (fun item => is_Some (cat !! od_product_id item)) items ->
  is_ok (fst (eval_lines cat image items)) = true.
Proof.
  induction 1 as [|item rest [r Hr] _ IH]; simpl; [done|].
  rewrite Hr. by destruct (eval_lines cat image rest) as [[rest'|e] cs].
Qed.

Lemma eval_lines_missing cat image items :
  Exists (fun item => cat !! od_product_id item = None) items ->
  exists (pid : string) (cs : list RpcCall),
    eval_lines cat image items = (Raise (ProductNotFound pid), cs)
    /\ cat !! pid = None
    /\ pid ∈ map od_product_id items.
Proof.
  induction items as [|item rest IH]; intros Hex; [by inversion Hex|].
  simpl. destruct (cat !! od_product_id item) as [r|] eqn:Hr.
  - inversion Hex as [? ? Hitem|? ? Hrest]; subst; [congruence|].
    destruct (IH Hrest) as (pid & cs & -> & Hpid & Hin).
    eexists _, _. split; [done|]. split; [done|]. by right.
  - eexists _, _. split; [done|]. split; [done|]. left.
Qed.

Lemma eval_orders_calls_ok cat image orders orders' cs :
  eval_orders cat image orders = (Ok orders', cs) ->
  Forall2 (enriched_order cat image) orders orders'
  /\ cs = map products_get (line_product_ids orders).
Proof.
  revert orders' cs. induction orders as [|order rest IH]; intros orders' cs; simpl.
  - intros [= <- <-]. split; [constructor|done].
  - destruct (eval_lines cat image (o_order_details order))
      as [[items|e] cs1] eqn:Hlines; [|done].
    destruct (eval_orders cat image rest) as [[rest'|e] cs2]; [|done].
    intros [= <- <-]. destruct (IH _ _ eq_refl) as [Hrest ->].
    apply eval_lines_calls_ok in Hlines as [Hitems ->].
    split.
    + constructor; [|done]. by split.
    + unfold line_product_ids. simpl. by rewrite map_app.
Qed.

Lemma eval_orders_present cat image orders :
  Forall (fun order =>
            Forall (fun item => is_Some (cat !! od_product_id item))
                   (o_order_details order)) orders ->
  is_ok (fst (eval_orders cat image orders)) = true.
Proof.
  induction 1 as [|order rest Horder _ IH]; simpl; [done|].
  apply (eval_lines_present cat image) in Horder.
  destruct (eval_lines cat image (o_order_details order)) as [[items|e] cs];
    [|done].
  by destruct (eval_orders cat image rest) as [[rest'|e] cs'].
Qed.

Lemma remote_get_order_eval (id : Z) (w : World) :
  remote_get_order gateway_orders_rpc id w
  = (match OrderStore.get id (store w) with
     | Ok order => Ok (OrdersService.serialize_order order)
     | Raise _ => Raise (OrderNotFound (OrdersService.not_found_message id))
     end, with_calls [orders_get_order id] w).
Proof.
  unfold gateway_orders_rpc, remote_call, OrdersService.get_order. simpl.
  by destruct (OrderStore.get id (store w)).
Qed.

Lemma get_order_eval (config : gmap string string) (image_root : string)
    (id : Z) (w : World) :
  config !! "PRODUCT_IMAGE_ROOT" = Some image_root ->
  gateway_get_order config id w
  = match OrderStore.get id (store w) with
    | Ok order =>
        let view := OrdersService.serialize_order order in
        let '(res, cs) :=
          eval_lines (catalogue w) (image_url image_root) (o_order_details view) in
        (match res with
         | Ok items => Ok (GatewayService.with_details view items)
         | Raise e => Raise e
         end, with_calls (orders_get_order id :: cs) w)
    | Raise _ =>
        (Raise (OrderNotFound (OrdersService.not_found_message id)),
         with_calls [orders_get_order id] w)
    end.
Proof.
  intros Hroot. unfold gateway_get_order, GatewayService._get_order.
  unfold bind at 1. rewrite remote_get_order_eval.
  destruct (OrderStore.get id (store w)) as [order|e]; [|done].
  unfold bind at 1. unfold lift, getitem. rewrite Hroot.
  change (for_each _ (o_order_details (OrdersService.serialize_order order)))
    with (for_each (enrich_line gateway_products_rpc (image_url image_root))
            (o_order_details (OrdersService.serialize_order order))).
  unfold bind at 1. rewrite for_each_lines_eval. simpl.
  destruct (eval_lines _ _ _) as [[items|e] cs]; simpl;
    by rewrite with_calls_app.
Qed.

Lemma serialized_product_ids (details : list OrderDetail) :
  map od_product_id (map OrdersService.serialize_detail details)
  = map product_id details.
Proof. by rewrite map_map. Qed.

Lemma enriched_shows_detail (cat : gmap string ProductRow) (image_root : string)
    (d : OrderDetail) (item : OrderDetailDict) :
  enriched cat (image_url image_root) (OrdersService.serialize_detail d) item ->
  shows_detail cat image_root d item.
Proof. intros (r & Hr & ->). repeat split. by exists r. Qed.

(** C5.  With a configured [PRODUCT_IMAGE_ROOT], [_get_order] (a) returns
    an existing order whose lines all name existing products as that order:
    the view has the order's id and one line for every detail line, in
    order, with the line's id, product id, price and quantity, under
    ['product'] the product that the product service has under the line's
    product id, and under ['image'] the text
    ['{image_root}/{product_id}.jpg']; this after one call to the order
    service and one product fetch per line; (b) fails with the order
    service's [OrderNotFound] when there is no such order, without asking
    for any product; and (c) fails with [ProductNotFound], returning no
    order at all, when the product of one of the lines is missing. *)
Theorem get_order_view_enriches_every_line
    (config : gmap string string) (image_root : string) (id : Z) (w : World) :
  config !! "PRODUCT_IMAGE_ROOT" = Some image_root ->
  (forall order : Order,
      OrderStore.get id (store w) = Ok order ->
      Forall (fun d => is_Some (catalogue w !! product_id d)) (order_details order) ->
      exists view : OrderDict,
        gateway_get_order config id w
        = (Ok view,
           with_calls (orders_get_order id
                         :: map products_get (map product_id (order_details order))) w)
        /\ o_id view = order_id order
        /\ Forall2 (shows_detail (catalogue w) image_root)
             (order_details order) (o_order_details view))
  /\ (id ∉ map order_id (rows (store w)) ->
      gateway_get_order config id w
      = (Raise (OrderNotFound ("Order with id " +:+ pretty id +:+ " not found")),
         with_calls [orders_get_order id] w))
  /\ (forall order : Order,
        OrderStore.get id (store w) = Ok order ->
        Exists (fun d => catalogue w !! product_id d = None) (order_details order) ->
        exists (pid : string) (w' : World),
          gateway_get_order config id w = (Raise (ProductNotFound pid), w')
          /\ catalogue w !! pid = None
          /\ pid ∈ map product_id (order_details order)).
Proof.
  intros Hroot. split; [|split].
  - intros order Hget Hpresent. rewrite (get_order_eval _ _ _ _ Hroot), Hget.
    cbv zeta.
    pose proof (eval_lines_present (catalogue w) (image_url image_root)
                  (o_order_details (OrdersService.serialize_order order))) as Hok.
    destruct (eval_lines _ _ _) as [[items|e] cs] eqn:Heval.
    + apply eval_lines_calls_ok in Heval as [Hitems ->]. simpl in *.
      rewrite serialized_product_ids. eexists. split; [done|]. split; [done|].
      simpl. change (map ?f ?l) with (f <$> l) in Hitems.
      rewrite Forall2_fmap_l in Hitems.
      eapply Forall2_impl; [exact Hitems|].
      intros d item. apply enriched_shows_detail.
    + simpl in Hok. discriminate Hok. simpl.
      apply Forall_fmap. eapply Forall_impl; [done|]. by intros d.
  - intros Habsent. rewrite (get_order_eval _ _ _ _ Hroot).
    by rewrite get_absent.
  - intros order Hget Hmissing. rewrite (get_order_eval _ _ _ _ Hroot), Hget.
    cbv zeta.
    destruct (eval_lines_missing (catalogue w) (image_url image_root)
                (o_order_details (OrdersService.serialize_order order)))
      as (pid & cs & -> & Hpid & Hin).
    { simpl. apply Exists_fmap. eapply Exists_impl; [done|]. by intros d. }
    simpl in Hin. rewrite serialized_product_ids in Hin. by eexists _, _.
Qed.

Lemma get_order_view_enriches_every_line_witness :
  sample_config !! "PRODUCT_IMAGE_ROOT"
    = Some "http://www.example.com/airship/images"
  /\ OrderStore.get 1 (store sample_world) = Ok sample_order
  /\ Forall (fun d => is_Some (catalogue sample_world !! product_id d))
            (order_details sample_order)
  /\ exists view : OrderDict,
       gateway_get_order sample_config 1 sample_world
       = (Ok view,
          with_calls [orders_get_order 1; products_get "the_odyssey";
                      products_get "the_enigma"] sample_world)
       /\ o_id view = 1
       /\ Forall2 (shows_detail sample_catalogue
                     "http://www.example.com/airship/images")
            (order_details sample_order) (o_order_details view).
Proof.
  assert (sample_config !! "PRODUCT_IMAGE_ROOT"
          = Some "http://www.example.com/airship/images") as Hroot by reflexivity.
  assert (Forall (fun d => is_Some (catalogue sample_world !! product_id d))
            (order_details sample_order)) as Hpresent by by_computation.
  split; [exact Hroot|]. split; [reflexivity|]. split; [exact Hpresent|].
  exact (proj1 (get_order_view_enriches_every_line
                  sample_config _ 1 sample_world Hroot) sample_order eq_refl
           Hpresent).
Defined.

(** The view of the sample order, written out. *)
Example get_order_view_of_sample_order :
  fst (gateway_get_order sample_config 1 sample_world)
  = Ok {| o_id := 1;
          o_order_details :=
            [ {| od_id := 1; od_product_id := "the_odyssey";
                 od_price := "99.99"; od_quantity := 1;
                 od_product :=
                   Some (mkProduct "the_odyssey" "The Odyssey" 101 5 10);
                 od_image :=
                   Some "http://www.example.com/airship/images/the_odyssey.jpg" |};
              {| od_id := 2; od_product_id := "the_enigma";
                 od_price := "5.99"; od_quantity := 8;
                 od_product :=
                   Some (mkProduct "the_enigma" "The Enigma" 4 200 3);
                 od_image :=
                   Some "http://www.example.com/airship/images/the_enigma.jpg" |} ] |}.
Proof. reflexivity. Qed.

Lemma remote_list_orders_eval (skip limit : Z) (w : World) :
  remote_list_orders gateway_orders_rpc skip limit w
  = (Ok (page_of skip limit w), with_calls [orders_list_orders skip limit] w).
Proof. reflexivity. Qed.

Lemma remote_list_eval (ids : list string) (w : World) :
  remote_list gateway_products_rpc ids w
  = (Ok (omap (fun i => product_of i <$> catalogue w !! i) ids),
     with_calls [products_list ids] w).
Proof. reflexivity. Qed.

Lemma fetch_orders_eval (skip limit : Z) (w : World) :
  gateway_fetch_orders skip limit w
  = (fst (eval_orders (catalogue w) (fun _ => GatewayService.placeholder_image)
            (page_of skip limit w)),
     with_calls
       ([orders_list_orders skip limit;
         products_list
           (elements (GatewayService.collect_product_ids (page_of skip limit w)))]
        ++ snd (eval_orders (catalogue w)
                  (fun _ => GatewayService.placeholder_image)
                  (page_of skip limit w))) w).
Proof.
  unfold gateway_fetch_orders, GatewayService.fetch_orders.
  unfold bind at 1. rewrite remote_list_orders_eval.
  cbv zeta. unfold bind at 1. rewrite remote_list_eval.
  change (for_each _ (page_of skip limit w))
    with (for_each
            (fun order =>
               items <~ for_each
                          (enrich_line gateway_products_rpc
                             (fun _ => GatewayService.placeholder_image))
                          (o_order_details order) ;;
               ret (GatewayService.with_details order items))
            (page_of skip limit w)).
  rewrite for_each_orders_eval. simpl catalogue.
  by rewrite !with_calls_app.
Qed.

Lemma fetch_orders_without_batch_eval (skip limit : Z) (w : World) :
  fetch_orders_without_batch gateway_orders_rpc gateway_products_rpc skip limit w
  = (fst (eval_orders (catalogue w) (fun _ => GatewayService.placeholder_image)
            (page_of skip limit w)),
     with_calls
       ([orders_list_orders skip limit]
        ++ snd (eval_orders (catalogue w)
                  (fun _ => GatewayService.placeholder_image)
                  (page_of skip limit w))) w).
Proof.
  unfold fetch_orders_without_batch.
  unfold bind at 1. rewrite remote_list_orders_eval.
  change (for_each _ (page_of skip limit w))
    with (for_each
            (fun order =>
               items <~ for_each
                          (enrich_line gateway_products_rpc
                             (fun _ => GatewayService.placeholder_image))
                          (o_order_details order) ;;
               ret (GatewayService.with_details order items))
            (page_of skip limit w)).
  rewrite for_each_orders_eval. simpl catalogue.
  by rewrite !with_calls_app.
Qed.

Lemma enriched_order_lines cat image orders orders' order' item' :
  Forall2 (enriched_order cat image) orders orders' ->
  order' ∈ orders' -> item' ∈ o_order_details order' ->
  exists item r,
    cat !! od_product_id item = Some r
    /\ item' = GatewayService.enrich item (product_of (od_product_id item) r)
                 (image (od_product_id item)).
Proof.
  intros Horders Horder Hitem.
  apply list_elem_of_lookup in Horder as [i Hi].
  destruct (Forall2_lookup_r _ _ _ _ _ Horders Hi) as (order & _ & _ & Hlines).
  apply list_elem_of_lookup in Hitem as [j Hj].
  destruct (Forall2_lookup_r _ _ _ _ _ Hlines Hj) as (item & _ & r & Hr & ->).
  by exists item, r.
Qed.

Lemma app_cancel_r (a b s : string) : a +:+ s = b +:+ s -> a = b.
Proof.
  revert b. induction a as [|c a IH]; intros [|c' b] H.
  - done.
  - apply (f_equal String.length) in H.
    rewrite !length_app_string in H. simpl in H. lia.
  - apply (f_equal String.length) in H.
    rewrite !length_app_string in H. simpl in H. lia.
  - rewrite !app_cons in H. injection H as -> H. f_equal. by apply IH.
Qed.

Lemma image_url_inj (image_root a b : string) :
  image_url image_root a = image_url image_root b -> a = b.
Proof.
  unfold image_url. intros H.
  apply String.app_inj in H. apply String.app_inj in H.
  by apply app_cancel_r in H.
Qed.

(** C8.  Whenever [fetch_orders] returns a page, its orders are the orders
    of the order service's page, and every line item of every order carries
    the product that the product service has under the line's product id
    and, as its image, the fixed URL ["https://picsum.photos/300"], whatever
    the product id; the gateway has fetched the products one by one, one
    call per line item, after one batch call.  It returns a page whenever
    every line item of the page names an existing product.  (The image of
    the single-order view, ['{image_root}/{product_id}.jpg'], is a different
    one for every product id.) *)
Theorem list_view_enriches_with_placeholder (skip limit : Z) (w : World) :
  (forall (orders' : list OrderDict) (w' : World),
      gateway_fetch_orders skip limit w = (Ok orders', w') ->
      Forall2 (enriched_order (catalogue w) (fun _ => "https://picsum.photos/300"))
              (page_of skip limit w) orders'
      /\ (forall order item,
            order ∈ orders' -> item ∈ o_order_details order ->
            od_image item = Some "https://picsum.photos/300"
            /\ exists r, catalogue w !! od_product_id item = Some r
                 /\ od_product item = Some (product_of (od_product_id item) r))
      /\ rpc_calls w'
         = rpc_calls w
           ++ [orders_list_orders skip limit;
               products_list
                 (elements (GatewayService.collect_product_ids (page_of skip limit w)))]
           ++ map products_get (line_product_ids (page_of skip limit w)))
  /\ (Forall (fun order =>
                Forall (fun item => is_Some (catalogue w !! od_product_id item))
                       (o_order_details order))
             (page_of skip limit w) ->
      is_ok (fst (gateway_fetch_orders skip limit w)) = true)
  /\ (forall image_root a b : string,
        a <> b -> image_url image_root a <> image_url image_root b).
Proof.
  rewrite fetch_orders_eval. split; [|split].
  - intros orders' w'.
    destruct (eval_orders _ _ _) as [res cs] eqn:Heval. simpl.
    intros [= -> <-].
    apply eval_orders_calls_ok in Heval as [Hpage ->].
    split; [exact Hpage|]. split; [|done].
    intros order item Horder Hitem.
    destruct (enriched_order_lines _ _ _ _ _ _ Hpage Horder Hitem)
      as (item0 & r & Hr & ->).
    split; [done|]. by exists r.
  - intros Hpresent. simpl. by apply eval_orders_present.
  - intros image_root a b Hne Himage. by apply image_url_inj in Himage.
Qed.

Lemma list_view_enriches_with_placeholder_witness :
  Forall (fun order =>
            Forall (fun item =>
                      is_Some (catalogue sample_world !! od_product_id item))
                   (o_order_details order))
         (page_of 0 50 sample_world)
  /\ is_ok (fst (gateway_fetch_orders 0 50 sample_world)) = true.
Proof.
  assert (Forall (fun order =>
            Forall (fun item =>
                      is_Some (catalogue sample_world !! od_product_id item))
                   (o_order_details order))
         (page_of 0 50 sample_world)) as Hpresent.
  { by_computation. }
  split; [exact Hpresent|].
  exact (proj1 (proj2 (list_view_enriches_with_placeholder 0 50 sample_world))
           Hpresent).
Defined.

(** C9.  The value that the batch [products_rpc.list] call returns does not
    reach the result of [fetch_orders]: with any order service and any
    product service, replacing the batch call by one that returns an
    arbitrary value gives the list view that omits the call and enriches
    line by line, and so the same for any two values.  For the deployed
    gateway the two views return the same result and leave the same
    catalogue, store and events; their calls differ by the one batch
    call. *)
Theorem batch_list_does_not_affect_fetch_orders :
  (forall (orders_rpc : OrdersRpc) (products_rpc : ProductsRpc)
          (batch : list Product) (skip limit : Z) (w : World),
      GatewayService.fetch_orders orders_rpc
        {| remote_get := remote_get products_rpc;
           remote_list := fun _ => ret batch |} skip limit w
      = fetch_orders_without_batch orders_rpc products_rpc skip limit w)
  /\ (forall (orders_rpc : OrdersRpc) (products_rpc : ProductsRpc)
            (batch batch' : list Product) (skip limit : Z) (w : World),
        GatewayService.fetch_orders orders_rpc
          {| remote_get := remote_get products_rpc;
             remote_list := fun _ => ret batch |} skip limit w
        = GatewayService.fetch_orders orders_rpc
            {| remote_get := remote_get products_rpc;
               remote_list := fun _ => ret batch' |} skip limit w)
  /\ (forall (skip limit : Z) (w : World),
        let with_batch := gateway_fetch_orders skip limit w in
        let without :=
          fetch_orders_without_batch gateway_orders_rpc gateway_products_rpc
            skip limit w in
        fst with_batch = fst without
        /\ catalogue (snd with_batch) = catalogue (snd without)
        /\ store (snd with_batch) = store (snd without)
        /\ dispatched (snd with_batch) = dispatched (snd without)
        /\ exists (ids : list string) (gets : list RpcCall),
             rpc_calls (snd with_batch)
             = rpc_calls w
               ++ orders_list_orders skip limit :: products_list ids :: gets
             /\ rpc_calls (snd without)
                = rpc_calls w ++ orders_list_orders skip limit :: gets).
Proof.
  assert (forall (orders_rpc : OrdersRpc) (products_rpc : ProductsRpc)
                 (batch : list Product) (skip limit : Z) (w : World),
             GatewayService.fetch_orders orders_rpc
               {| remote_get := remote_get products_rpc;
                  remote_list := fun _ => ret batch |} skip limit w
             = fetch_orders_without_batch orders_rpc products_rpc skip limit w)
    as Hsame.
  { intros orders_rpc products_rpc batch skip limit w.
    unfold GatewayService.fetch_orders, fetch_orders_without_batch.
    cbv [bind].
    by destruct (remote_list_orders orders_rpc skip limit w) as [[orders0|e] w1]. }
  split; [exact Hsame|]. split.
  - intros. by rewrite !Hsame.
  - intros skip limit w. cbv zeta.
    rewrite fetch_orders_eval, fetch_orders_without_batch_eval. simpl.
    repeat (split; [done|]). by eexists _, _.
Qed.

(** ** Creating an order through the gateway *)

Lemma listed_product_ids (cat : gmap string ProductRow) (ids : list string)
    (pid : string) :
  pid ∈ map p_id (omap (fun i => product_of i <$> cat !! i) ids)
  <-> pid ∈ ids /\ is_Some (cat !! pid).
Proof.
  induction ids as [|i ids IH]; simpl.
  - split; [intros H; inversion H|intros [H _]; inversion H].
  - destruct (cat !! i) as [r|] eqn:Hi; simpl.
    + rewrite !elem_of_cons, IH. split.
      * intros [->|[? ?]]; [split; [by left|by eexists]|split; [by right|done]].
      * intros [[->|?] ?]; [by left|by right].
    + rewrite elem_of_cons, IH. split.
      * intros [? ?]. split; [by right|done].
      * intros [[->|?] Hsome]; [|done]. rewrite Hi in Hsome. by destruct Hsome.
Qed.

Lemma check_product_ids_eval (cat : gmap string ProductRow) (ids : list string)
    (items : list OrderLine) (w : World) :
  Forall (fun item => line_product_id item ∈ ids) items ->
  GatewayService.check_product_ids items
    (map p_id (omap (fun i => product_of i <$> cat !! i) ids)) w
  = (match List.find (fun item => missing cat (line_product_id item)) items with
     | Some item => Raise (ProductNotFound ("Product Id " +:+ line_product_id item))
     | None => Ok tt
     end, w).
Proof.
  induction 1 as [|item rest Hin _ IH]; simpl; [done|].
  unfold missing at 1.
  destruct (cat !! line_product_id item) as [r|] eqn:Hitem.
  - rewrite bool_decide_eq_true_2.
    + by rewrite bool_decide_eq_false_2.
    + apply listed_product_ids. split; [done|]. by eexists.
  - rewrite bool_decide_eq_false_2.
    + by rewrite bool_decide_eq_true_2.
    + rewrite listed_product_ids, Hitem. intros [_ [? ?]]. done.
Qed.

Lemma create_order_eval (orders_rpc : OrdersRpc) (details : list OrderLine)
    (w : World) :
  GatewayService._create_order orders_rpc gateway_products_rpc details w
  = let w1 := with_calls [products_list (map line_product_id details)] w in
    match List.find (fun item => missing (catalogue w) (line_product_id item))
                    details with
    | Some item =>
        (Raise (ProductNotFound ("Product Id " +:+ line_product_id item)), w1)
    | None =>
        match remote_create_order orders_rpc (map dump_line details) w1 with
        | (Ok result, w2) => (Ok (o_id result), w2)
        | (Raise e, w2) => (Raise e, w2)
        end
    end.
Proof.
  unfold GatewayService._create_order.
  unfold bind at 1. rewrite remote_list_eval. cbv zeta.
  unfold bind at 1.
  rewrite (check_product_ids_eval (catalogue w) (map line_product_id details)).
  - simpl catalogue. destruct (List.find _ details); [done|].
    unfold bind. by destruct (remote_create_order _ _ _) as [[result|e] w2].
  - apply Forall_forall. intros item Hitem.
    apply list_elem_of_fmap. by exists item.
Qed.

Lemma find_first_missing (cat : gmap string ProductRow) (details : list OrderLine) :
  Exists (fun d => cat !! line_product_id d = None) details ->
  exists (before : list OrderLine) (item : OrderLine) (after : list OrderLine),
    details = before ++ item :: after
    /\ Forall (fun d => is_Some (cat !! line_product_id d)) before
    /\ cat !! line_product_id item = None
    /\ List.find (fun d => missing cat (line_product_id d)) details = Some item.
Proof.
  induction details as [|d rest IH]; intros Hex; [by inversion Hex|].
  destruct (cat !! line_product_id d) as [r|] eqn:Hd.
  - inversion Hex as [? ? Hhead|? ? Hrest]; subst; [congruence|].
    destruct (IH Hrest) as (before & item & after & -> & Hbefore & Hitem & Hfind).
    exists (d :: before), item, after. split; [done|]. split; [|split; [done|]].
    + constructor; [by eexists|done].
    + simpl. unfold missing at 1. by rewrite bool_decide_eq_false_2 by congruence.
  - exists [], d, rest. split; [done|]. split; [constructor|]. split; [done|].
    simpl. unfold missing at 1. by rewrite bool_decide_eq_true_2.
Qed.

(** C2.  When at least one detail line of an order submission names a
    product that the product service does not have, [_create_order] fails
    with [ProductNotFound] and the message "Product Id {product_id}" for the
    first such line of the submission, having made one call only, the batch
    [list] of the submitted ids.  This is so whatever the order service
    does: its [create_order] is not invoked, and with the deployed services
    the store and so [count_orders] are as before, and no event has been
    published. *)
Theorem create_order_rejects_unknown_product
    (details : list OrderLine) (w : World) :
  Exists (fun d => catalogue w !! line_product_id d = None) details ->
  exists (before : list OrderLine) (item : OrderLine) (after : list OrderLine),
    details = before ++ item :: after
    /\ Forall (fun d => is_Some (catalogue w !! line_product_id d)) before
    /\ catalogue w !! line_product_id item = None
    /\ (forall orders_rpc : OrdersRpc,
          GatewayService._create_order orders_rpc gateway_products_rpc details w
          = (Raise (ProductNotFound ("Product Id " +:+ line_product_id item)),
             with_calls [products_list (map line_product_id details)] w))
    /\ (let w' := snd (gateway_create_order details w) in
        store w' = store w
        /\ dispatched w' = dispatched w
        /\ fst (OrdersService.count_orders w') = fst (OrdersService.count_orders w)
        /\ forall submitted, orders_create_order submitted ∈ rpc_calls w' ->
                             orders_create_order submitted ∈ rpc_calls w).
Proof.
  intros Hex.
  destruct (find_first_missing _ _ Hex)
    as (before & item & after & Hsplit & Hbefore & Hitem & Hfind).
  exists before, item, after. repeat (split; [done|]).
  assert (forall orders_rpc : OrdersRpc,
             GatewayService._create_order orders_rpc gateway_products_rpc details w
             = (Raise (ProductNotFound ("Product Id " +:+ line_product_id item)),
                with_calls [products_list (map line_product_id details)] w))
    as Hfails.
  { intros orders_rpc. by rewrite create_order_eval, Hfind. }
  split; [exact Hfails|].
  unfold gateway_create_order. rewrite Hfails. simpl.
  repeat (split; [done|]).
  intros submitted [Hin|Hin]%elem_of_app; [done|].
  apply list_elem_of_singleton in Hin. discriminate Hin.
Qed.


Lemma create_order_rejects_unknown_product_witness :
  Exists (fun d => catalogue sample_world !! line_product_id d = None)
         sample_submission
  /\ exists (before : list OrderLine) (item : OrderLine) (after : list OrderLine),
       sample_submission = before ++ item :: after
       /\ Forall (fun d => is_Some (catalogue sample_world !! line_product_id d))
                 before
       /\ catalogue sample_world !! line_product_id item = None
       /\ gateway_create_order sample_submission sample_world
          = (Raise (ProductNotFound ("Product Id " +:+ line_product_id item)),
             with_calls [products_list (map line_product_id sample_submission)]
               sample_world).
Proof.
  assert (Exists (fun d => catalogue sample_world !! line_product_id d = None)
                 sample_submission) as Hex.
  { by_computation. }
  split; [exact Hex|].
  destruct (create_order_rejects_unknown_product sample_submission sample_world Hex)
    as (before & item & after & Hsplit & Hbefore & Hitem & Hfails & _).
  exists before, item, after. repeat (split; [done|]).
  apply Hfails.
Defined.

Example create_order_names_first_unknown_product :
  gateway_create_order sample_submission sample_world
  = (Raise (ProductNotFound "Product Id the_unknown"),
     with_calls [products_list ["the_odyssey"; "the_unknown"; "another_unknown"]]
       sample_world).
Proof. reflexivity. Qed.

(** ** Reading an integer from a text *)

Lemma digit_is_no_underscore (c : ascii) :
  is_Some (digit_value c) -> Ascii.eqb c "_" = false.
Proof. intros [d Hd]. by destruct (Ascii.eqb_spec c "_") as [->|_]. Qed.

Lemma digit_is_no_space (c : ascii) :
  is_Some (digit_value c) -> is_space c = false.
Proof.
  intros [d Hd]. unfold digit_value, is_space in *.
  destruct (_ && _) eqn:Hrange in Hd; [|done].
  apply andb_true_iff in Hrange as [H1 H2].
  apply Z.leb_le in H1, H2.
  apply orb_false_iff. split.
  - apply andb_false_iff. right. apply Z.leb_gt. lia.
  - apply Z.eqb_neq. lia.
Qed.

Lemma digit_is_ascii (c : ascii) :
  is_Some (digit_value c) -> (N_of_ascii c <? 128)%N = true.
Proof.
  intros [d Hd]. unfold digit_value in Hd.
  destruct (_ && _) eqn:Hrange in Hd; [|done].
  apply andb_true_iff in Hrange as [H1 H2].
  apply Z.leb_le in H1, H2. apply N.ltb_lt. lia.
Qed.

Lemma digits_are_ascii (s : string) : all_digits s = true -> is_ascii s = true.
Proof.
  unfold is_ascii. induction s as [|c s IH]; simpl; [done|].
  intros [Hc Hs]%andb_true_iff. apply bool_decide_eq_true in Hc.
  by rewrite (digit_is_ascii c Hc), IH.
Qed.

Lemma ascii_form_ascii (u : UnicodeData) (s : string) :
  is_ascii s = true -> ascii_form u s = s.
Proof. unfold ascii_form. by intros ->. Qed.

Lemma int_digits_of_digits (acc : Z) (s : string) :
  all_digits s = true ->
  int_digits acc true (list_ascii_of_string s) = digits_value acc s.
Proof.
  revert acc. induction s as [|c s IH]; intros acc; simpl; [done|].
  intros [Hc Hs]%andb_true_iff. apply bool_decide_eq_true in Hc.
  rewrite (digit_is_no_underscore c Hc). destruct Hc as [d ->]. by apply IH.
Qed.

Lemma lstrip_no_space (l : list ascii) :
  Forall (fun c => is_space c = false) l -> lstrip l = l.
Proof. intros [|c l' Hc _]; simpl; [done|]. by rewrite Hc. Qed.

Lemma strip_no_space (l : list ascii) :
  Forall (fun c => is_space c = false) l -> strip l = l.
Proof.
  intros Hl. unfold strip. rewrite (lstrip_no_space l Hl).
  rewrite lstrip_no_space; [apply rev_involutive|].
  apply Forall_forall. intros c Hc. rewrite Forall_forall in Hl. apply Hl.
  apply list_elem_of_In. apply in_rev. by apply list_elem_of_In.
Qed.

Lemma digits_no_space (s : string) :
  all_digits s = true ->
  Forall (fun c => is_space c = false) (list_ascii_of_string s).
Proof.
  induction s as [|c s IH]; simpl; [constructor|].
  intros [Hc Hs]%andb_true_iff. apply bool_decide_eq_true in Hc.
  constructor; [by apply digit_is_no_space|by apply IH].
Qed.

Lemma py_int_digits (u : UnicodeData) (s : string) (n : Z) :
  s <> "" -> digits_value 0 s = Some n -> py_int u s = Ok n.
Proof.
  intros Hne Hval.
  assert (all_digits s = true) as Hdigits
    by (apply (digits_value_all_digits 0); by rewrite Hval).
  unfold py_int. rewrite ascii_form_ascii by by apply digits_are_ascii.
  rewrite strip_no_space by by apply digits_no_space.
  destruct s as [|c s]; [done|]. simpl list_ascii_of_string.
  simpl in Hdigits. apply andb_true_iff in Hdigits as [Hc Hs].
  apply bool_decide_eq_true in Hc as [d Hd].
  assert (int_digits 0 false (c :: list_ascii_of_string s) = Some n) as Hint.
  { simpl. rewrite (digit_is_no_underscore c) by by eexists.
    rewrite Hd, int_digits_of_digits by done.
    simpl in Hval. by rewrite Hd in Hval. }
  destruct c as [[] [] [] [] [] [] [] []];
    try (exfalso; vm_compute in Hd; discriminate);
    by rewrite Hint.
Qed.

(** [int(str(n))] is [n]. *)
Lemma py_int_pretty (u : UnicodeData) (n : Z) : py_int u (pretty n) = Ok n.
Proof.
  destruct n as [|p|p].
  - reflexivity.
  - destruct (pretty_nonneg_digits (Z.pos p)) as [Hval Hne]; [lia|].
    by apply py_int_digits.
  - destruct (pretty_nonneg_digits (Z.pos p)) as [Hval Hne]; [lia|].
    change (pretty (Z.neg p)) with ("-" +:+ pretty (Z.pos p)).
    assert (all_digits (pretty (Z.pos p)) = true) as Hdigits
      by (apply (digits_value_all_digits 0); by rewrite Hval).
    unfold py_int. change ("-" +:+ ?s) with (String "-" s).
    rewrite ascii_form_ascii
      by (unfold is_ascii; simpl; by apply digits_are_ascii).
    rewrite strip_no_space.
    + simpl list_ascii_of_string. cbv iota.
      destruct (pretty (Z.pos p)) as [|c s] eqn:Hp; [done|].
      simpl in Hdigits. apply andb_true_iff in Hdigits as [Hc Hs].
      apply bool_decide_eq_true in Hc.
      simpl. rewrite (digit_is_no_underscore c Hc). destruct Hc as [d Hd].
      rewrite Hd, int_digits_of_digits by done.
      simpl in Hval. rewrite Hd in Hval. by rewrite Hval.
    + simpl. constructor; [done|]. by apply digits_no_space.
Qed.

Lemma int_arg_reads (u : UnicodeData) (request : Request) (key : string)
    (default n : Z) :
  reads_as request key default n -> int_arg u request key default = Ok n.
Proof.
  unfold int_arg. intros [->|[-> ->]]; [apply py_int_pretty|done].
Qed.

(** ** The paginated list view *)


Lemma eval_lines_no_list_orders cat image items :
  Forall (fun c => is_list_orders_call c = false) (snd (eval_lines cat image items)).
Proof.
  induction items as [|item rest IH]; simpl; [constructor|].
  destruct (cat !! od_product_id item); [|by repeat constructor].
  destruct (eval_lines cat image rest) as [res cs]. simpl in *.
  by constructor.
Qed.

Lemma eval_orders_no_list_orders cat image orders :
  Forall (fun c => is_list_orders_call c = false) (snd (eval_orders cat image orders)).
Proof.
  induction orders as [|order rest IH]; simpl; [constructor|].
  pose proof (eval_lines_no_list_orders cat image (o_order_details order)) as Hl.
  destruct (eval_lines cat image (o_order_details order)) as [[items|e] cs];
    simpl in *; [|done].
  destruct (eval_orders cat image rest) as [res cs']. simpl in *.
  by apply Forall_app.
Qed.

Lemma list_orders_page_eval (page limit : Z) (w : World) :
  gateway_list_orders_page page limit w
  = let skip := (page - 1) * limit in
    let '(res, cs) :=
      eval_orders (catalogue w) (fun _ => GatewayService.placeholder_image)
        (page_of skip limit w) in
    let calls :=
      [orders_list_orders skip limit;
       products_list
         (elements (GatewayService.collect_product_ids (page_of skip limit w)))]
      ++ cs in
    match res with
    | Raise e => (Raise e, with_calls calls w)
    | Ok orders' =>
        (match GatewayService.calculate_total_pages
                 (OrderStore.count (store w)) limit with
         | Ok n =>
             Ok {| total_orders := OrderStore.count (store w);
                   total_pages := n;
                   page := page;
                   orders := orders' |}
         | Raise e => Raise e
         end,
         with_calls (calls ++ [orders_count_orders]) w)
    end.
Proof.
  unfold gateway_list_orders_page, GatewayService._list_orders. cbv zeta.
  unfold bind at 1.
  change (GatewayService.fetch_orders gateway_orders_rpc gateway_products_rpc)
    with gateway_fetch_orders.
  rewrite fetch_orders_eval.
  destruct (eval_orders _ _ _) as [[orders'|e] cs]; simpl fst; simpl snd; [|done].
  unfold bind at 1.
  unfold GatewayService.calculate_total_orders, gateway_orders_rpc, remote_call.
  simpl. unfold bind, lift, ret.
  rewrite with_calls_app.
  by destruct (GatewayService.calculate_total_pages _ limit).
Qed.

Lemma list_orders_eval (u : UnicodeData) (request : Request) (w : World) :
  gateway_list_orders u request w
  = match int_arg u request "page" 1 with
    | Raise e => (Raise e, w)
    | Ok page =>
        match int_arg u request "limit" 50 with
        | Raise e => (Raise e, w)
        | Ok limit => json_response (gateway_list_orders_page page limit w)
        end
    end.
Proof.
  unfold gateway_list_orders, GatewayService.list_orders.
  unfold bind at 1. unfold lift at 1.
  destruct (int_arg u request "page" 1) as [page|e]; [|done].
  unfold bind at 1. unfold lift at 1.
  destruct (int_arg u request "limit" 50) as [limit|e]; [|done].
  unfold bind, json_response, gateway_list_orders_page.
  by destruct (GatewayService._list_orders _ _ page limit w) as [[env|e] w'].
Qed.

Lemma list_orders_page_first_call (page limit : Z) (w : World) :
  exists others : list RpcCall,
    rpc_calls (snd (gateway_list_orders_page page limit w))
    = rpc_calls w ++ orders_list_orders ((page - 1) * limit) limit :: others
    /\ Forall (fun c => is_list_orders_call c = false) others.
Proof.
  rewrite list_orders_page_eval. cbv zeta.
  pose proof (eval_orders_no_list_orders (catalogue w)
                (fun _ => GatewayService.placeholder_image)
                (page_of ((page - 1) * limit) limit w)) as Hcalls.
  destruct (eval_orders _ _ _) as [[orders'|e] cs]; simpl in *.
  - eexists. split; [done|]. constructor; [done|].
    apply Forall_app. split; [done|]. by repeat constructor.
  - eexists. split; [done|]. by constructor.
Qed.

Lemma list_orders_page_envelope (requested limit : Z) (w w' : World)
    (envelope : OrdersPage) :
  gateway_list_orders_page requested limit w = (Ok envelope, w') ->
  page envelope = requested
  /\ total_orders envelope = OrderStore.count (store w)
  /\ GatewayService.calculate_total_pages (total_orders envelope) limit
     = Ok (total_pages envelope)
  /\ fst (gateway_fetch_orders ((requested - 1) * limit) limit w)
     = Ok (orders envelope).
Proof.
  rewrite list_orders_page_eval, fetch_orders_eval. cbv zeta.
  destruct (eval_orders _ _ _) as [[orders'|e] cs]; [|done].
  destruct (GatewayService.calculate_total_pages _ limit) as [n|e] eqn:Hpages;
    [|done].
  by intros [= <- <-].
Qed.

(** C4.  For every [page] and [limit], a request to the entry point
    [list_orders] that gives them in its query string, in decimal, or leaves
    one or both out, where the page is 1 and the limit 50, is answered as
    [_list_orders] answers that page and limit, and [_list_orders] asks the
    order service for its orders once, with [skip = (page - 1) * limit] and
    the same [limit], before any other call.  The dictionary it returns,
    which is the body of the response (status 200), has the four fields
    [total_orders] (the order service's count), [total_pages] (what
    [calculate_total_pages] makes of the count and the limit), [page] (the
    requested page) and [orders] (what [fetch_orders] returns for that skip
    and limit); it does return when the limit is not zero and every line of
    the page names an existing product.  A request without the query
    parameters [page] and [limit] asks for skip 0 and limit 50. *)
Theorem list_orders_requests_page_and_builds_envelope :
  (forall (page limit : Z) (w : World),
      exists others : list RpcCall,
        rpc_calls (snd (gateway_list_orders_page page limit w))
        = rpc_calls w ++ orders_list_orders ((page - 1) * limit) limit :: others
        /\ Forall (fun c => is_list_orders_call c = false) others)
  /\ (forall (requested limit : Z) (w w' : World) (envelope : OrdersPage),
        gateway_list_orders_page requested limit w = (Ok envelope, w') ->
        page envelope = requested
        /\ total_orders envelope = OrderStore.count (store w)
        /\ GatewayService.calculate_total_pages (total_orders envelope) limit
           = Ok (total_pages envelope)
        /\ fst (gateway_fetch_orders ((requested - 1) * limit) limit w)
           = Ok (orders envelope))
  /\ (forall (page limit : Z) (w : World),
        limit <> 0 ->
        Forall (fun order =>
                  Forall (fun item => is_Some (catalogue w !! od_product_id item))
                         (o_order_details order))
               (page_of ((page - 1) * limit) limit w) ->
        is_ok (fst (gateway_list_orders_page page limit w)) = true)
  /\ (forall (u : UnicodeData) (request : Request) (requested limit : Z)
             (w : World),
        reads_as request "page" 1 requested ->
        reads_as request "limit" 50 limit ->
        gateway_list_orders u request w
        = json_response (gateway_list_orders_page requested limit w)
        /\ (exists others : list RpcCall,
              rpc_calls (snd (gateway_list_orders u request w))
              = rpc_calls w
                ++ orders_list_orders ((requested - 1) * limit) limit :: others
              /\ Forall (fun c => is_list_orders_call c = false) others)
        /\ (forall (response : Response OrdersPage) (w' : World),
              gateway_list_orders u request w = (Ok response, w') ->
              status response = 200
              /\ page (body response) = requested
              /\ total_orders (body response) = OrderStore.count (store w)
              /\ GatewayService.calculate_total_pages
                   (total_orders (body response)) limit
                 = Ok (total_pages (body response))
              /\ fst (gateway_fetch_orders ((requested - 1) * limit) limit w)
                 = Ok (orders (body response))))
  /\ (forall (u : UnicodeData) (request : Request) (w : World),
        args_get (args request) "page" = None ->
        args_get (args request) "limit" = None ->
        gateway_list_orders u request w
        = json_response (gateway_list_orders_page 1 50 w)
        /\ exists others : list RpcCall,
             rpc_calls (snd (gateway_list_orders u request w))
             = rpc_calls w ++ orders_list_orders 0 50 :: others).
Proof.
  assert (forall (u : UnicodeData) (request : Request) (requested limit : Z)
                 (w : World),
             reads_as request "page" 1 requested ->
             reads_as request "limit" 50 limit ->
             gateway_list_orders u request w
             = json_response (gateway_list_orders_page requested limit w))
    as Hreads.
  { intros u request requested limit w Hpage Hlimit.
    rewrite list_orders_eval.
    by rewrite (int_arg_reads u _ _ _ _ Hpage), (int_arg_reads u _ _ _ _ Hlimit). }
  assert (forall (page limit : Z) (w : World),
             rpc_calls (snd (json_response (gateway_list_orders_page page limit w)))
             = rpc_calls (snd (gateway_list_orders_page page limit w))) as Hsnd.
  { intros page limit w.
    by destruct (gateway_list_orders_page page limit w) as [[env|e] w']. }
  split; [|split; [|split; [|split]]].
  - apply list_orders_page_first_call.
  - apply list_orders_page_envelope.
  - intros page limit w Hlimit Hpresent. rewrite list_orders_page_eval. cbv zeta.
    apply (eval_orders_present _ (fun _ => GatewayService.placeholder_image))
      in Hpresent.
    destruct (eval_orders _ _ _) as [[orders'|e] cs]; [|done]. simpl.
    unfold GatewayService.calculate_total_pages. by rewrite floordiv_ok.
  - intros u request requested limit w Hpage Hlimit.
    rewrite (Hreads u request requested limit w Hpage Hlimit).
    split; [done|]. split.
    + rewrite Hsnd. apply list_orders_page_first_call.
    + intros response w'.
      destruct (gateway_list_orders_page requested limit w)
        as [[envelope|e] w1] eqn:Hpage_of; [|done].
      simpl. intros [= <- <-]. simpl. split; [done|].
      by apply (list_orders_page_envelope requested limit w w1).
  - intros u request w Hpage Hlimit.
    assert (gateway_list_orders u request w
            = json_response (gateway_list_orders_page 1 50 w)) as Heq.
    { apply Hreads; right; by split. }
    split; [exact Heq|]. rewrite Heq, Hsnd.
    destruct (list_orders_page_first_call 1 50 w) as (others & Hcalls & _).
    by exists others.
Qed.

Lemma list_orders_requests_page_and_builds_envelope_witness :
  let request := mkRequest [("limit", "1"); ("page", "2")] in
  reads_as request "page" 1 2
  /\ reads_as request "limit" 50 1
  /\ gateway_list_orders sample_unicode_data request sample_world
     = json_response (gateway_list_orders_page 2 1 sample_world)
  /\ exists others : list RpcCall,
       rpc_calls (snd (gateway_list_orders sample_unicode_data request sample_world))
       = rpc_calls sample_world ++ orders_list_orders ((2 - 1) * 1) 1 :: others
       /\ Forall (fun c => is_list_orders_call c = false) others.
Proof.
  intros request.
  assert (reads_as request "page" 1 2) as Hpage by (by left).
  assert (reads_as request "limit" 50 1) as Hlimit by (by left).
  split; [exact Hpage|]. split; [exact Hlimit|].
  destruct (proj1 (proj2 (proj2 (proj2
              list_orders_requests_page_and_builds_envelope)))
              sample_unicode_data request 2 1 sample_world Hpage Hlimit)
    as (Heq & Hcalls & _).
  split; [exact Heq|exact Hcalls].
Defined.

(** The request [?page=2&limit=1] on a store with one order: the order
    service is asked for skip 1 and limit 1, and the page is empty. *)
Example list_orders_second_page_of_one :
  gateway_list_orders sample_unicode_data
    (mkRequest [("page", "2"); ("limit", "1")]) sample_world
  = (Ok (mkResponse 200 "application/json"
           {| total_orders := 1; total_pages := 1; page := 2; orders := [] |}),
     with_calls [orders_list_orders 1 1; products_list []; orders_count_orders]
       sample_world).
Proof. reflexivity. Qed.

Lemma page_of_limit_zero (skip : Z) (w : World) : page_of skip 0 w = [].
Proof. reflexivity. Qed.

(** C10.  For a positive limit the division of [calculate_total_pages] is
    defined: the function returns.  For a limit of zero it raises
    [ZeroDivisionError], and the entry point [list_orders] passes the limit
    of the query string on unchecked: a request with [limit=0] (and a page
    that is omitted or an integer) asks the order service for no orders,
    counts them, and ends in [ZeroDivisionError], not in a response. *)
Theorem list_orders_divides_by_unchecked_limit :
  (forall total_orders limit : Z,
      0 < limit ->
      GatewayService.calculate_total_pages total_orders limit
      = Ok ((total_orders + limit - 1) / limit))
  /\ (forall total_orders : Z,
        GatewayService.calculate_total_pages total_orders 0 = Raise ZeroDivisionError)
  /\ (forall (u : UnicodeData) (request : Request) (w : World)
             (limit : string) (page : Z),
        args_get (args request) "limit" = Some limit ->
        py_int u limit = Ok 0 ->
        int_arg u request "page" 1 = Ok page ->
        gateway_list_orders u request w
        = (Raise ZeroDivisionError,
           with_calls [orders_list_orders 0 0; products_list [];
                       orders_count_orders] w))
  /\ (forall (u : UnicodeData) (w : World),
        fst (gateway_list_orders u (mkRequest [("limit", "0")]) w)
        = Raise ZeroDivisionError).
Proof.
  assert (forall (u : UnicodeData) (request : Request) (w : World)
                 (limit : string) (page : Z),
        args_get (args request) "limit" = Some limit ->
        py_int u limit = Ok 0 ->
        int_arg u request "page" 1 = Ok page ->
        gateway_list_orders u request w
        = (Raise ZeroDivisionError,
           with_calls [orders_list_orders 0 0; products_list [];
                       orders_count_orders] w)) as Hzero.
  { intros u request w limit page Hlimit Hint Hpage.
    rewrite list_orders_eval, Hpage. unfold int_arg at 1. rewrite Hlimit, Hint.
    rewrite list_orders_page_eval. cbv zeta.
    replace ((page - 1) * 0) with 0 by lia.
    rewrite page_of_limit_zero. reflexivity. }
  split; [|split; [|split]].
  - intros total_orders limit Hlimit.
    unfold GatewayService.calculate_total_pages. apply floordiv_ok. lia.
  - reflexivity.
  - exact Hzero.
  - intros u w. by rewrite (Hzero u _ w "0" 1).
Qed.

Lemma list_orders_divides_by_unchecked_limit_witness :
  let request := mkRequest [("page", "2"); ("limit", " 0 ")] in
  args_get (args request) "limit" = Some " 0 "
  /\ py_int sample_unicode_data " 0 " = Ok 0
  /\ int_arg sample_unicode_data request "page" 1 = Ok 2
  /\ gateway_list_orders sample_unicode_data request sample_world
     = (Raise ZeroDivisionError,
        with_calls [orders_list_orders 0 0; products_list [];
                    orders_count_orders] sample_world).
Proof.
  intros request. split; [reflexivity|]. split; [reflexivity|].
  split; [reflexivity|].
  apply (proj1 (proj2 (proj2 list_orders_divides_by_unchecked_limit))
           sample_unicode_data request sample_world " 0 " 2); reflexivity.
Defined.

(** * Further properties of the gateway *)

(** ** The page count *)

(** X1.  For a positive limit, [calculate_total_pages] counts no page exactly
    when there is no order, never counts fewer pages when there are more
    orders, and never counts more pages when the limit is larger. *)
Theorem total_pages_zero_and_monotone (total_orders total_orders' limit limit' : Z) :
  0 <= total_orders -> total_orders <= total_orders' ->
  0 < limit -> limit <= limit' ->
  exists n n' m : Z,
    GatewayService.calculate_total_pages total_orders limit = Ok n
    /\ GatewayService.calculate_total_pages total_orders' limit = Ok n'
    /\ GatewayService.calculate_total_pages total_orders limit' = Ok m
    /\ (n = 0 <-> total_orders = 0)
    /\ n <= n'
    /\ m <= n.
Proof.
  intros Ht Htt Hl Hll.
  unfold GatewayService.calculate_total_pages.
  rewrite !floordiv_ok by lia.
  eexists _, _, _. repeat (split; [reflexivity|]).
  pose proof (ceiling_of_quotient_div total_orders limit Hl) as [H1 H2].
  pose proof (ceiling_of_quotient_div total_orders limit' ltac:(lia)) as [H3 H4].
  split; [|split].
  - split; intros H; [rewrite H in *; lia|subst; apply Z.div_small; lia].
  - apply Z.div_le_mono; lia.
  - set (n := (total_orders + limit - 1) / limit) in *.
    set (m := (total_orders + limit' - 1) / limit') in *.
    assert (0 <= n) by nia.
    destruct (Z_le_gt_dec m n) as [Hle|Hgt]; [exact Hle|].
    assert (n * limit <= n * limit') by nia.
    assert (n * limit' <= (m - 1) * limit') by nia.
    lia.
Qed.

Lemma total_pages_zero_and_monotone_witness :
  0 <= 6 /\ 6 <= 11 /\ 0 < 5 /\ 5 <= 6
  /\ exists n n' m : Z,
       GatewayService.calculate_total_pages 6 5 = Ok n
       /\ GatewayService.calculate_total_pages 11 5 = Ok n'
       /\ GatewayService.calculate_total_pages 6 6 = Ok m
       /\ (n = 0 <-> 6 = 0)
       /\ n <= n'
       /\ m <= n.
Proof.
  repeat (split; [lia|]).
  apply (total_pages_zero_and_monotone 6 11 5 6); lia.
Defined.

(** X2.  A negative limit is not an error for [calculate_total_pages]: it
    returns, and what it returns is no page count: at most 2, and zero or
    less as soon as there are two orders. *)
Theorem total_pages_of_negative_limit (total_orders limit : Z) :
  0 <= total_orders -> limit < 0 ->
  exists n : Z,
    GatewayService.calculate_total_pages total_orders limit = Ok n
    /\ n <= 2
    /\ (2 <= total_orders -> n <= 0).
Proof.
  intros Ht Hl. unfold GatewayService.calculate_total_pages.
  rewrite floordiv_ok by lia. eexists. split; [reflexivity|].
  pose proof (Z.div_mod (total_orders + limit - 1) limit ltac:(lia)) as Hdm.
  pose proof (Z.mod_neg_bound (total_orders + limit - 1) limit Hl) as Hb.
  set (q := (total_orders + limit - 1) / limit) in *.
  split; [nia|]. intros H2. nia.
Qed.

Lemma total_pages_of_negative_limit_witness :
  0 <= 7 /\ -3 < 0
  /\ exists n : Z,
       GatewayService.calculate_total_pages 7 (-3) = Ok n
       /\ n <= 2
       /\ (2 <= 7 -> n <= 0).
Proof.
  split; [lia|]. split; [lia|].
  apply (total_pages_of_negative_limit 7 (-3)); lia.
Defined.

(** ** The views read, and do nothing else *)

Lemma only_calls_with_calls (cs : list RpcCall) (w : World) :
  only_calls w (with_calls cs w).
Proof. repeat split. by exists cs. Qed.

Lemma only_calls_refl (w : World) : only_calls w w.
Proof. repeat split. exists []. by rewrite app_nil_r. Qed.

Lemma get_order_eval_config (config : gmap string string) (id : Z) (w : World) :
  gateway_get_order config id w
  = match OrderStore.get id (store w) with
    | Raise _ =>
        (Raise (OrderNotFound (OrdersService.not_found_message id)),
         with_calls [orders_get_order id] w)
    | Ok order =>
        match config !! "PRODUCT_IMAGE_ROOT" with
        | None =>
            (Raise (KeyError "PRODUCT_IMAGE_ROOT"),
             with_calls [orders_get_order id] w)
        | Some image_root =>
            let view := OrdersService.serialize_order order in
            let '(res, cs) :=
              eval_lines (catalogue w) (image_url image_root)
                (o_order_details view) in
            (match res with
             | Ok items => Ok (GatewayService.with_details view items)
             | Raise e => Raise e
             end, with_calls (orders_get_order id :: cs) w)
        end
    end.
Proof.
  destruct (config !! "PRODUCT_IMAGE_ROOT") as [image_root|] eqn:Hroot.
  - rewrite (get_order_eval _ _ _ _ Hroot).
    by destruct (OrderStore.get id (store w)).
  - unfold gateway_get_order, GatewayService._get_order.
    unfold bind at 1. rewrite remote_get_order_eval.
    destruct (OrderStore.get id (store w)) as [order|e]; [|done].
    unfold bind at 1. unfold lift, getitem. by rewrite Hroot.
Qed.

(** X3.  The read views of the gateway, [_get_order], [fetch_orders],
    [_list_orders] and [list_orders], change nothing: whether they return
    or raise, the catalogue, the stored orders and the published events are
    what they were, and only calls have been made. *)
Theorem views_only_make_calls :
  (forall (config : gmap string string) (id : Z) (w : World),
      only_calls w (snd (gateway_get_order config id w)))
  /\ (forall (skip limit : Z) (w : World),
        only_calls w (snd (gateway_fetch_orders skip limit w)))
  /\ (forall (page limit : Z) (w : World),
        only_calls w (snd (gateway_list_orders_page page limit w)))
  /\ (forall (u : UnicodeData) (request : Request) (w : World),
        only_calls w (snd (gateway_list_orders u request w))).
Proof.
  assert (forall (page limit : Z) (w : World),
             only_calls w (snd (gateway_list_orders_page page limit w))) as Hpage.
  { intros page limit w. rewrite list_orders_page_eval. cbv zeta.
    destruct (eval_orders _ _ _) as [[orders'|e] cs]; simpl;
      apply only_calls_with_calls. }
  split; [|split; [|split]].
  - intros config id w. rewrite get_order_eval_config.
    destruct (OrderStore.get id (store w)) as [order|e];
      [|apply only_calls_with_calls].
    destruct (config !! "PRODUCT_IMAGE_ROOT"); [|apply only_calls_with_calls].
    cbv zeta. destruct (eval_lines _ _ _) as [res cs]. simpl.
    apply only_calls_with_calls.
  - intros skip limit w. rewrite fetch_orders_eval. simpl.
    apply only_calls_with_calls.
  - exact Hpage.
  - intros u request w. rewrite list_orders_eval.
    destruct (int_arg u request "page" 1) as [page|e]; [|apply only_calls_refl].
    destruct (int_arg u request "limit" 50) as [limit|e]; [|apply only_calls_refl].
    specialize (Hpage page limit w).
    by destruct (gateway_list_orders_page page limit w) as [[env|e] w'].
Qed.

(** ** The single-order view: missing setting, missing product *)

(** X4.  Without the setting [PRODUCT_IMAGE_ROOT], [_get_order] fails for
    every existing order with [KeyError], after it has asked the order
    service and before it asks for any product; for an order that does not
    exist the order service's [OrderNotFound] comes first. *)
Theorem get_order_without_image_root
    (config : gmap string string) (id : Z) (w : World) :
  config !! "PRODUCT_IMAGE_ROOT" = None ->
  (forall order : Order,
      OrderStore.get id (store w) = Ok order ->
      gateway_get_order config id w
      = (Raise (KeyError "PRODUCT_IMAGE_ROOT"), with_calls [orders_get_order id] w))
  /\ (id ∉ map order_id (rows (store w)) ->
      gateway_get_order config id w
      = (Raise (OrderNotFound ("Order with id " +:+ pretty id +:+ " not found")),
         with_calls [orders_get_order id] w)).
Proof.
  intros Hroot. rewrite get_order_eval_config, Hroot. split.
  - by intros order ->.
  - intros Habsent. by rewrite get_absent.
Qed.

Lemma get_order_without_image_root_witness :
  (∅ : gmap string string) !! "PRODUCT_IMAGE_ROOT" = None
  /\ OrderStore.get 1 (store sample_world) = Ok sample_order
  /\ gateway_get_order ∅ 1 sample_world
     = (Raise (KeyError "PRODUCT_IMAGE_ROOT"),
        with_calls [orders_get_order 1] sample_world).
Proof.
  assert ((∅ : gmap string string) !! "PRODUCT_IMAGE_ROOT" = None) as Hroot
    by apply lookup_empty.
  split; [exact Hroot|]. split; [reflexivity|].
  apply (proj1 (get_order_without_image_root ∅ 1 sample_world Hroot)
           sample_order eq_refl).
Defined.

Lemma eval_lines_first_missing cat image before item after :
  Forall (fun i => is_Some (cat !! od_product_id i)) before ->
  cat !! od_product_id item = None ->
  eval_lines cat image (before ++ item :: after)
  = (Raise (ProductNotFound (od_product_id item)),
     map products_get (map od_product_id (before ++ [item]))).
Proof.
  intros Hbefore Hitem. induction Hbefore as [|i rest [r Hr] _ IH]; simpl.
  - by rewrite Hitem.
  - by rewrite Hr, IH.
Qed.

(** X5.  [_get_order] stops at the first line whose product is missing: it
    fails with [ProductNotFound] for that line, and the products it has
    asked for are those of the lines up to and including that one, each
    once and in order, and none of the lines after it. *)
Theorem get_order_stops_at_first_missing_product
    (config : gmap string string) (image_root : string) (id : Z) (w : World)
    (order : Order) (before after : list OrderDetail) (line : OrderDetail) :
  config !! "PRODUCT_IMAGE_ROOT" = Some image_root ->
  OrderStore.get id (store w) = Ok order ->
  order_details order = before ++ line :: after ->
  Forall (fun d => is_Some (catalogue w !! product_id d)) before ->
  catalogue w !! product_id line = None ->
  exists msg : string,
    gateway_get_order config id w
    = (Raise (ProductNotFound msg),
       with_calls (orders_get_order id
                     :: map products_get (map product_id (before ++ [line]))) w).
Proof.
  intros Hroot Hget Hlines Hbefore Hline.
  rewrite get_order_eval_config, Hget, Hroot. cbv zeta. simpl o_order_details.
  rewrite Hlines, map_app. simpl map.
  rewrite (eval_lines_first_missing _ _ (map OrdersService.serialize_detail before)).
  - exists (product_id line). simpl. do 3 f_equal.
    rewrite !map_app, serialized_product_ids. reflexivity.
  - apply Forall_fmap. eapply Forall_impl; [done|]. by intros d.
  - done.
Qed.


Lemma get_order_stops_at_first_missing_product_witness :
  sample_config !! "PRODUCT_IMAGE_ROOT"
    = Some "http://www.example.com/airship/images"
  /\ OrderStore.get 1 (store odyssey_only) = Ok sample_order
  /\ catalogue odyssey_only !! "the_enigma" = None
  /\ exists msg : string,
       gateway_get_order sample_config 1 odyssey_only
       = (Raise (ProductNotFound msg),
          with_calls [orders_get_order 1; products_get "the_odyssey";
                      products_get "the_enigma"] odyssey_only).
Proof.
  assert (sample_config !! "PRODUCT_IMAGE_ROOT"
          = Some "http://www.example.com/airship/images") as Hroot by reflexivity.
  assert (catalogue odyssey_only !! "the_enigma" = None) as Hmissing
    by apply lookup_delete_eq.
  split; [exact Hroot|]. split; [reflexivity|]. split; [exact Hmissing|].
  apply (get_order_stops_at_first_missing_product sample_config _ 1 odyssey_only
           sample_order
           [mkOrderDetail 1 "the_odyssey" (mkDecimal 9999 2) 1] []
           (mkOrderDetail 2 "the_enigma" (mkDecimal 599 2) 8)
           Hroot eq_refl eq_refl); [|exact Hmissing].
  by_computation.
Defined.

(** ** The list view: the batch call, and a missing product *)

Lemma collect_line_ids (ids : gset string) (items : list OrderDetailDict) (pid : string) :
  pid ∈ foldl (fun ids item => ids ∪ {[ od_product_id item ]}) ids items
  <-> pid ∈ ids \/ pid ∈ map od_product_id items.
Proof.
  revert ids. induction items as [|item rest IH]; intros ids; simpl.
  - split; [by left|]. intros [H|H]; [done|]. by apply elem_of_nil in H.
  - rewrite IH, elem_of_union, elem_of_singleton, elem_of_cons. tauto.
Qed.

Lemma collect_order_ids (ids : gset string) (orders : list OrderDict) (pid : string) :
  pid ∈ foldl
          (fun ids order =>
             foldl (fun ids item => ids ∪ {[ od_product_id item ]})
                   ids (o_order_details order))
          ids orders
  <-> pid ∈ ids \/ pid ∈ line_product_ids orders.
Proof.
  revert ids. induction orders as [|order rest IH]; intros ids; simpl.
  - split; [by left|]. intros [H|H]; [done|]. by apply elem_of_nil in H.
  - rewrite IH, collect_line_ids. unfold line_product_ids. simpl.
    rewrite elem_of_app. tauto.
Qed.

(** X6.  The product ids that [fetch_orders] passes to the batch [list] call
    are the product ids of the lines of the page, each of them once, however
    many lines name it. *)
Theorem batch_call_lists_each_product_once (orders : list OrderDict) :
  NoDup (elements (GatewayService.collect_product_ids orders))
  /\ forall pid : string,
       pid ∈ elements (GatewayService.collect_product_ids orders)
       <-> pid ∈ line_product_ids orders.
Proof.
  split; [apply NoDup_elements|].
  intros pid. rewrite elem_of_elements.
  unfold GatewayService.collect_product_ids. rewrite collect_order_ids.
  split; [intros [H|H]; [by apply elem_of_empty in H|done]|by right].
Qed.


Lemma eval_lines_gets cat image items :
  Forall (fun c => is_products_get c = true) (snd (eval_lines cat image items)).
Proof.
  induction items as [|item rest IH]; simpl; [constructor|].
  destruct (cat !! od_product_id item); [|by repeat constructor].
  destruct (eval_lines cat image rest) as [res cs]. simpl in *.
  by constructor.
Qed.

Lemma eval_orders_gets cat image orders :
  Forall (fun c => is_products_get c = true) (snd (eval_orders cat image orders)).
Proof.
  induction orders as [|order rest IH]; simpl; [constructor|].
  pose proof (eval_lines_gets cat image (o_order_details order)) as Hl.
  destruct (eval_lines cat image (o_order_details order)) as [[items|e] cs];
    simpl in *; [|done].
  destruct (eval_orders cat image rest) as [res cs']. simpl in *.
  by apply Forall_app.
Qed.

Lemma eval_orders_missing cat image orders :
  some_product_missing cat orders ->
  exists (pid : string) (cs : list RpcCall),
    eval_orders cat image orders = (Raise (ProductNotFound pid), cs)
    /\ cat !! pid = None
    /\ pid ∈ line_product_ids orders.
Proof.
  unfold some_product_missing.
  induction orders as [|order rest IH]; intros Hex; [by inversion Hex|].
  simpl. unfold line_product_ids. simpl. setoid_rewrite elem_of_app.
  destruct (Exists_dec (fun item => cat !! od_product_id item = None)
              (o_order_details order)) as [Hhere|Hnot].
  - destruct (eval_lines_missing cat image _ Hhere) as (pid & cs & -> & Hpid & Hin).
    exists pid, cs. split; [done|]. split; [done|]. by left.
  - inversion Hex as [? ? Hhead|? ? Hrest]; subst; [contradiction|].
    destruct (IH Hrest) as (pid & cs & Heval & Hpid & Hin).
    pose proof (eval_lines_present cat image (o_order_details order)) as Hok.
    destruct (eval_lines cat image (o_order_details order)) as [[items|e] cs0].
    + rewrite Heval. exists pid, (cs0 ++ cs). split; [done|]. split; [done|].
      by right.
    + simpl in Hok. discriminate Hok.
      apply Forall_forall. intros item Hitem.
      destruct (cat !! od_product_id item) eqn:Hi; [by eexists|].
      destruct Hnot. apply Exists_exists. by exists item.
Qed.

(** X7.  When a line of the requested page names a missing product,
    [_list_orders] fails as a whole with [ProductNotFound]: there is no
    partial page, and the order service is not even asked for the count. *)
Theorem list_orders_fails_before_counting (page limit : Z) (w : World) :
  some_product_missing (catalogue w) (page_of ((page - 1) * limit) limit w) ->
  exists (pid : string) (calls : list RpcCall),
    gateway_list_orders_page page limit w
    = (Raise (ProductNotFound pid), with_calls calls w)
    /\ catalogue w !! pid = None
    /\ orders_count_orders ∉ calls.
Proof.
  intros Hmissing. rewrite list_orders_page_eval. cbv zeta.
  pose proof (eval_orders_gets (catalogue w)
                (fun _ => GatewayService.placeholder_image)
                (page_of ((page - 1) * limit) limit w)) as Hgets.
  destruct (eval_orders_missing _ (fun _ => GatewayService.placeholder_image) _
              Hmissing) as (pid & cs & Heval & Hpid & _).
  rewrite Heval in *. simpl in Hgets.
  eexists pid, _. split; [reflexivity|]. split; [done|].
  simpl. rewrite !not_elem_of_cons. split; [done|]. split; [done|].
  intros Hin. rewrite Forall_forall in Hgets. by apply Hgets in Hin.
Qed.

Lemma list_orders_fails_before_counting_witness :
  some_product_missing (catalogue odyssey_only) (page_of ((1 - 1) * 50) 50 odyssey_only)
  /\ exists (pid : string) (calls : list RpcCall),
       gateway_list_orders_page 1 50 odyssey_only
       = (Raise (ProductNotFound pid), with_calls calls odyssey_only)
       /\ catalogue odyssey_only !! pid = None
       /\ orders_count_orders ∉ calls.
Proof.
  assert (some_product_missing (catalogue odyssey_only)
            (page_of ((1 - 1) * 50) 50 odyssey_only)) as Hmissing.
  { unfold some_product_missing. by_computation. }
  split; [exact Hmissing|].
  exact (list_orders_fails_before_counting 1 50 odyssey_only Hmissing).
Defined.

(** ** Paging through the orders *)

Lemma chunks_take {A} (k : nat) (l : list A) (m : nat) :
  concat ((fun i => take k (drop (i * k) l)) <$> seq 0 m) = take (m * k) l.
Proof.
  induction m as [|m IH]; [done|].
  rewrite seq_S, fmap_app, concat_app, IH. simpl.
  rewrite app_nil_r, take_take_drop. f_equal. lia.
Qed.

Lemma page_of_ids (skip limit : Z) (w : World) :
  map o_id (page_of skip limit w)
  = map order_id (take (Z.to_nat limit) (drop (Z.to_nat skip) (rows (store w)))).
Proof. unfold page_of, OrderStore.list. simpl. by rewrite map_map. Qed.

Lemma page_of_present (skip limit : Z) (w : World) :
  all_lines_have_products w ->
  Forall (fun order =>
            Forall (fun item => is_Some (catalogue w !! od_product_id item))
                   (o_order_details order))
         (page_of skip limit w).
Proof.
  intros Hall. unfold page_of, OrderStore.list. simpl.
  apply Forall_fmap. apply Forall_take, Forall_drop.
  eapply Forall_impl; [exact Hall|]. intros o Ho. simpl.
  apply Forall_fmap. eapply Forall_impl; [exact Ho|]. by intros d.
Qed.

Lemma enriched_order_ids cat image orders orders' :
  Forall2 (enriched_order cat image) orders orders' ->
  map o_id orders' = map o_id orders.
Proof.
  induction 1 as [|o o' l l' [Hid _] _ IH]; simpl; [done|]. by rewrite Hid, IH.
Qed.

Lemma listed_ids_eval (page limit : Z) (w : World) :
  limit <> 0 -> all_lines_have_products w ->
  listed_ids page limit w
  = map order_id (take (Z.to_nat limit)
                       (drop (Z.to_nat ((page - 1) * limit)) (rows (store w)))).
Proof.
  intros Hlimit Hall. unfold listed_ids.
  rewrite list_orders_page_eval. cbv zeta.
  pose proof (eval_orders_present (catalogue w)
                (fun _ => GatewayService.placeholder_image) _
                (page_of_present ((page - 1) * limit) limit w Hall)) as Hok.
  destruct (eval_orders _ _ _) as [[orders'|e] cs] eqn:Heval; [|done].
  apply eval_orders_calls_ok in Heval as [Hpage _].
  unfold GatewayService.calculate_total_pages. rewrite floordiv_ok by done.
  simpl. by rewrite (enriched_order_ids _ _ _ _ Hpage), page_of_ids.
Qed.

(** X8.  With a positive limit and every product in the catalogue, paging
    through [_list_orders] from page 1 to [total_pages] shows every stored
    order exactly once, in creation order; the last of these pages is not
    empty when there is an order, and every later page is empty. *)
Theorem paging_shows_every_order_once (limit : Z) (w : World) :
  0 < limit -> all_lines_have_products w ->
  exists n : Z,
    GatewayService.calculate_total_pages (OrderStore.count (store w)) limit = Ok n
    /\ concat ((fun p => listed_ids p limit w) <$> seqZ 1 n)
       = map order_id (rows (store w))
    /\ (0 < OrderStore.count (store w) -> listed_ids n limit w <> [])
    /\ (forall p : Z, n < p -> listed_ids p limit w = []).
Proof.
  intros Hlimit Hall.
  set (l := rows (store w)). set (k := Z.to_nat limit).
  exists ((OrderStore.count (store w) + limit - 1) / limit).
  pose proof (ceiling_of_quotient_div (OrderStore.count (store w)) limit Hlimit)
    as [Hup Hlow].
  set (n := (OrderStore.count (store w) + limit - 1) / limit) in *.
  unfold OrderStore.count in *. fold l in Hup, Hlow |- *.
  assert (0 <= n) as Hn by nia.
  split; [|split; [|split]].
  - unfold GatewayService.calculate_total_pages. apply floordiv_ok. lia.
  - unfold seqZ. rewrite <- list_fmap_compose.
    trans (concat ((fun i => take k (drop (i * k) (order_id <$> l)))
                     <$> seq 0 (Z.to_nat n))).
    + f_equal. apply list_fmap_ext. intros i j Hi. simpl.
      rewrite listed_ids_eval by (done || lia). fold l k.
      change (map order_id ?x) with (order_id <$> x).
      rewrite fmap_take, fmap_drop. do 2 f_equal. nia.
    + rewrite chunks_take, take_ge; [done|]. rewrite length_fmap. nia.
  - intros Hcount. rewrite listed_ids_eval by (done || lia). fold l k.
    assert (Z.to_nat ((n - 1) * limit) < length l)%nat as Hskip by nia.
    destruct (drop (Z.to_nat ((n - 1) * limit)) l) as [|o rest] eqn:Hdrop.
    { apply (f_equal length) in Hdrop. rewrite length_drop in Hdrop.
      simpl in Hdrop. lia. }
    destruct k as [|k'] eqn:Hk; [lia|]. done.
  - intros p Hp. rewrite listed_ids_eval by (done || lia). fold l k.
    rewrite drop_ge; [by rewrite take_nil|]. nia.
Qed.

Lemma paging_shows_every_order_once_witness :
  0 < 1 /\ all_lines_have_products sample_world
  /\ exists n : Z,
       GatewayService.calculate_total_pages
         (OrderStore.count (store sample_world)) 1 = Ok n
       /\ concat ((fun p => listed_ids p 1 sample_world) <$> seqZ 1 n)
          = map order_id (rows (store sample_world))
       /\ (0 < OrderStore.count (store sample_world) ->
           listed_ids n 1 sample_world <> [])
       /\ (forall p : Z, n < p -> listed_ids p 1 sample_world = []).
Proof.
  assert (all_lines_have_products sample_world) as Hall.
  { unfold all_lines_have_products. by_computation. }
  split; [lia|]. split; [exact Hall|].
  apply (paging_shows_every_order_once 1 sample_world); [lia|exact Hall].
Defined.

(** ** Creating an order, and viewing it *)

Lemma load_dumped (details : list OrderLine) :
  traverse_option OrdersService.load_line (map dump_line details) = Some details.
Proof.
  induction details as [|d rest IH]; simpl; [done|].
  unfold OrdersService.load_line at 1. simpl.
  rewrite parse_serialize_price, IH. simpl. by destruct d.
Qed.

Lemma find_missing_none (cat : gmap string ProductRow) (details : list OrderLine) :
  Forall (fun d => is_Some (cat !! line_product_id d)) details ->
  List.find (fun d => missing cat (line_product_id d)) details = None.
Proof.
  induction 1 as [|d rest [r Hr] _ IH]; simpl; [done|].
  unfold missing at 1. by rewrite bool_decide_eq_false_2 by congruence.
Qed.

Lemma create_order_success_eval (details : list OrderLine) (w : World) :
  accepts_writes (store w) = true ->
  Forall (fun d => is_Some (catalogue w !! line_product_id d)) details ->
  gateway_create_order details w
  = let row := mkOrder (next_order_id (store w))
                 (OrderStore.number_details (next_detail_id (store w)) details) in
    (Ok (next_order_id (store w)),
     {| catalogue := catalogue w;
        store := {| rows := rows (store w) ++ [row];
                    next_order_id := next_order_id (store w) + 1;
                    next_detail_id :=
                      next_detail_id (store w) + Z.of_nat (length details);
                    accepts_writes := true |};
        dispatched := dispatched w
                      ++ [mkEvent "order_created" (OrdersService.serialize_order row)];
        rpc_calls := rpc_calls w
                     ++ [products_list (map line_product_id details);
                         orders_create_order (map dump_line details)] |}).
Proof.
  intros Hwrites Hpresent. unfold gateway_create_order.
  rewrite create_order_eval, find_missing_none by done. cbv zeta.
  unfold gateway_orders_rpc, remote_call. simpl remote_create_order. cbv beta.
  unfold OrdersService.create_order. rewrite load_dumped.
  unfold OrderStore.create. simpl store. rewrite Hwrites.
  unfold with_event, with_store, with_calls. simpl.
  by rewrite <- app_assoc.
Qed.

(** X10.  When every submitted line names an existing product and the order
    store takes the write, [_create_order] returns the id of a new order:
    the store has one more row, the last, which holds the submitted lines in
    their order with the submitted prices; one event has been published for
    it; and exactly two calls were made, the batch [list] of the product ids
    and [create_order] with the lines as dumped by the schema. *)
Theorem create_order_stores_the_submission (details : list OrderLine) (w : World) :
  accepts_writes (store w) = true ->
  Forall (fun d => is_Some (catalogue w !! line_product_id d)) details ->
  exists (row : Order) (w' : World),
    gateway_create_order details w = (Ok (order_id row), w')
    /\ rows (store w') = rows (store w) ++ [row]
    /\ Forall2 holds_line details (order_details row)
    /\ OrderStore.count (store w') = OrderStore.count (store w) + 1
    /\ catalogue w' = catalogue w
    /\ dispatched w'
       = dispatched w ++ [mkEvent "order_created" (OrdersService.serialize_order row)]
    /\ rpc_calls w'
       = rpc_calls w ++ [products_list (map line_product_id details);
                         orders_create_order (map dump_line details)].
Proof.
  intros Hwrites Hpresent.
  rewrite (create_order_success_eval details w Hwrites Hpresent). cbv zeta.
  eexists (mkOrder _ _), _. split; [reflexivity|]. simpl.
  split; [done|]. split; [apply number_details_lines|].
  split; [|done]. unfold OrderStore.count. simpl. rewrite length_app. simpl. lia.
Qed.

Lemma create_order_stores_the_submission_witness :
  let details := [ mkOrderLine "the_enigma" (mkDecimal 1250 2) 3 ] in
  accepts_writes (store sample_world) = true
  /\ Forall (fun d => is_Some (catalogue sample_world !! line_product_id d)) details
  /\ exists (row : Order) (w' : World),
       gateway_create_order details sample_world = (Ok (order_id row), w')
       /\ rows (store w') = rows (store sample_world) ++ [row]
       /\ Forall2 holds_line details (order_details row).
Proof.
  intros details.
  assert (Forall (fun d => is_Some (catalogue sample_world !! line_product_id d))
                 details) as Hpresent by by_computation.
  split; [reflexivity|]. split; [exact Hpresent|].
  destruct (create_order_stores_the_submission details sample_world eq_refl Hpresent)
    as (row & w' & Hcreate & Hrows & Hlines & _).
  by exists row, w'.
Defined.

Lemma eval_lines_Forall2 cat image items items' cs :
  eval_lines cat image items = (Ok items', cs) ->
  Forall2 (enriched cat image) items items'.
Proof. intros H. by apply eval_lines_calls_ok in H as [? _]. Qed.

(** X11.  An order created through [_create_order] can be viewed through
    [_get_order] under the id that was returned: the view has that id and
    shows the submitted lines in their order, each with its product id, its
    quantity, its price as a fixed-point string, the product of the
    catalogue and the image under the configured root. *)
Theorem created_order_can_be_viewed
    (config : gmap string string) (image_root : string)
    (details : list OrderLine) (w : World) :
  config !! "PRODUCT_IMAGE_ROOT" = Some image_root ->
  reachable (store w) ->
  accepts_writes (store w) = true ->
  Forall (fun d => is_Some (catalogue w !! line_product_id d)) details ->
  exists (id : Z) (w' w'' : World) (view : OrderDict),
    gateway_create_order details w = (Ok id, w')
    /\ gateway_get_order config id w' = (Ok view, w'')
    /\ o_id view = id
    /\ Forall2 (shows_line (catalogue w) image_root) details (o_order_details view).
Proof.
  intros Hroot Hreach Hwrites Hpresent. apply reachable_wf in Hreach as Hwf.
  rewrite (create_order_success_eval details w Hwrites Hpresent). cbv zeta.
  eexists _, _. 
  set (row := mkOrder (next_order_id (store w))
                (OrderStore.number_details (next_detail_id (store w)) details)).
  set (w' := mkWorld _ _ _ _).
  assert (OrderStore.get (next_order_id (store w)) (store w') = Ok row) as Hget.
  { unfold OrderStore.get, OrderStore.lookup. simpl.
    by rewrite (lookup_new_row (store w) row). }
  rewrite (get_order_eval _ _ _ _ Hroot), Hget. cbv zeta.
  pose proof (eval_lines_present (catalogue w') (image_url image_root)
                (o_order_details (OrdersService.serialize_order row))) as Hok.
  destruct (eval_lines _ _ _) as [[items|e] cs] eqn:Heval.
  - eexists _, _. split; [reflexivity|]. split; [reflexivity|]. split; [done|].
    apply eval_lines_Forall2 in Heval. simpl in Heval.
    pose proof (number_details_lines (next_detail_id (store w)) details) as Hrows.
    change (map OrdersService.serialize_detail ?l)
      with (OrdersService.serialize_detail <$> l) in Heval.
    rewrite Forall2_fmap_l in Heval.
    eapply Forall2_trans; [|exact Hrows|exact Heval].
    intros d r item (Hp & Hprice & Hq) (cr & Hcr & ->).
    unfold shows_line. simpl in *. rewrite Hp in *. rewrite Hprice, Hq.
    repeat (split; [done|]). split; [by exists cr|done].
  - simpl in Hok. discriminate Hok. simpl.
    apply Forall_fmap.
    pose proof (number_details_lines (next_detail_id (store w)) details) as Hrows.
    clear -Hrows Hpresent. induction Hrows as [|d r ds rs (Hp & _) _ IH].
    + constructor.
    + apply Forall_cons in Hpresent as [Hd Hds].
      constructor; [|by apply IH]. simpl. by rewrite Hp.
Qed.

Lemma created_order_can_be_viewed_witness :
  let details := [ mkOrderLine "the_enigma" (mkDecimal 1250 2) 3 ] in
  sample_config !! "PRODUCT_IMAGE_ROOT"
    = Some "http://www.example.com/airship/images"
  /\ accepts_writes (store sample_world) = true
  /\ exists (id : Z) (w' w'' : World) (view : OrderDict),
       gateway_create_order details sample_world = (Ok id, w')
       /\ gateway_get_order sample_config id w' = (Ok view, w'')
       /\ o_id view = id
       /\ Forall2 (shows_line (catalogue sample_world)
                     "http://www.example.com/airship/images")
                  details (o_order_details view).
Proof.
  intros details.
  assert (sample_config !! "PRODUCT_IMAGE_ROOT"
          = Some "http://www.example.com/airship/images") as Hroot by reflexivity.
  assert (reachable (store sample_world)) as Hreach.
  { change (store sample_world)
      with (snd (OrderStore.create
                   [ mkOrderLine "the_odyssey" (mkDecimal 9999 2) 1;
                     mkOrderLine "the_enigma" (mkDecimal 599 2) 8 ]
                   OrderStore.empty)).
    apply reachable_create, reachable_empty. }
  split; [exact Hroot|]. split; [reflexivity|].
  apply (created_order_can_be_viewed sample_config _ details sample_world
           Hroot Hreach eq_refl).
  by_computation.
Defined.

(** ** The two views of an order *)

Lemma lookup_member (s : OrderStore) (o : Order) :
  store_wf s -> o ∈ rows s -> OrderStore.lookup (order_id o) s = Some o.
Proof.
  intros [Hsorted _]. unfold OrderStore.lookup.
  induction (rows s) as [|r l IH]; intros Hin; [by apply elem_of_nil in Hin|].
  simpl in *. apply StronglySorted_inv in Hsorted as [Hl Hr].
  apply elem_of_cons in Hin as [->|Hin].
  - by rewrite Z.eqb_refl.
  - rewrite Forall_forall in Hr.
    assert (order_id r < order_id o) as Hlt.
    { apply Hr. apply list_elem_of_fmap. by exists o. }
    destruct (Z.eqb_spec (order_id r) (order_id o)); [lia|]. by apply IH.
Qed.

Lemma enriched_present cat image items items' :
  Forall2 (enriched cat image) items items' ->
  Forall (fun item => is_Some (cat !! od_product_id item)) items.
Proof.
  induction 1 as [|a b l l' (r & Hr & _) _ IH]; constructor; [by eexists|done].
Qed.

Lemma enriched_twice cat image image' items items' items'' :
  Forall2 (enriched cat image) items items' ->
  Forall2 (enriched cat image') items items'' ->
  Forall2 (fun a b =>
             same_but_image a b
             /\ od_image a = Some (image (od_product_id a))
             /\ od_image b = Some (image' (od_product_id b)))
          items' items''.
Proof.
  intros H. revert items''.
  induction H as [|x a l l' (r & Hr & ->) _ IH]; intros items'' H2.
  - inversion H2. constructor.
  - inversion H2 as [|? b ? l'' (r' & Hr' & ->) Hrest]; subst.
    constructor; [|by apply IH].
    rewrite Hr in Hr'. injection Hr' as <-. by repeat split.
Qed.

(** X12.  The list view and the single-order view agree on an order: for
    every order that [fetch_orders] returns, [_get_order] returns the order
    with the same id and the same lines, line by line the same id, product
    id, price, quantity and product; only the image differs, the
    placeholder in the list and the URL under the image root in the single
    view. *)
Theorem list_and_single_view_agree
    (config : gmap string string) (image_root : string)
    (skip limit : Z) (w : World) (listed : list OrderDict) (order : OrderDict) :
  config !! "PRODUCT_IMAGE_ROOT" = Some image_root ->
  reachable (store w) ->
  fst (gateway_fetch_orders skip limit w) = Ok listed ->
  order ∈ listed ->
  exists (single : OrderDict) (w' : World),
    gateway_get_order config (o_id order) w = (Ok single, w')
    /\ o_id single = o_id order
    /\ Forall2 (fun a b =>
                  same_but_image a b
                  /\ od_image a = Some "https://picsum.photos/300"
                  /\ od_image b = Some (image_url image_root (od_product_id b)))
               (o_order_details order) (o_order_details single).
Proof.
  intros Hroot Hreach Hfetch Hin. apply reachable_wf in Hreach.
  rewrite fetch_orders_eval in Hfetch. simpl in Hfetch.
  destruct (eval_orders _ _ _) as [res cs] eqn:Heval. simpl in Hfetch. subst res.
  apply eval_orders_calls_ok in Heval as [Hpage _].
  apply list_elem_of_lookup in Hin as [i Hi].
  destruct (Forall2_lookup_r _ _ _ _ _ Hpage Hi) as (order0 & Hi0 & Hid & Hlines).
  unfold page_of in Hi0.
  change (map OrdersService.serialize_order ?l)
    with (OrdersService.serialize_order <$> l) in Hi0.
  rewrite list_lookup_fmap in Hi0.
  destruct (OrderStore.list (Some skip) (Some limit) (store w) !! i)
    as [o|] eqn:Ho; [|done].
  injection Hi0 as <-.
  assert (o ∈ rows (store w)) as Hrow.
  { unfold OrderStore.list in Ho. simpl in Ho.
    apply lookup_take_Some in Ho as [Ho _]. rewrite lookup_drop in Ho.
    by eapply list_elem_of_lookup_2. }
  rewrite Hid. simpl o_id.
  rewrite (get_order_eval _ _ _ _ Hroot). unfold OrderStore.get.
  rewrite (lookup_member _ _ Hreach Hrow). cbv zeta.
  pose proof (eval_lines_present (catalogue w) (image_url image_root) _
                (enriched_present _ _ _ _ Hlines)) as Hok.
  destruct (eval_lines _ _ _) as [[items|e] cs'] eqn:Hsingle; [|done].
  apply eval_lines_Forall2 in Hsingle.
  eexists _, _. split; [reflexivity|]. split; [done|]. simpl.
  apply (enriched_twice _ _ _ _ _ _ Hlines Hsingle).
Qed.

Lemma list_and_single_view_agree_witness :
  sample_config !! "PRODUCT_IMAGE_ROOT"
    = Some "http://www.example.com/airship/images"
  /\ exists (listed : list OrderDict) (order : OrderDict),
       fst (gateway_fetch_orders 0 50 sample_world) = Ok listed
       /\ order ∈ listed
       /\ exists (single : OrderDict) (w' : World),
            gateway_get_order sample_config (o_id order) sample_world
            = (Ok single, w')
            /\ o_id single = o_id order.
Proof.
  assert (sample_config !! "PRODUCT_IMAGE_ROOT"
          = Some "http://www.example.com/airship/images") as Hroot by reflexivity.
  assert (reachable (store sample_world)) as Hreach.
  { change (store sample_world)
      with (snd (OrderStore.create
                   [ mkOrderLine "the_odyssey" (mkDecimal 9999 2) 1;
                     mkOrderLine "the_enigma" (mkDecimal 599 2) 8 ]
                   OrderStore.empty)).
    apply reachable_create, reachable_empty. }
  split; [exact Hroot|].
  eexists _, _. split; [reflexivity|]. split; [left|].
  destruct (list_and_single_view_agree sample_config _ 0 50 sample_world _ _
              Hroot Hreach eq_refl (list_elem_of_here _ _))
    as (single & w' & Hget & Hid & _).
  by exists single, w'.
Defined.

(** ** The query arguments of [list_orders] *)

(** X13.  [list_orders] reads the page and the limit that a request gives in
    decimal: for all integers [page] and [limit], a request whose query
    arguments are their decimal forms is answered as [_list_orders] answers
    that page and limit, in a JSON response with status 200 when it
    returns. *)
Theorem list_orders_reads_decimal_arguments
    (u : UnicodeData) (page limit : Z) (request : Request) (w : World) :
  args_get (args request) "page" = Some (pretty page) ->
  args_get (args request) "limit" = Some (pretty limit) ->
  gateway_list_orders u request w
  = json_response (gateway_list_orders_page page limit w).
Proof.
  intros Hpage Hlimit. rewrite list_orders_eval. unfold int_arg.
  by rewrite Hpage, Hlimit, !py_int_pretty.
Qed.

Lemma list_orders_reads_decimal_arguments_witness :
  let request := mkRequest [("limit", "1"); ("page", "2")] in
  args_get (args request) "page" = Some (pretty 2)
  /\ args_get (args request) "limit" = Some (pretty 1)
  /\ gateway_list_orders sample_unicode_data request sample_world
     = json_response (gateway_list_orders_page 2 1 sample_world).
Proof.
  intros request. split; [reflexivity|]. split; [reflexivity|].
  apply (list_orders_reads_decimal_arguments sample_unicode_data 2 1 request
           sample_world);
    reflexivity.
Defined.

Lemma py_int_unfold (u : UnicodeData) (s : string) :
  py_int u s
  = match
      match strip (list_ascii_of_string (ascii_form u s)) with
      | c :: s' =>
          if Ascii.eqb c "-" then Z.opp <$> int_digits 0 false s'
          else if Ascii.eqb c "+" then int_digits 0 false s'
          else int_digits 0 false (c :: s')
      | [] => None
      end
    with
    | Some n => Ok n
    | None => Raise (ValueError s)
    end.
Proof.
  unfold py_int.
  destruct (strip (list_ascii_of_string (ascii_form u s))) as [|c l]; [done|].
  destruct c as [[] [] [] [] [] [] [] []]; reflexivity.
Qed.

Lemma int_digits_chars (acc : Z) (b : bool) (l : list ascii) :
  is_Some (int_digits acc b l) -> Forall (fun c => is_int_char c = true) l.
Proof.
  revert acc b. induction l as [|c l IH]; intros acc b; simpl; [constructor|].
  destruct (Ascii.eqb c "_") eqn:Hu.
  - destruct b; [|by intros [? ?]]. intros H. constructor; [|by eapply IH].
    unfold is_int_char. rewrite Hu. by rewrite orb_true_r.
  - destruct (digit_value c) as [d|] eqn:Hd; [|by intros [? ?]].
    intros H. constructor; [|by eapply IH].
    unfold is_int_char. rewrite bool_decide_eq_true_2; [done|].
    rewrite Hd. by eexists.
Qed.

Lemma lstrip_chars (l : list ascii) :
  Forall (fun c => is_int_char c = true) (lstrip l) ->
  Forall (fun c => is_int_char c = true) l.
Proof.
  induction l as [|c l IH]; simpl; [done|].
  destruct (is_space c) eqn:Hc; [|done].
  intros H. constructor; [|by apply IH].
  unfold is_int_char. rewrite Hc. by rewrite orb_true_r.
Qed.

Lemma strip_chars (l : list ascii) :
  Forall (fun c => is_int_char c = true) (strip l) ->
  Forall (fun c => is_int_char c = true) l.
Proof.
  unfold strip. intros H. apply lstrip_chars.
  apply Forall_forall. intros c Hc.
  assert (Forall (fun c => is_int_char c = true) (rev (lstrip l))) as Hrev.
  { apply lstrip_chars. apply Forall_forall. intros x Hx.
    rewrite Forall_forall in H. apply H.
    apply list_elem_of_In. apply in_rev. rewrite rev_involutive.
    by apply list_elem_of_In. }
  rewrite Forall_forall in Hrev. apply Hrev.
  apply list_elem_of_In. apply in_rev. rewrite rev_involutive.
  by apply list_elem_of_In.
Qed.

Lemma py_int_rejects (u : UnicodeData) (text : string) :
  not_an_integer (ascii_form u text) -> py_int u text = Raise (ValueError text).
Proof.
  intros Hnot. rewrite py_int_unfold.
  destruct (match strip (list_ascii_of_string (ascii_form u text)) with
            | [] => None
            | c :: s' => _
            end) as [n|] eqn:Hparsed; [exfalso|done].
  destruct Hnot as [Hempty|Hbad]; [by rewrite Hempty in Hparsed|].
  apply Exists_exists in Hbad as (c & Hc & Hbad).
  assert (Forall (fun c => is_int_char c = true)
            (list_ascii_of_string (ascii_form u text))) as Hall.
  { apply strip_chars.
    destruct (strip (list_ascii_of_string (ascii_form u text))) as [|x l];
      [constructor|].
    destruct (Ascii.eqb x "-") eqn:Hminus.
    - constructor.
      + unfold is_int_char. rewrite Hminus. by rewrite !orb_true_r.
      + apply (int_digits_chars 0 false).
        destruct (int_digits 0 false l); [by eexists|done].
    - destruct (Ascii.eqb x "+") eqn:Hplus.
      + constructor.
        * unfold is_int_char. rewrite Hplus. by rewrite !orb_true_r.
        * apply (int_digits_chars 0 false). rewrite Hparsed. by eexists.
      + apply (int_digits_chars 0 false). rewrite Hparsed. by eexists. }
  rewrite Forall_forall in Hall. apply Hall in Hc. congruence.
Qed.

(** X14.  [list_orders] answers a page or a limit that is no integer with
    [ValueError] naming the text, and reaches no service, whatever the
    services are; the page is read before the limit.  The text is no
    integer when what [int] parses (the text itself if it is ASCII, and
    what the interpreter's Unicode database makes of it if not) is empty or
    has a character that is no digit, sign, underscore or white space, such
    as a letter, a point, or one of the separators 28 to 31. *)
Theorem list_orders_rejects_non_integers
    (orders_rpc : OrdersRpc) (products_rpc : ProductsRpc) (u : UnicodeData)
    (request : Request) (w : World) (text : string) :
  not_an_integer (ascii_form u text) ->
  (args_get (args request) "page" = Some text ->
   GatewayService.list_orders orders_rpc products_rpc u request w
   = (Raise (ValueError text), w))
  /\ (forall page : Z,
        int_arg u request "page" 1 = Ok page ->
        args_get (args request) "limit" = Some text ->
        GatewayService.list_orders orders_rpc products_rpc u request w
        = (Raise (ValueError text), w)).
Proof.
  intros Hnot. apply py_int_rejects in Hnot.
  unfold GatewayService.list_orders, bind, lift. split.
  - intros Hpage. unfold int_arg at 1. by rewrite Hpage, Hnot.
  - intros page Hpage Hlimit. rewrite Hpage.
    unfold int_arg at 1. by rewrite Hlimit, Hnot.
Qed.

Lemma list_orders_rejects_non_integers_witness :
  let request := mkRequest [("page", "3"); ("limit", "1.5")] in
  not_an_integer (ascii_form sample_unicode_data "1.5")
  /\ int_arg sample_unicode_data request "page" 1 = Ok 3
  /\ args_get (args request) "limit" = Some "1.5"
  /\ gateway_list_orders sample_unicode_data request sample_world
     = (Raise (ValueError "1.5"), sample_world).
Proof.
  intros request.
  assert (not_an_integer (ascii_form sample_unicode_data "1.5")) as Hnot.
  { right. simpl. right. left. reflexivity. }
  split; [exact Hnot|]. split; [reflexivity|]. split; [reflexivity|].
  apply (proj2 (list_orders_rejects_non_integers gateway_orders_rpc
                  gateway_products_rpc sample_unicode_data request sample_world
                  "1.5" Hnot) 3);
    reflexivity.
Defined.

(** What [int] makes of some texts: white space around the digits is
    skipped, a separator (28 to 31) is not; with a database that knows them,
    a no-break space is skipped and an Arabic-Indic digit is read; with one
    that does not, the text is no integer. *)
Example py_int_examples :
  py_int sample_unicode_data " 12 " = Ok 12
  /\ py_int sample_unicode_data "-1_000" = Ok (-1000)
  /\ py_int sample_unicode_data separator_zero = Raise (ValueError separator_zero)
  /\ py_int sample_unicode_data no_break_space_zero = Ok 0
  /\ py_int sample_unicode_data arabic_indic_three = Ok 3
  /\ py_int (mkUnicodeData (fun _ => "?")) arabic_indic_three
     = Raise (ValueError arabic_indic_three)
  /\ py_int sample_unicode_data "1.5" = Raise (ValueError "1.5")
  /\ py_int sample_unicode_data "" = Raise (ValueError "").
Proof. repeat split. Qed.

(** A page given as [chr(28) + '1'] is no integer, whatever the database:
    the request fails with [ValueError] and no service is called. *)
Example list_orders_rejects_separator :
  forall (u : UnicodeData) (w : World),
    gateway_list_orders u
      (mkRequest [("page", String (ascii_of_N 28) "1")]) w
    = (Raise (ValueError (String (ascii_of_N 28) "1")), w).
Proof. reflexivity. Qed.

(** * The entry points *)

(** ** Products *)

Lemma product_of_row_of (p : Product) : product_of (p_id p) (row_of p) = p.
Proof. by destruct p. Qed.

(** X15.  A product posted through [create_product] can be fetched through
    [get_product]: when the body loads, the response to the post names the
    product's id, and [get_product] for that id then answers 200 with the
    schema's dump of the very product that was loaded.  The post leaves the
    other products, the orders and the events as they were. *)
Theorem created_product_can_be_fetched
    (loads : string -> Loaded Product) (dumps : Product -> string)
    (data : string) (p : Product) (w : World) :
  loads data = Data p ->
  exists w' : World,
    GatewayEntrypoints.create_product gateway_products_writes loads data w
    = (Responds (mkResponse 200 "application/json" (mkCreated (p_id p))), w')
    /\ GatewayEntrypoints.get_product gateway_products_rpc dumps (p_id p) w'
       = (Ok (mkResponse 200 "application/json" (dumps p)),
          with_calls [products_get (p_id p)] w')
    /\ (forall other : string,
          other <> p_id p -> catalogue w' !! other = catalogue w !! other)
    /\ store w' = store w
    /\ dispatched w' = dispatched w.
Proof.
  intros Hloads. unfold GatewayEntrypoints.create_product. rewrite Hloads.
  simpl. eexists. split; [reflexivity|]. split; [|split; [|done]].
  - unfold GatewayEntrypoints.get_product, bind. rewrite remote_get_eval.
    simpl. rewrite lookup_insert_eq. by rewrite product_of_row_of.
  - intros other Hother. simpl. by rewrite lookup_insert_ne.
Qed.

Lemma created_product_can_be_fetched_witness :
  let p := mkProduct "the_iliad" "The Iliad" 12 7 2 in
  let loads := fun _ : string => Data p in
  loads "body" = Data p
  /\ exists w' : World,
       GatewayEntrypoints.create_product gateway_products_writes loads "body"
         sample_world
       = (Responds (mkResponse 200 "application/json" (mkCreated "the_iliad")), w')
       /\ GatewayEntrypoints.get_product gateway_products_rpc p_title "the_iliad" w'
          = (Ok (mkResponse 200 "application/json" "The Iliad"),
             with_calls [products_get "the_iliad"] w').
Proof.
  intros p loads. split; [reflexivity|].
  destruct (created_product_can_be_fetched loads p_title "body" p sample_world
              eq_refl) as (w' & Hcreate & Hget & _).
  by exists w'.
Defined.

(** X16.  [delete_product] answers by what the product service reports: 204
    when the product existed, and then the product is gone (fetching it
    fails with [ProductNotFound], deleting it again gives 404) while the
    other products and the orders are untouched; 404, and no change at all,
    when there was no such product. *)
Theorem delete_product_answers_by_existence (product_id : string) (w : World) :
  (is_Some (catalogue w !! product_id) ->
   exists w' : World,
     GatewayEntrypoints.delete_product gateway_products_writes product_id w
     = (Ok (mkResponse 204 "text/plain" ""), w')
     /\ catalogue w' !! product_id = None
     /\ (forall other : string,
           other <> product_id -> catalogue w' !! other = catalogue w !! other)
     /\ store w' = store w
     /\ dispatched w' = dispatched w
     /\ GatewayEntrypoints.delete_product gateway_products_writes product_id w'
        = (Ok (mkResponse 404 "text/plain" ""), w')
     /\ forall dumps : Product -> string,
          exists msg : string,
            fst (GatewayEntrypoints.get_product gateway_products_rpc dumps
                   product_id w')
            = Raise (ProductNotFound msg))
  /\ (catalogue w !! product_id = None ->
      GatewayEntrypoints.delete_product gateway_products_writes product_id w
      = (Ok (mkResponse 404 "text/plain" ""), w)).
Proof.
  unfold GatewayEntrypoints.delete_product, bind, gateway_products_writes,
    translated, ProductsWrites.delete. simpl.
  split.
  - intros [r Hr]. rewrite Hr. simpl. eexists. split; [reflexivity|]. simpl.
    rewrite lookup_delete_eq. split; [done|].
    split; [intros other Hother; by rewrite lookup_delete_ne|].
    split; [done|]. split; [done|]. split; [done|].
    intros dumps. unfold GatewayEntrypoints.get_product, bind.
    rewrite remote_get_eval. simpl. rewrite lookup_delete_eq. by eexists.
  - intros Hnone. by rewrite Hnone.
Qed.

Lemma delete_product_answers_by_existence_witness :
  is_Some (catalogue sample_world !! "the_enigma")
  /\ exists w' : World,
       GatewayEntrypoints.delete_product gateway_products_writes "the_enigma"
         sample_world
       = (Ok (mkResponse 204 "text/plain" ""), w')
       /\ catalogue w' !! "the_enigma" = None.
Proof.
  assert (is_Some (catalogue sample_world !! "the_enigma")) as Hsome
    by by_computation.
  split; [exact Hsome|].
  destruct (proj1 (delete_product_answers_by_existence "the_enigma" sample_world)
              Hsome) as (w' & Hdelete & Hgone & _).
  by exists w'.
Defined.

(** ** Orders *)

(** X17.  [create_order] stores an order only for a body that loads and
    names existing products only: it either leaves the orders and the
    events as they were (with [BadRequest] "Invalid json: ..." for a body
    that is no JSON, the schema's [ValidationError] for invalid data, and
    [ProductNotFound] for an unknown product), or it has stored, as one new
    last order, the lines that the body loaded to, and responds 200 with
    its id. *)
Theorem create_order_stores_valid_bodies_only
    (loads : string -> Loaded (list OrderLine)) (data : string) (w : World) :
  let outcome :=
    GatewayEntrypoints.create_order gateway_orders_rpc gateway_products_rpc
      loads data w in
  (forall exc : string,
      loads data = Malformed exc ->
      outcome = (Fails (BadRequest ("Invalid json: " +:+ exc)), w))
  /\ (forall messages : string,
        loads data = Invalid messages ->
        outcome = (Fails (ValidationError messages), w))
  /\ (forall details : list OrderLine,
        loads data = Data details ->
        Exists (fun d => catalogue w !! line_product_id d = None) details ->
        exists msg : string,
          fst outcome = Fails (Other (ProductNotFound msg))
          /\ store (snd outcome) = store w
          /\ dispatched (snd outcome) = dispatched w)
  /\ (forall details : list OrderLine,
        loads data = Data details ->
        Forall (fun d => is_Some (catalogue w !! line_product_id d)) details ->
        accepts_writes (store w) = true ->
        exists row : Order,
          fst outcome
          = Responds (mkResponse 200 "application/json" (mkCreated (order_id row)))
          /\ rows (store (snd outcome)) = rows (store w) ++ [row]
          /\ Forall2 holds_line details (order_details row)).
Proof.
  intros outcome. unfold outcome, GatewayEntrypoints.create_order.
  split; [|split; [|split]].
  - by intros exc ->.
  - by intros messages ->.
  - intros details -> Hmissing.
    destruct (find_first_missing _ _ Hmissing)
      as (before & item & after & _ & _ & _ & Hfind).
    rewrite create_order_eval, Hfind. simpl. by eexists.
  - intros details -> Hpresent Hwrites.
    change (GatewayService._create_order gateway_orders_rpc gateway_products_rpc)
      with gateway_create_order.
    rewrite (create_order_success_eval details w Hwrites Hpresent). cbv zeta.
    eexists (mkOrder _ _). split; [reflexivity|]. split; [reflexivity|].
    apply number_details_lines.
Qed.

Lemma create_order_stores_valid_bodies_only_witness :
  let details := [ mkOrderLine "the_enigma" (mkDecimal 1250 2) 3 ] in
  let loads := fun _ : string => Data details in
  loads "body" = Data details
  /\ accepts_writes (store sample_world) = true
  /\ exists row : Order,
       fst (GatewayEntrypoints.create_order gateway_orders_rpc
              gateway_products_rpc loads "body" sample_world)
       = Responds (mkResponse 200 "application/json" (mkCreated (order_id row)))
       /\ Forall2 holds_line details (order_details row).
Proof.
  intros details loads. split; [reflexivity|]. split; [reflexivity|].
  destruct (proj2 (proj2 (proj2 (create_order_stores_valid_bodies_only
                                   loads "body" sample_world)))
              details eq_refl ltac:(by_computation) eq_refl)
    as (row & Hresp & _ & Hlines).
  by exists row.
Defined.

(** X18.  An order posted through [create_order] can be fetched through
    [get_order] under the id of the response: it answers 200 with the
    schema's dump of a view that has this id and shows the lines that the
    body loaded to, in their order. *)
Theorem posted_order_can_be_fetched
    (loads : string -> Loaded (list OrderLine)) (dumps : OrderDict -> string)
    (config : gmap string string) (image_root : string)
    (data : string) (details : list OrderLine) (w : World) :
  loads data = Data details ->
  config !! "PRODUCT_IMAGE_ROOT" = Some image_root ->
  reachable (store w) ->
  accepts_writes (store w) = true ->
  Forall (fun d => is_Some (catalogue w !! line_product_id d)) details ->
  exists (id : Z) (w' w'' : World) (view : OrderDict),
    GatewayEntrypoints.create_order gateway_orders_rpc gateway_products_rpc
      loads data w
    = (Responds (mkResponse 200 "application/json" (mkCreated id)), w')
    /\ GatewayEntrypoints.get_order gateway_orders_rpc gateway_products_rpc
         config dumps id w'
       = (Ok (mkResponse 200 "application/json" (dumps view)), w'')
    /\ o_id view = id
    /\ Forall2 (shows_line (catalogue w) image_root) details (o_order_details view).
Proof.
  intros Hloads Hroot Hreach Hwrites Hpresent. apply reachable_wf in Hreach as Hwf.
  unfold GatewayEntrypoints.create_order, GatewayEntrypoints.get_order.
  rewrite Hloads.
  change (GatewayService._create_order gateway_orders_rpc gateway_products_rpc)
    with gateway_create_order.
  change (GatewayService._get_order gateway_orders_rpc gateway_products_rpc)
    with gateway_get_order.
  rewrite (create_order_success_eval details w Hwrites Hpresent). cbv zeta.
  eexists _, _.
  set (row := mkOrder (next_order_id (store w))
                (OrderStore.number_details (next_detail_id (store w)) details)).
  set (w' := mkWorld _ _ _ _).
  assert (OrderStore.get (next_order_id (store w)) (store w') = Ok row) as Hget.
  { unfold OrderStore.get, OrderStore.lookup. simpl.
    by rewrite (lookup_new_row (store w) row). }
  unfold bind. rewrite (get_order_eval _ _ _ _ Hroot), Hget. cbv zeta.
  pose proof (number_details_lines (next_detail_id (store w)) details) as Hrows.
  pose proof (eval_lines_present (catalogue w') (image_url image_root)
                (o_order_details (OrdersService.serialize_order row))) as Hok.
  destruct (eval_lines _ _ _) as [[items|e] cs] eqn:Heval.
  - eexists _, _. split; [reflexivity|]. split; [reflexivity|]. split; [done|].
    apply eval_lines_Forall2 in Heval. simpl in Heval.
    change (map OrdersService.serialize_detail ?l)
      with (OrdersService.serialize_detail <$> l) in Heval.
    rewrite Forall2_fmap_l in Heval.
    eapply Forall2_trans; [|exact Hrows|exact Heval].
    intros d r item (Hp & Hprice & Hq) (cr & Hcr & ->).
    unfold shows_line. simpl in *. rewrite Hp in *. rewrite Hprice, Hq.
    repeat (split; [done|]). split; [by exists cr|done].
  - simpl in Hok. discriminate Hok. simpl.
    apply Forall_fmap.
    clear -Hrows Hpresent. induction Hrows as [|d r ds rs (Hp & _) _ IH].
    + constructor.
    + apply Forall_cons in Hpresent as [Hd Hds].
      constructor; [|by apply IH]. simpl. by rewrite Hp.
Qed.

Lemma posted_order_can_be_fetched_witness :
  let details := [ mkOrderLine "the_enigma" (mkDecimal 1250 2) 3 ] in
  let loads := fun _ : string => Data details in
  let dumps := fun o : OrderDict => pretty (o_id o) in
  loads "body" = Data details
  /\ sample_config !! "PRODUCT_IMAGE_ROOT"
     = Some "http://www.example.com/airship/images"
  /\ accepts_writes (store sample_world) = true
  /\ exists (id : Z) (w' w'' : World) (view : OrderDict),
       GatewayEntrypoints.create_order gateway_orders_rpc gateway_products_rpc
         loads "body" sample_world
       = (Responds (mkResponse 200 "application/json" (mkCreated id)), w')
       /\ GatewayEntrypoints.get_order gateway_orders_rpc gateway_products_rpc
            sample_config dumps id w'
          = (Ok (mkResponse 200 "application/json" (dumps view)), w'')
       /\ o_id view = id.
Proof.
  intros details loads dumps.
  assert (sample_config !! "PRODUCT_IMAGE_ROOT"
          = Some "http://www.example.com/airship/images") as Hroot by reflexivity.
  assert (reachable (store sample_world)) as Hreach.
  { change (store sample_world)
      with (snd (OrderStore.create
                   [ mkOrderLine "the_odyssey" (mkDecimal 9999 2) 1;
                     mkOrderLine "the_enigma" (mkDecimal 599 2) 8 ]
                   OrderStore.empty)).
    apply reachable_create, reachable_empty. }
  split; [reflexivity|]. split; [exact Hroot|]. split; [reflexivity|].
  destruct (posted_order_can_be_fetched loads dumps sample_config _ "body"
              details sample_world eq_refl Hroot Hreach eq_refl
              ltac:(by_computation))
    as (id & w' & w'' & view & Hpost & Hget & Hid & _).
  by exists id, w', w'', view.
Defined.

(** * The order service, as its interface tests use it *)

Lemma consecutive_lower (first : Z) (n : nat) :
  Forall (fun i => first <= i) (consecutive first n).
Proof.
  revert first. induction n as [|n IH]; intros first; simpl; constructor; [lia|].
  eapply Forall_impl; [apply IH|]. simpl. intros; lia.
Qed.

Lemma NoDup_consecutive (first : Z) (n : nat) : NoDup (consecutive first n).
Proof.
  revert first. induction n as [|n IH]; intros first; simpl; constructor; [|done].
  intros Hin. pose proof (consecutive_lower (first + 1) n) as Hlow.
  rewrite Forall_forall in Hlow. apply Hlow in Hin. lia.
Qed.

Lemma overwrite_id (given : list OrderDetail) (d : OrderDetail) :
  detail_id (OrderStore.overwrite given d) = detail_id d.
Proof. unfold OrderStore.overwrite. by destruct (find _ given). Qed.

Lemma details_wf_create (details : list OrderLine) (s : OrderStore) :
  details_wf s -> details_wf (snd (OrderStore.create details s)).
Proof.
  unfold details_wf, OrderStore.create. intros H.
  destruct (accepts_writes s); [|done]. simpl.
  apply Forall_app. split; [done|]. repeat constructor. simpl.
  rewrite number_details_ids. apply NoDup_consecutive.
Qed.

Lemma details_wf_update (o : Order) (s : OrderStore) :
  details_wf s -> details_wf (snd (OrderStore.update o s)).
Proof.
  unfold details_wf, OrderStore.update. intros H.
  destruct (OrderStore.lookup _ s); [|done]. simpl.
  apply Forall_fmap. eapply Forall_impl; [exact H|]. intros r Hr. simpl.
  unfold OrderStore.replace_order. destruct (_ =? _); [|done]. simpl.
  rewrite map_map. erewrite map_ext; [exact Hr|]. intros d. apply overwrite_id.
Qed.

Lemma details_wf_delete (id : Z) (s : OrderStore) :
  details_wf s -> details_wf (snd (OrderStore.delete id s)).
Proof.
  unfold details_wf, OrderStore.delete. intros H.
  destruct (OrderStore.lookup _ s); [|done]. simpl.
  rewrite Forall_forall in H |- *. intros x Hx. apply H.
  apply list_elem_of_In in Hx. apply filter_In in Hx as [Hx _].
  by apply list_elem_of_In.
Qed.

Lemma reachable_details_wf (s : OrderStore) : reachable s -> details_wf s.
Proof.
  induction 1 as [|s details _ IH|s o _ IH|s id _ IH|s b _ IH].
  - constructor.
  - by apply details_wf_create.
  - by apply details_wf_update.
  - by apply details_wf_delete.
  - exact IH.
Qed.

Lemma load_payload (f : Z -> Z) (ds : list OrderDetail) :
  traverse_option OrdersService.load_detail
    (map (with_quantity f) (map OrdersService.serialize_detail ds))
  = Some (map (set_quantity f) ds).
Proof.
  induction ds as [|d ds IH]; simpl; [done|].
  unfold OrdersService.load_detail at 1. simpl.
  by rewrite parse_serialize_price, IH.
Qed.

Lemma find_set_quantity (f : Z -> Z) (ds : list OrderDetail) (d : OrderDetail) :
  NoDup (map detail_id ds) -> d ∈ ds ->
  List.find (fun g => detail_id g =? detail_id d) (map (set_quantity f) ds)
  = Some (set_quantity f d).
Proof.
  induction ds as [|x ds IH]; intros Hnodup Hin; [by apply elem_of_nil in Hin|].
  simpl in *. apply NoDup_cons in Hnodup as [Hx Hnodup].
  apply elem_of_cons in Hin as [->|Hin].
  - by rewrite Z.eqb_refl.
  - destruct (Z.eqb_spec (detail_id x) (detail_id d)) as [Heq|_]; [|by apply IH].
    destruct Hx. rewrite Heq. apply list_elem_of_fmap. by exists d.
Qed.

Lemma overwrite_payload (f : Z -> Z) (ds : list OrderDetail) :
  NoDup (map detail_id ds) ->
  map (OrderStore.overwrite (map (set_quantity f) ds)) ds = map (set_quantity f) ds.
Proof.
  intros Hnodup. apply map_ext_in. intros d Hd.
  unfold OrderStore.overwrite.
  rewrite (find_set_quantity f ds d Hnodup) by by apply list_elem_of_In.
  reflexivity.
Qed.

Lemma find_replaced (given : Order) (l : list Order) (id : Z) :
  List.find (fun r => order_id r =? id) (map (OrderStore.replace_order given) l)
  = OrderStore.replace_order given <$> List.find (fun r => order_id r =? id) l.
Proof.
  induction l as [|r l IH]; simpl; [done|].
  rewrite replace_order_id. by destruct (order_id r =? id).
Qed.

Lemma serialize_set_quantity (f : Z -> Z) (ds : list OrderDetail) :
  map OrdersService.serialize_detail (map (set_quantity f) ds)
  = map (with_quantity f) (map OrdersService.serialize_detail ds).
Proof. by rewrite !map_map. Qed.

(** X19.  As in [test_can_update_order]: when the payload of [update_order]
    is a stored order as the service serializes it, with the quantities
    changed, the service returns the payload, line for line, and from then
    on [get_order] returns it for that id; the number of orders is as
    before. *)
Theorem update_order_returns_the_payload (f : Z -> Z) (o : Order) (w : World) :
  reachable (store w) -> o ∈ rows (store w) ->
  exists w' : World,
    OrdersService.update_order (update_payload f o) w = (Ok (update_payload f o), w')
    /\ OrdersService.get_order (order_id o) w' = (Ok (update_payload f o), w')
    /\ OrderStore.count (store w') = OrderStore.count (store w).
Proof.
  intros Hreach Hin.
  pose proof (reachable_wf _ Hreach) as Hwf.
  pose proof (reachable_details_wf _ Hreach) as Hdetails.
  assert (NoDup (map detail_id (order_details o))) as Hnodup.
  { unfold details_wf in Hdetails. rewrite Forall_forall in Hdetails.
    by apply Hdetails. }
  unfold OrdersService.update_order, update_payload. simpl.
  rewrite load_payload. unfold OrderStore.update. simpl.
  rewrite (lookup_member _ _ Hwf Hin).
  assert (OrderStore.replace_order
            (mkOrder (order_id o) (map (set_quantity f) (order_details o))) o
          = mkOrder (order_id o) (map (set_quantity f) (order_details o)))
    as Hreplaced.
  { unfold OrderStore.replace_order. simpl. rewrite Z.eqb_refl.
    by rewrite overwrite_payload. }
  rewrite Hreplaced. unfold OrdersService.serialize_order at 1. simpl.
  rewrite serialize_set_quantity.
  eexists. split; [reflexivity|]. split.
  - unfold OrdersService.get_order, OrderStore.get, OrderStore.lookup. simpl.
    rewrite find_replaced.
    change (find (fun r => order_id r =? order_id o) (rows (store w)))
      with (OrderStore.lookup (order_id o) (store w)).
    rewrite (lookup_member _ _ Hwf Hin). simpl. rewrite Hreplaced.
    unfold OrdersService.serialize_order. simpl.
    by rewrite serialize_set_quantity.
  - unfold OrderStore.count. simpl. by rewrite length_map.
Qed.

Lemma update_order_returns_the_payload_witness :
  o_order_details (update_payload Z.succ sample_order)
  = [ mkOrderDetailDict 1 "the_odyssey" "99.99" 2 None None;
      mkOrderDetailDict 2 "the_enigma" "5.99" 9 None None ]
  /\ exists w' : World,
       OrdersService.update_order (update_payload Z.succ sample_order) sample_world
       = (Ok (update_payload Z.succ sample_order), w').
Proof.
  split; [reflexivity|].
  assert (reachable (store sample_world)) as Hreach.
  { change (store sample_world)
      with (snd (OrderStore.create
                   [ mkOrderLine "the_odyssey" (mkDecimal 9999 2) 1;
                     mkOrderLine "the_enigma" (mkDecimal 599 2) 8 ]
                   OrderStore.empty)).
    apply reachable_create, reachable_empty. }
  destruct (update_order_returns_the_payload Z.succ sample_order sample_world
              Hreach (list_elem_of_here _ _)) as (w' & Hupdate & _).
  by exists w'.
Defined.

Lemma filter_other_ids (l : list Order) (id : Z) :
  id ∉ map order_id l ->
  List.filter (fun r => negb (order_id r =? id)) l = l.
Proof.
  induction l as [|r l IH]; simpl; [done|].
  rewrite not_elem_of_cons. intros [Hne Hl].
  destruct (Z.eqb_spec (order_id r) id); [congruence|]. simpl. by rewrite IH.
Qed.

Lemma length_filter_member (l : list Order) (o : Order) :
  StronglySorted Z.lt (map order_id l) -> o ∈ l ->
  S (length (List.filter (fun r => negb (order_id r =? order_id o)) l)) = length l
  /\ order_id o ∉ map order_id
                    (List.filter (fun r => negb (order_id r =? order_id o)) l).
Proof.
  induction l as [|r l IH]; intros Hsorted Hin; [by apply elem_of_nil in Hin|].
  simpl in *. apply StronglySorted_inv in Hsorted as [Hl Hr].
  rewrite Forall_forall in Hr.
  apply elem_of_cons in Hin as [->|Hin].
  - rewrite Z.eqb_refl. simpl.
    assert (order_id r ∉ map order_id l) as Hnot.
    { intros Hin. apply Hr in Hin. lia. }
    by rewrite (filter_other_ids l _ Hnot).
  - assert (order_id r < order_id o) as Hlt.
    { apply Hr. apply list_elem_of_fmap. by exists o. }
    destruct (Z.eqb_spec (order_id r) (order_id o)); [lia|]. simpl.
    destruct (IH Hl Hin) as [Hlen Hnot]. split; [by rewrite Hlen|].
    rewrite not_elem_of_cons. split; [lia|done].
Qed.

(** X20.  As in [test_can_delete_order]: after [delete_order] for the id of
    a stored order, no order has that id ([get_order] fails with the
    not-found message), there is one order less, and every other order is
    still returned by [get_order]; for an id that no order has,
    [delete_order] returns as well and changes nothing. *)
Theorem delete_order_removes_the_order (w : World) :
  (forall o : Order,
      reachable (store w) -> o ∈ rows (store w) ->
      exists w' : World,
        OrdersService.delete_order (order_id o) w = (Ok tt, w')
        /\ OrdersService.get_order (order_id o) w'
           = (Raise (NotFound ("Order with id " +:+ pretty (order_id o)
                                 +:+ " not found")), w')
        /\ OrderStore.count (store w') = OrderStore.count (store w) - 1
        /\ (forall other : Order,
              other ∈ rows (store w) -> order_id other <> order_id o ->
              OrdersService.get_order (order_id other) w'
              = (Ok (OrdersService.serialize_order other), w')))
  /\ (forall id : Z,
        id ∉ map order_id (rows (store w)) ->
        OrdersService.delete_order id w = (Ok tt, w)).
Proof.
  split.
  - intros o Hreach Hin. pose proof (reachable_wf _ Hreach) as Hwf.
    unfold OrdersService.delete_order, OrderStore.delete.
    rewrite (lookup_member _ _ Hwf Hin). simpl.
    destruct (length_filter_member (rows (store w)) o (proj1 Hwf) Hin)
      as [Hlen Hgone].
    eexists. split; [reflexivity|]. split; [|split].
    + unfold OrdersService.get_order. by rewrite get_absent.
    + unfold OrderStore.count. simpl. lia.
    + intros other Hother Hne.
      assert (store_wf (snd (OrderStore.delete (order_id o) (store w)))) as Hwf'
        by by apply store_wf_delete.
      unfold OrderStore.delete in Hwf'.
      rewrite (lookup_member _ _ Hwf Hin) in Hwf'. simpl in Hwf'.
      unfold OrdersService.get_order, OrderStore.get. simpl.
      rewrite (lookup_member _ other Hwf'); [done|]. simpl.
      apply list_elem_of_In. apply filter_In. split; [by apply list_elem_of_In|].
      apply negb_true_iff. by apply Z.eqb_neq.
  - intros id Habsent. unfold OrdersService.delete_order, OrderStore.delete.
    apply lookup_None_iff in Habsent. rewrite Habsent. simpl.
    by rewrite with_store_same.
Qed.

Lemma delete_order_removes_the_order_witness :
  reachable (store sample_world)
  /\ sample_order ∈ rows (store sample_world)
  /\ exists w' : World,
       OrdersService.delete_order 1 sample_world = (Ok tt, w')
       /\ OrdersService.get_order 1 w'
          = (Raise (NotFound "Order with id 1 not found"), w')
       /\ OrderStore.count (store w') = 0.
Proof.
  assert (reachable (store sample_world)) as Hreach.
  { change (store sample_world)
      with (snd (OrderStore.create
                   [ mkOrderLine "the_odyssey" (mkDecimal 9999 2) 1;
                     mkOrderLine "the_enigma" (mkDecimal 599 2) 8 ]
                   OrderStore.empty)).
    apply reachable_create, reachable_empty. }
  split; [exact Hreach|]. split; [left|].
  destruct (proj1 (delete_order_removes_the_order sample_world) sample_order
              Hreach (list_elem_of_here _ _)) as (w' & Hdelete & Hget & Hcount & _).
  exists w'. split; [exact Hdelete|]. split; [exact Hget|exact Hcount].
Defined.

(** X21.  As in [test_list_orders_default_options] and [test_get_order]:
    without arguments [list_orders] returns every order when there are at
    most fifty, in creation order, and every order that [list_orders]
    returns, whatever the skip and the limit, is what [get_order] returns
    for its id. *)
Theorem listed_orders_are_the_stored_ones (w : World) :
  ((length (rows (store w)) <= 50)%nat ->
   OrdersService.list_orders None None w
   = (Ok (map OrdersService.serialize_order (rows (store w))), w))
  /\ (forall (skip limit : option Z) (order : OrderDict),
        reachable (store w) ->
        (exists listed,
            fst (OrdersService.list_orders skip limit w) = Ok listed
            /\ order ∈ listed) ->
        OrdersService.get_order (o_id order) w = (Ok order, w)).
Proof.
  split.
  - intros Hlen. unfold OrdersService.list_orders, OrderStore.list.
    unfold default. change (Z.to_nat 0) with 0%nat.
    change (Z.to_nat 50) with 50%nat.
    by rewrite drop_0, take_ge by lia.
  - intros skip limit order Hreach (listed & Hlist & Hin).
    apply reachable_wf in Hreach.
    unfold OrdersService.list_orders in Hlist. simpl in Hlist.
    injection Hlist as <-.
    apply list_elem_of_fmap in Hin as (o & -> & Ho).
    assert (o ∈ rows (store w)) as Hrow.
    { unfold OrderStore.list in Ho.
      apply list_elem_of_lookup in Ho as [i Hi].
      apply lookup_take_Some in Hi as [Hi _]. rewrite lookup_drop in Hi.
      by eapply list_elem_of_lookup_2. }
    unfold OrdersService.get_order, OrderStore.get. simpl.
    by rewrite (lookup_member _ _ Hreach Hrow).
Qed.

Lemma listed_orders_are_the_stored_ones_witness :
  (length (rows (store sample_world)) <= 50)%nat
  /\ OrdersService.list_orders None None sample_world
     = (Ok (map OrdersService.serialize_order (rows (store sample_world))),
        sample_world).
Proof.
  assert (length (rows (store sample_world)) <= 50)%nat as Hlen by (simpl; lia).
  split; [exact Hlen|].
  exact (proj1 (listed_orders_are_the_stored_ones sample_world) Hlen).
Defined.

Lemma create_order_count (details : list OrderLineDict) (w w' : World)
    (order : OrderDict) :
  OrdersService.create_order details w = (Ok order, w') ->
  OrderStore.count (store w') = OrderStore.count (store w) + 1.
Proof.
  unfold OrdersService.create_order.
  destruct (traverse_option _ details) as [lines|]; [|done].
  unfold OrderStore.create. destruct (accepts_writes (store w)); [|done].
  intros [= _ <-]. unfold OrderStore.count. simpl. rewrite length_app. simpl. lia.
Qed.

(** X22.  As in [test_count_orders_with_extra_data]: [count_orders] counts
    the orders created; after any sequence of submissions it has grown by
    the number of orders that were created. *)
Theorem count_orders_counts_created_orders
    (submissions : list (list OrderLineDict)) (w : World) :
  fst (OrdersService.count_orders (snd (create_orders submissions w)))
  = Ok (OrderStore.count (store w)
        + Z.of_nat (length (fst (create_orders submissions w)))).
Proof.
  unfold OrdersService.count_orders. simpl. f_equal.
  revert w. induction submissions as [|details rest IH]; intros w; simpl; [lia|].
  destruct (OrdersService.create_order details w) as [[order|e] w'] eqn:Hcreate.
  - apply create_order_count in Hcreate.
    specialize (IH w'). destruct (create_orders rest w') as [created w''].
    simpl in *. lia.
  - apply create_order_fails in Hcreate as ->. apply IH.
Qed.
